(** * scheduled_modules: trigger compiler, dedup store and scrape engine

    A shallow embedding of three parts of the repository:

    - [service/scheduler.py], function [_build_trigger];
    - [modules/career_watch/lib/db.py], functions [init_db], [filter_new]
      and [count_rows];
    - [modules/career_watch/lib/engine.py], function [run_once], with the
      helpers of [config.py] and [render.py] it calls.

    Python strings are lists of Unicode code points, Python integers are
    [Z], dictionaries are association lists in insertion order, raised
    exceptions are the [Raise] case of a result type, and the effects of
    [run_once] (log records, scraper resolution and invocation, the sqlite
    file) are threaded through an explicit world. *)

From Stdlib Require Import Ascii String DecimalString ZArith.
From stdpp Require Import base decidable option numbers list sorting gmap.

Set Warnings "-register-all".
Local Open Scope Z_scope.

(** ** Python strings *)

Module Py.

(** A [str] is a sequence of code points. *)
Abbreviation str := (list N).

(** A literal of ASCII characters. *)
Definition u (s : string) : str := N_of_ascii <$> list_ascii_of_string s.

(** [str.isspace] on one code point: the characters [str.strip] removes. *)
Definition isspace (c : N) : bool :=
  ((9 <=? c) && (c <=? 13) || (28 <=? c) && (c <=? 32)
   || (c =? 133) || (c =? 160) || (c =? 5760)
   || (8192 <=? c) && (c <=? 8202)
   || (c =? 8232) || (c =? 8233) || (c =? 8239) || (c =? 8287)
   || (c =? 12288))%N.

Fixpoint lstrip (s : str) : str :=
  match s with
  | c :: s' => if isspace c then lstrip s' else s
  | [] => []
  end.

Definition rstrip (s : str) : str := reverse (lstrip (reverse s)).

(** [s.strip()] *)
Definition strip (s : str) : str := rstrip (lstrip s).

(** [s.split(sep)] for a one-character separator. *)
Fixpoint split (sep : N) (s : str) : list str :=
  match s with
  | [] => [[]]
  | c :: s' =>
      if (c =? sep)%N then [] :: split sep s'
      else match split sep s' with
           | w :: ws => (c :: w) :: ws
           | [] => [[c]]
           end
  end.

(** [s.split()]: the maximal runs of characters that are not whitespace. *)
Fixpoint split_ws_aux (s : str) (cur : str) : list str :=
  match s with
  | [] => if decide (cur = []) then [] else [reverse cur]
  | c :: s' =>
      if isspace c
      then (if decide (cur = []) then [] else [reverse cur]) ++ split_ws_aux s' []
      else split_ws_aux s' (c :: cur)
  end.

Definition split_ws (s : str) : list str := split_ws_aux s [].

(** [str(n)] for an integer. *)
Definition str_of_Z (n : Z) : str := u (NilZero.string_of_int (Z.to_int n)).

(** *** [int(s)]

    The whitespace [int] skips differs from [isspace]: below 127 only
    9..13 and 32 count (the separators 28..31 do not); from 127 on, the
    Unicode spaces do.  A digit is any character with a decimal value: the
    ASCII digits and the decimal digits of the other scripts.  The default
    limit of 4300 digits of the interpreter is applied. *)
Definition int_space (c : N) : bool :=
  ((9 <=? c) && (c <=? 13) || (c =? 32) || (127 <=? c) && isspace c)%N.

Fixpoint int_lstrip (s : str) : str :=
  match s with
  | c :: s' => if int_space c then int_lstrip s' else s
  | [] => []
  end.

Definition int_strip (s : str) : str :=
  reverse (int_lstrip (reverse (int_lstrip s))).

(** The decimal digits come in runs of ten, zero to nine; these are the
    code points of the zeros (Unicode 14.0, the database of Python 3.11). *)
Definition digit_zeros : list N :=
  [48; 1632; 1776; 1984; 2406; 2534; 2662; 2790; 2918; 3046; 3174; 3302;
   3430; 3558; 3664; 3792; 3872; 4160; 4240; 6112; 6160; 6470; 6608; 6784;
   6800; 6992; 7088; 7232; 7248; 42528; 43216; 43264; 43472; 43504; 43600;
   44016; 65296; 66720; 68912; 69734; 69872; 69942; 70096; 70384; 70736;
   70864; 71248; 71360; 71472; 71904; 72016; 72784; 73040; 73120; 92768;
   92864; 93008; 120782; 120792; 120802; 120812; 120822; 123200; 123632;
   125264; 130032]%N.

Definition digit_val (c : N) : option Z :=
  (λ z, Z.of_N (c - z))
  <$> List.find (λ z, (z <=? c) && (c <=? z + 9))%N digit_zeros.

(** Digits, single underscores allowed between two digits. *)
Fixpoint int_digits (s : str) (acc : Z) (after_digit : bool) : option Z :=
  match s with
  | [] => if after_digit then Some acc else None
  | c :: s' =>
      match digit_val c with
      | Some d => int_digits s' (10 * acc + d) true
      | None =>
          if (c =? 95)%N && after_digit then int_digits s' acc false else None
      end
  end.

Definition max_str_digits : nat := 4300.

Definition count_digits (s : str) : nat :=
  length (filter (λ c, is_Some (digit_val c)) s).

(** [int(s)]; [None] is [ValueError]. *)
Definition int (s : str) : option Z :=
  let t := int_strip s in
  if decide (max_str_digits < count_digits t)%nat then None
  else match t with
       | 43%N :: r => int_digits r 0 false
       | 45%N :: r => Z.opp <$> int_digits r 0 false
       | _ => int_digits t 0 false
       end.

(** [html.escape(s, quote=True)] *)
Definition escape_char (c : N) : str :=
  if (c =? 38)%N then u "&amp;"
  else if (c =? 60)%N then u "&lt;"
  else if (c =? 62)%N then u "&gt;"
  else if (c =? 34)%N then u "&quot;"
  else if (c =? 39)%N then u "&#x27;"
  else [c].

Definition escape (s : str) : str := s ≫= escape_char.

(** Comparison of strings, code point by code point. *)
Fixpoint str_cmp (a b : str) : comparison :=
  match a, b with
  | [], [] => Eq
  | [], _ :: _ => Lt
  | _ :: _, [] => Gt
  | x :: a', y :: b' =>
      match (x ?= y)%N with
      | Eq => str_cmp a' b'
      | c => c
      end
  end.

Definition str_le (a b : str) : Prop := str_cmp a b ≠ Gt.

(** [sep.join(l)] *)
Fixpoint join (sep : str) (l : list str) : str :=
  match l with
  | [] => []
  | [s] => s
  | s :: l' => s ++ sep ++ join sep l'
  end.

(** *** Dictionaries with string keys, in insertion order *)
Section odict.
Context {V : Type}.

(** [k in d] and [d[k]]: the binding of [k]. *)
Fixpoint od_get (d : list (str * V)) (k : str) : option V :=
  match d with
  | [] => None
  | (k', v) :: d' => if decide (k' = k) then Some v else od_get d' k
  end.

(** [d[k] = v]: a bound key keeps its place, a new one goes last. *)
Fixpoint od_set (d : list (str * V)) (k : str) (v : V) : list (str * V) :=
  match d with
  | [] => [(k, v)]
  | (k', v') :: d' =>
      if decide (k' = k) then (k, v) :: d' else (k', v') :: od_set d' k v
  end.

End odict.

(** [d.setdefault(k, []).extend(xs)] *)
Definition od_extend {A} (d : list (str * list A)) (k : str) (xs : list A)
  : list (str * list A) :=
  od_set d k (default [] (od_get d k) ++ xs).

(** *** Python values

    What the JSON or YAML configuration loader produces (floats left
    out), and the timezone object the scheduler passes for [tz],
    identified by its zone key. *)
Inductive pyval :=
  | VNone
  | VBool (b : bool)
  | VInt (n : Z)
  | VStr (s : str)
  | VList (l : list pyval)
  | VDict (d : list (str * pyval))
  | VTz (key : str).

Abbreviation dict := (list (str * pyval)).

(** [d.get(k, dflt)] *)
Definition get_or (d : dict) (k : str) (dflt : pyval) : pyval :=
  default dflt (od_get d k).

(** [d.get(k)] *)
Definition get (d : dict) (k : str) : pyval := get_or d k VNone.

(** Truth value of a Python object. *)
Definition truthy (v : pyval) : bool :=
  match v with
  | VNone => false
  | VBool b => b
  | VInt n => negb (n =? 0)
  | VStr s => bool_decide (s ≠ [])
  | VList l => bool_decide (l ≠ [])
  | VDict d => bool_decide (d ≠ [])
  | VTz _ => true
  end.

End Py.

Import Py.

(** ** Results of fallible code *)

Inductive result (E A : Type) : Type :=
  | Ok (a : A)
  | Raise (e : E).
Arguments Ok {E A} a.
Arguments Raise {E A} e.

Global Instance result_ret {E} : MRet (result E) := λ A a, Ok a.
Global Instance result_bind {E} : MBind (result E) := λ A B f m,
  match m with
  | Ok a => f a
  | Raise e => Raise e
  end.

(** Sequencing over a list, stopping at the first exception. *)
Fixpoint mapR {E A B} (f : A → result E B) (l : list A) : result E (list B) :=
  match l with
  | [] => Ok []
  | a :: l' => b ← f a; bs ← mapR f l'; Ok (b :: bs)
  end.

(** ** Trigger compiler: [service/scheduler.py] *)

Module Scheduler.

Abbreviation tzinfo := str.

(** The message of a [ValueError] is kept up to its interpolated part.
    [ZoneInfoError z] is what [ZoneInfo(str(z))] raises when it finds no
    zone; [LibraryError] is what a constructor of APScheduler or of
    [datetime] raises on arguments it refuses. *)
Inductive exn :=
  | ValueError (msg : str)
  | TypeError
  | OverflowError
  | ZoneInfoError (z : pyval)
  | LibraryError.

Abbreviation res := (result exn).

(** [set(d.keys()) - allowed], as the list of offending keys. *)
Definition unknown_fields (d : dict) (allowed : list str) : list str :=
  filter (λ k, k ∉ allowed) (d.*1).

(** [int(v)]: [ValueError] on a string that is no integer, [TypeError] on
    an object that has no integer conversion. *)
Definition int_of (v : pyval) : res Z :=
  match v with
  | VInt n => Ok n
  | VBool b => Ok (if b then 1 else 0)
  | VStr s =>
      match int s with
      | Some n => Ok n
      | None => Raise (ValueError (u "invalid literal for int() with base 10"))
      end
  | _ => Raise TypeError
  end.

(** *** Compiled triggers

    A trigger is the constructor call of APScheduler that built it. *)
Record CronTrigger := mkCron {
  second : pyval; minute : pyval; hour : pyval;
  day : pyval; day_of_week : pyval; month : pyval;
  start_date : pyval; end_date : pyval; jitter : pyval;
  timezone : option tzinfo }.

Record IntervalTrigger := mkInterval {
  weeks : Z; days : Z; hours : Z; minutes : Z; seconds : Z;
  iv_jitter : option Z;
  iv_start_date : option pyval; iv_end_date : option pyval;
  iv_timezone : option tzinfo }.

(** A [datetime]: its wall-clock reading and its timezone, if aware. *)
Record datetime := mkDatetime { dt_wall : Z; dt_tzinfo : option tzinfo }.

Record DateTrigger := mkDate {
  run_date : datetime; date_timezone : option tzinfo }.

Inductive Trigger :=
  | TInterval (t : IntervalTrigger)
  | TCron (c : CronTrigger)
  | TCrontab (expr : str) (tz : option tzinfo)
  | TDate (d : DateTrigger)
  | TOr (cs : list CronTrigger).

(** What the code asks of [zoneinfo], [datetime] and APScheduler, none of
    them under [src/]: which arguments their constructors accept, and
    when a cron field expression or a [day_of_week] expression matches. *)
Class Library := {
  zone_known : str → bool;
  cron_accepts : CronTrigger → bool;
  crontab_accepts : str → bool;
  interval_accepts : IntervalTrigger → bool;
  fromtimestamp : Z → option tzinfo → option datetime;
  fromisoformat : str → option datetime;
  expr_matches : str → Z → bool;
  dow_matches : pyval → option tzinfo → Z → bool }.

(** A time of day, [(hour, minute, second)], ordered as Python orders
    tuples. *)
Abbreviation hms := (Z * Z * Z)%type.

Definition hms_cmp (a b : hms) : comparison :=
  match a.1.1 ?= b.1.1 with
  | Eq => match a.1.2 ?= b.1.2 with
          | Eq => a.2 ?= b.2
          | c => c
          end
  | c => c
  end.

Definition hms_le (a b : hms) : Prop := hms_cmp a b ≠ Gt.
Definition hms_lt (a b : hms) : Prop := hms_cmp a b = Lt.

Global Instance hms_le_dec a b : Decision (hms_le a b).
Proof. unfold hms_le. apply _. Defined.

(** [sorted(set(xs))] *)
Definition sorted_set (xs : list hms) : list hms :=
  merge_sort hms_le (remove_dups xs).

(** A Python integer that fits a C [int]. *)
Definition c_int (n : Z) : bool := bool_decide (- 2 ^ 31 ≤ n < 2 ^ 31).

(** [time(hh, mm, ss)], called for its range check: the three arguments
    are converted to C integers first, then checked in turn. *)
Definition time_check (hh mm ss : Z) : res unit :=
  if negb (c_int hh && c_int mm && c_int ss) then Raise OverflowError
  else if bool_decide (0 ≤ hh ≤ 23) then
    if bool_decide (0 ≤ mm ≤ 59) then
      if bool_decide (0 ≤ ss ≤ 59) then Ok ()
      else Raise (ValueError (u "second must be in 0..59"))
    else Raise (ValueError (u "minute must be in 0..59"))
  else Raise (ValueError (u "hour must be in 0..23")).

Definition _parse_time (s : str) : res hms :=
  let parts := split 58 s in
  if bool_decide (length parts = 2%nat ∨ length parts = 3%nat) then
    let ints :=
      hh ← parts !! 0%nat ≫= int;
      mm ← parts !! 1%nat ≫= int;
      ss ← (if decide (length parts = 3%nat)
            then parts !! 2%nat ≫= int else Some 0);
      Some (hh, mm, ss) in
    match ints with
    | Some (hh, mm, ss) => _ ← time_check hh mm ss; Ok (hh, mm, ss)
    | None => Raise (ValueError (u "daily_time.time must contain integers"))
    end
  else Raise (ValueError (u "daily_time.time must be 'HH:MM' or 'HH:MM:SS'")).

(** The number of colons in [repr(v)]: those of the strings in [v], and
    one for each item of a dict. *)
Fixpoint repr_colons (v : pyval) : nat :=
  match v with
  | VStr s | VTz s => length (filter (λ c, c = 58%N) s)
  | VList l => foldr (λ x n, repr_colons x + n)%nat 0%nat l
  | VDict d =>
      foldr (λ kv n,
               S (length (filter (λ c, c = 58%N) kv.1) + repr_colons kv.2) + n)%nat
            0%nat d
  | _ => 0%nat
  end.

(** [_parse_time(str(t))] for an element of [times].  The [str] of a
    timezone object is its key.  The [str] of a list or dict is split at
    its colons like any text, and its first part, which opens with a
    bracket, is no integer. *)
Definition parse_entry (t : pyval) : res hms :=
  match t with
  | VStr s => _parse_time s
  | VInt n => _parse_time (str_of_Z n)
  | VBool b => _parse_time (if b then u "True" else u "False")
  | VNone => _parse_time (u "None")
  | VTz key => _parse_time key
  | VList _ | VDict _ =>
      if bool_decide (repr_colons t = 1%nat ∨ repr_colons t = 2%nat)
      then Raise (ValueError (u "daily_time.time must contain integers"))
      else Raise (ValueError (u "daily_time.time must be 'HH:MM' or 'HH:MM:SS'"))
  end.

(** The elements the set comprehension iterates over: a string is
    wrapped, a list gives its elements, a dict its keys. *)
Definition time_entries (times : pyval) : res (list pyval) :=
  match times with
  | VNone => Raise (ValueError (u "daily_time requires 'time'"))
  | VStr s => Ok [VStr s]
  | VList l => Ok l
  | VDict d => Ok (VStr <$> d.*1)
  | _ => Raise (ValueError (u "daily_time.time must be a string or list of strings"))
  end.

Definition trigger_kinds : list str :=
  [u "interval"; u "cron"; u "date"; u "daily_time"].

(** [k in trig_def and trig_def[k] is not None] *)
Definition is_present (d : dict) (k : str) : bool :=
  match od_get d k with
  | Some VNone | None => false
  | Some _ => true
  end.

Definition present (d : dict) : list str :=
  filter (λ k, is_present d k) trigger_kinds.

Definition interval_allowed : list str :=
  [u "weeks"; u "days"; u "hours"; u "minutes"; u "seconds"; u "jitter";
   u "timezone"; u "start_date"; u "end_date"].

Definition cron_allowed : list str :=
  [u "second"; u "minute"; u "hour"; u "day"; u "day_of_week"; u "month";
   u "timezone"; u "start_date"; u "end_date"; u "jitter"].

Definition daily_time_allowed : list str :=
  [u "time"; u "day_of_week"; u "timezone"].

Section build.
Context `{!Library}.

Definition ZoneInfo (key : str) : res (option tzinfo) :=
  if zone_known key then Ok (Some key) else Raise (ZoneInfoError (VStr key)).

(** For a non-empty list or dict the key is its [str], a text in
    brackets, which names no zone. *)
Definition _tz (z : pyval) : res (option tzinfo) :=
  if negb (truthy z) then Ok None
  else match z with
       | VStr s => ZoneInfo s
       | VTz key => Ok (Some key)
       | VBool _ => ZoneInfo (u "True")
       | VInt n => ZoneInfo (str_of_Z n)
       | _ => Raise (ZoneInfoError z)
       end.

(** [_tz(v) or default_tz] *)
Definition tz_or (v : pyval) (default_tz : option tzinfo) : res (option tzinfo) :=
  z ← _tz v;
  Ok (match z with Some t => Some t | None => default_tz end).

Definition new_CronTrigger (c : CronTrigger) : res CronTrigger :=
  if cron_accepts c then Ok c else Raise LibraryError.

Definition _as_int_ge0 (spec : dict) (name : str) : res Z :=
  match od_get spec name with
  | None => Ok 0
  | Some v =>
      match int_of v with
      | Ok n => if n <? 0 then Raise (ValueError (u "interval field must be >= 0"))
                else Ok n
      | Raise (ValueError _) => Raise (ValueError (u "interval field must be an integer"))
      | Raise e => Raise e
      end
  end.

Definition build_interval (spec : pyval) (default_tz : option tzinfo) : res Trigger :=
  match spec with
  | VDict spec =>
      if decide (unknown_fields spec interval_allowed ≠ [])
      then Raise (ValueError (u "interval has unknown field(s)"))
      else
        w ← _as_int_ge0 spec (u "weeks");
        d ← _as_int_ge0 spec (u "days");
        h ← _as_int_ge0 spec (u "hours");
        m ← _as_int_ge0 spec (u "minutes");
        s ← _as_int_ge0 spec (u "seconds");
        if w + d + h + m + s =? 0
        then Raise (ValueError (u "interval must be greater than 0 (provide at least one nonzero time field)"))
        else
          j ← match od_get spec (u "jitter") with
               | Some _ => j ← _as_int_ge0 spec (u "jitter");
                           Ok (if j =? 0 then None else Some j)
               | None => Ok None
               end;
          tz ← tz_or (get spec (u "timezone")) default_tz;
          let t := mkInterval w d h m s j (od_get spec (u "start_date"))
                     (od_get spec (u "end_date")) tz in
          if interval_accepts t then Ok (TInterval t) else Raise LibraryError
  | _ => Raise (ValueError (u "interval must be an object with time fields"))
  end.

Definition build_cron (cron_spec : pyval) (default_tz : option tzinfo) : res Trigger :=
  match cron_spec with
  | VStr s =>
      let n := length (split_ws (strip s)) in
      if bool_decide (n = 5%nat ∨ n = 6%nat) then
        if crontab_accepts s then Ok (TCrontab s default_tz)
        else Raise LibraryError
      else Raise (ValueError (u "cron string must have 5 or 6 fields"))
  | VDict d =>
      if decide (unknown_fields d cron_allowed ≠ [])
      then Raise (ValueError (u "cron has unknown field(s)"))
      else
        tz ← tz_or (get d (u "timezone")) default_tz;
        c ← new_CronTrigger
               (mkCron (get_or d (u "second") (VInt 0))
                       (get_or d (u "minute") (VInt 0))
                       (get_or d (u "hour") (VInt 0))
                       (get d (u "day")) (get d (u "day_of_week"))
                       (get d (u "month")) (get d (u "start_date"))
                       (get d (u "end_date")) (get d (u "jitter")) tz);
        Ok (TCron c)
  | _ => Raise (ValueError (u "cron must be a crontab string or an object"))
  end.

Definition build_date (dspec : pyval) (default_tz : option tzinfo) : res Trigger :=
  '(run_at, tzinfo) ←
    match dspec with
    | VDict d => tz ← tz_or (get d (u "timezone")) default_tz;
                 Ok (get d (u "run_at"), tz)
    | _ => Ok (dspec, default_tz)
    end;
  dt ← match run_at with
       | VNone => Raise (ValueError (u "date trigger requires 'run_at' (or non-empty scalar value)"))
       | VInt n =>
           match fromtimestamp n tzinfo with
           | Some dt => Ok dt
           | None => Raise LibraryError
           end
       | VBool b =>
           match fromtimestamp (if b then 1 else 0) tzinfo with
           | Some dt => Ok dt
           | None => Raise LibraryError
           end
       | VStr s =>
           match fromisoformat s with
           | Some dt =>
               Ok (match dt_tzinfo dt with
                   | Some _ => dt
                   | None => mkDatetime (dt_wall dt) tzinfo
                   end)
           | None => Raise (ValueError (u "Invalid date.run_at"))
           end
       | _ => Raise (ValueError (u "Invalid date.run_at"))
       end;
  Ok (TDate (mkDate dt (match dt_tzinfo dt with
                        | Some t => Some t
                        | None => tzinfo
                        end))).

(** [CronTrigger(second=s, minute=m, hour=h, day_of_week=..., timezone=...)] *)
Definition daily_rule (dow : pyval) (tz : option tzinfo) (t : hms) : CronTrigger :=
  mkCron (VInt t.2) (VInt t.1.2) (VInt t.1.1) VNone dow VNone VNone VNone
         VNone tz.

Definition build_daily_time (dtdef : pyval) (default_tz : option tzinfo) : res Trigger :=
  match dtdef with
  | VDict dtdef =>
      if decide (unknown_fields dtdef daily_time_allowed ≠ [])
      then Raise (ValueError (u "daily_time has unknown field(s)"))
      else
        tzinfo ← tz_or (get dtdef (u "timezone")) default_tz;
        times ← time_entries (get dtdef (u "time"));
        parsed ← mapR parse_entry times;
        let sorted_times := sorted_set parsed in
        per_time_triggers ←
          mapR (λ t, new_CronTrigger
                       (daily_rule (get dtdef (u "day_of_week")) tzinfo t))
               sorted_times;
        Ok (match per_time_triggers with
            | [c] => TCron c
            | _ => TOr per_time_triggers
            end)
  | _ => Raise (ValueError (u "daily_time must be an object"))
  end.

Definition _build_trigger (trig_def : pyval) (tz : pyval) : res Trigger :=
  match trig_def with
  | VDict trig_def =>
      default_tz ← _tz tz;
      match present trig_def with
      | [kind] =>
          let spec := get trig_def kind in
          if decide (kind = u "interval") then build_interval spec default_tz
          else if decide (kind = u "cron") then build_cron spec default_tz
          else if decide (kind = u "date") then build_date spec default_tz
          else if decide (kind = u "daily_time") then build_daily_time spec default_tz
          else Raise (ValueError (u "unsupported trigger kind"))
      | _ => Raise (ValueError (u "exactly one of {'interval','cron','date','daily_time'} must be provided"))
      end
  | _ => Raise (ValueError (u "trigger spec must be a dict"))
  end.

(** *** When a compiled trigger fires

    The recurrence rules are APScheduler's [CronTrigger] and [OrTrigger],
    which are not under [src/]; when they fire is taken from the spec.  A
    day is a calendar day in the rule's timezone and an instant a
    wall-clock time of that day; days on which the zone's offset changes,
    where a wall-clock time can be skipped or repeated, are not set
    apart. *)

(** Modelled from the spec: the matching of one field of a cron-style
    rule (APScheduler's field expressions are missing). An integer field
    matches that value, a field expression what the library says. *)
Definition field_matches (f : pyval) (v : Z) : bool :=
  match f with
  | VInt n => bool_decide (v = n)
  | VStr e => expr_matches e v
  | _ => false
  end.

(** Modelled from the spec: when a cron-style rule fires ([CronTrigger]
    is missing): on an applicable day, one its [day_of_week] admits, at
    the wall-clock instants whose hour, minute and second each match the
    rule's field. *)
Definition cron_fires (c : CronTrigger) (d : Z) (t : hms) : bool :=
  dow_matches (day_of_week c) (timezone c) d
  && field_matches (hour c) t.1.1
  && field_matches (minute c) t.1.2
  && field_matches (second c) t.2.

(** Modelled from the spec: when a compiled trigger fires ([OrTrigger]
    is missing): a single rule as above, an OR-combination whenever any
    constituent rule fires. *)
Inductive fires : Trigger → Z → hms → Prop :=
  | fires_cron c d t :
      cron_fires c d t = true → fires (TCron c) d t
  | fires_or cs c d t :
      c ∈ cs → cron_fires c d t = true → fires (TOr cs) d t.

End build.

(** *** Notions further properties of the compiler are stated with *)

(** The timezone each rule of a compiled trigger was given. *)
Definition trigger_timezones (trig : Trigger) : list (option tzinfo) :=
  match trig with
  | TInterval t => [iv_timezone t]
  | TCron c => [timezone c]
  | TCrontab _ tz => [tz]
  | TDate d => [date_timezone d]
  | TOr cs => timezone <$> cs
  end.

(** A number below 100 written with two digits, as in HH, MM and SS. *)
Definition two_digits (n : Z) : str :=
  [Z.to_N (48 + n / 10); Z.to_N (48 + n `mod` 10)].

(** [HH:MM] and [HH:MM:SS] *)
Definition hhmm (h m : Z) : str := two_digits h ++ [58%N] ++ two_digits m.
Definition hhmmss (h m s : Z) : str := hhmm h m ++ [58%N] ++ two_digits s.

(** A time of day as an entry of [daily_time.time] writes it, in one of
    the two formats; the text of the entry, and the instant it lists. *)
Inductive clock :=
  | HM (h m : Z)
  | HMS (h m s : Z).

Definition clock_str (c : clock) : str :=
  match c with
  | HM h m => hhmm h m
  | HMS h m s => hhmmss h m s
  end.

Definition clock_hms (c : clock) : hms :=
  match c with
  | HM h m => (h, m, 0)
  | HMS h m s => (h, m, s)
  end.

Definition clock_valid (c : clock) : Prop :=
  match c with
  | HM h m => 0 ≤ h ≤ 23 ∧ 0 ≤ m ≤ 59
  | HMS h m s => 0 ≤ h ≤ 23 ∧ 0 ≤ m ≤ 59 ∧ 0 ≤ s ≤ 59
  end.

(** A library instance to run the definitions on: the zones [UTC] and
    [America/Indiana/Indianapolis], rules without [day_of_week] or with
    [mon-sat] (day 0 a Monday), no cron field expressions. *)
Definition sample_dow (e : pyval) (d : Z) : bool :=
  match e with
  | VNone => true
  | VStr s => bool_decide (s = u "mon-sat") && (d `mod` 7 <? 6)
  | _ => false
  end.

Definition sample_library : Library := {|
  zone_known k :=
    bool_decide (k = u "UTC" ∨ k = u "America/Indiana/Indianapolis");
  cron_accepts c :=
    match day_of_week c with
    | VNone => true
    | VStr s => bool_decide (s = u "mon-sat")
    | _ => false
    end;
  crontab_accepts s := bool_decide (length (split_ws s) = 5%nat);
  interval_accepts _ := true;
  fromtimestamp n tz := Some (mkDatetime n tz);
  fromisoformat _ := None;
  expr_matches _ _ := false;
  dow_matches e _ d := sample_dow e d |}.

End Scheduler.

(** ** Dedup store: [modules/career_watch/lib/db.py] *)

Module Db.

(** [models.Posting] *)
Record Posting := mkPosting {
  source : str; person_env : str; title : str; url : str }.

Global Instance Posting_eq_dec : EqDecision Posting.
Proof. solve_decision. Defined.

(** What the [sqlite3] module raises here: a statement on a table that
    does not exist, a parameter that has no UTF-8 encoding. *)
Inductive exn :=
  | OperationalError (msg : str)
  | UnicodeEncodeError.

Global Instance exn_eq_dec : EqDecision exn.
Proof. solve_decision. Defined.

(** A row of the table [postings], by the columns the code writes.  The
    rowid [id], which sqlite assigns and the code neither reads nor
    writes, is left out. *)
Record Row := mkRow {
  r_source : str; r_person : str; r_title : str; r_url : str;
  first_seen_utc : str }.

Global Instance Row_eq_dec : EqDecision Row.
Proof. solve_decision. Defined.

(** The columns of the unique index [ux_postings_dedupe]. *)
Abbreviation key := (str * str * str * str)%type.

Definition row_key (r : Row) : key :=
  (r_source r, r_person r, r_title r, r_url r).

Abbreviation table := (list Row).

(** The sqlite files, by path; a file that exists holds the table.  The
    file system is taken to let sqlite create, open and write them. *)
Abbreviation files := (gmap str table).

(** A path that names no file: for [":memory:"] and for the empty path
    [sqlite3.connect] opens a private database, empty at every call and
    gone when the connection is closed. *)
Definition transient (sqlite_path : str) : bool :=
  bool_decide (sqlite_path = u ":memory:" ∨ sqlite_path = []).

(** [init_db]: [CREATE TABLE IF NOT EXISTS], [CREATE UNIQUE INDEX IF NOT
    EXISTS]; on a transient path what it creates is lost at once. *)
Definition init_db (fs : files) (sqlite_path : str) : files :=
  if transient sqlite_path then fs
  else match fs !! sqlite_path with
       | Some _ => fs
       | None => <[sqlite_path := []]> fs
       end.

Definition new_row (k : key) (ts : str) : Row :=
  mkRow k.1.1.1 k.1.1.2 k.1.2 k.2 ts.

(** [INSERT OR IGNORE INTO postings ...]: the table after the statement
    and [cur.rowcount]. *)
Definition insert_or_ignore (t : table) (k : key) (ts : str) : table * Z :=
  if decide (k ∈ row_key <$> t) then (t, 0) else (t ++ [new_row k ts], 1).

(** One turn of the loop of [filter_new], once its statement runs. *)
Definition filter_step (person_env ts : str)
    (st : table * list Posting) (p : Posting) : table * list Posting :=
  let '(t, new_items) := st in
  let source := strip (source p) in
  let title := strip (title p) in
  let url := strip (url p) in
  let person_norm := strip person_env in
  let '(t', rowcount) :=
    insert_or_ignore t (source, person_norm, title, url) ts in
  if rowcount =? 1 then
    if decide (Db.person_env p ≠ person_norm)
    then (t', new_items ++ [mkPosting source person_norm title url])
    else (t', new_items ++ [p])
  else (t', new_items).

(** A string [sqlite3] can bind to a statement: one that encodes to
    UTF-8, that is, holds no surrogate code point. *)
Definition bindable (s : str) : bool :=
  forallb (λ c, negb ((55296 <=? c) && (c <=? 57343))%N) s.

(** The five parameters [cur.execute] binds for a posting. *)
Definition parameters (person_env ts : str) (p : Posting) : list str :=
  [strip (source p); strip person_env; strip (title p); strip (url p); ts].

Definition binds (person_env ts : str) (p : Posting) : bool :=
  forallb bindable (parameters person_env ts p).

(** The loop of [filter_new] on a connection that has the table:
    [cur.execute] raises when a parameter cannot be bound, before the
    statement runs, and the loop is left. *)
Fixpoint run_loop (person_env ts : str) (st : table * list Posting)
    (postings : list Posting) : result exn (table * list Posting) :=
  match postings with
  | [] => Ok st
  | p :: rest =>
      if binds person_env ts p
      then run_loop person_env ts (filter_step person_env ts st p) rest
      else Raise UnicodeEncodeError
  end.

(** What a call of [filter_new] leaves: the list it returns or the
    exception it raises, the files, and the records it hands to
    [log_error], each with the path and the exception. *)
Record reply := mkReply {
  fn_result : result exn (list Posting);
  fn_files : files;
  fn_logged : list (str * exn) }.

(** [filter_new(sqlite_path, person_env, postings)], with [ts] the value
    of [now_iso()].  The inserts are one transaction: it is committed when
    the loop ends, and rolled back when a statement raises; the exception
    is then logged and raised again.  On a transient path the connection
    has no table, so the first insert raises. *)
Definition filter_new (fs : files) (sqlite_path person_env ts : str)
    (postings : list Posting) : reply :=
  let fs1 := init_db fs sqlite_path in
  let transaction :=
    if transient sqlite_path then
      match postings with
      | [] => Ok ([], [])
      | _ :: _ => Raise (OperationalError (u "no such table: postings"))
      end
    else run_loop person_env ts (default [] (fs1 !! sqlite_path), []) postings in
  match transaction with
  | Ok (t', new_items) =>
      mkReply (Ok new_items)
        (if transient sqlite_path then fs1 else <[sqlite_path := t']> fs1) []
  | Raise e => mkReply (Raise e) fs1 [(sqlite_path, e)]
  end.

(** [count_rows]: 0 when [os.path.exists] says there is no file, else the
    count of the table the connection sees. *)
Definition count_rows (fs : files) (sqlite_path : str) : Z :=
  if transient sqlite_path then 0
  else match fs !! sqlite_path with
       | Some t => Z.of_nat (length t)
       | None => 0
       end.


(** *** Notions the properties of the store are stated with *)

(** The table a call finds at [sqlite_path] once [init_db] has run. *)
Definition table_at (fs : files) (sqlite_path : str) : table :=
  default [] (fs !! sqlite_path).

Definition keys (t : table) : list key := row_key <$> t.

(** The dedup key [filter_new] computes for a posting. *)
Definition key_of (person_env : str) (p : Posting) : key :=
  (strip (source p), strip person_env, strip (title p), strip (url p)).

(** The key of a posting as the data model of the spec describes it: its
    own four fields, trimmed. *)
Definition natural_key (p : Posting) : key :=
  (strip (source p), strip (Db.person_env p), strip (title p), strip (url p)).

(** What [filter_new] appends to [new_items] for a posting that is new. *)
Definition appended (person_env : str) (p : Posting) : Posting :=
  if decide (Db.person_env p ≠ strip person_env)
  then mkPosting (strip (source p)) (strip person_env) (strip (title p))
                 (strip (url p))
  else p.

(** The postings of a list whose key is neither among [seen] nor the key
    of an earlier posting of the list, each as it is appended. *)
Fixpoint fresh (person_env : str) (seen : list key) (ps : list Posting)
  : list Posting :=
  match ps with
  | [] => []
  | p :: ps' =>
      if decide (key_of person_env p ∈ seen) then fresh person_env seen ps'
      else appended person_env p
           :: fresh person_env (seen ++ [key_of person_env p]) ps'
  end.

(** A call whose every statement binds. *)
Definition storable (person_env ts : str) (ps : list Posting) : Prop :=
  Forall (λ p, binds person_env ts p = true) ps.

End Db.

(** ** Scrape engine: [modules/career_watch/lib/engine.py] *)

Module Engine.
Import Db.

(** [config.ScraperConfig] *)
Record ScraperConfig := mkScraperConfig {
  kind : str; sc_source : str; params : pyval }.

(** [models.ScrapeResult] *)
Record ScrapeResult := mkScrapeResult {
  sr_source : str; items : list Posting; errors : list str }.

(** [config.Settings] *)
Record Settings := mkSettings {
  person_env : str;
  groups_path : option str;
  _selected : list ScraperConfig;
  sqlite_path : str;
  max_threads : Z;
  skip_network : bool;
  email_all_even_if_seen : bool;
  ingest_only_no_email : bool }.

(** An exception raised in the task of a kind: whether it is an instance
    of [Exception], which is what [except Exception] catches ([SystemExit]
    and [KeyboardInterrupt] are not), and its [repr]. *)
Record exc := mkExc { is_exception : bool; repr : str }.

(** What [run_once] can raise: the errors of the configuration and of
    the pool, an exception of a task that the loop over the futures does
    not catch, and what [db.filter_new] raises. *)
Inductive exn :=
  | ConfigError (msg : str)
  | ValueError (msg : str)
  | TaskError (e : exc)
  | StoreError (e : Db.exn).

(** A scraper instance is its [run] method; a scraper class is what
    calling it gives. *)
Abbreviation scraper :=
  (str → list ScraperConfig → bool → result exc (list ScrapeResult)).
Abbreviation scraper_cls := (result exc scraper).

(** What the run takes from outside: the groups file, the scraper
    registry, the order in which the pool's futures complete, the clock. *)
Record Env := mkEnv {
  read_groups : Settings → result exn (list ScraperConfig);
  registry_get : str → result exc scraper_cls;
  as_completed :
    list (str * list ScraperConfig) → list (str * list ScraperConfig);
  as_completed_perm : ∀ l, as_completed l ≡ₚ l;
  dt_us : str → Z;
  total_us : Z;
  now_iso : str }.

(** The calls made on scrapers and the records handed to
    [logging_bridge]. *)
Inductive event :=
  | Resolve (kind : str)
  | Instantiate (kind : str)
  | Run (kind : str) (person : str) (specs : list ScraperConfig) (skip : bool)
  | LogSkippedKind (person kind : str) (spec_count : Z) (sources : list str)
  | LogScraperError (kind : str) (error : str)
  | LogDbError (sqlite_path : str) (error : Db.exn)
  | LogSummary (person : str) (skip : bool)
      (planned found new durations : list (str * Z)) (total : Z)
  | LogIngestOnly (person : str) (new_total : Z) (sources : list str)
  | LogNoNew (person : str)
  | LogRendered (person : str) (counts : list (str * Z)) (new_total : Z)
      (email_all : bool).

(** The dict [run_once] returns next to the html. *)
Record Meta := mkMeta {
  message : str;
  person : str;
  new_total : Z;
  by_source : list (str * Z);
  subject : str;
  durations_us : list (str * Z);
  meta_email_all_even_if_seen : bool;
  meta_ingest_only_no_email : bool }.

(** *** [render.py] *)

Definition row_html (p : Posting) : str :=
  let title := if decide (title p = []) then u "(no title)" else title p in
  let link_html :=
    u "<a href=" ++ [34%N] ++ escape (url p) ++ [34%N] ++ u ">"
    ++ escape (url p) ++ u "</a>" in
  u "<tr><td>" ++ escape title ++ u "</td><td>" ++ link_html ++ u "</td></tr>".

Definition section_html (kv : str * list Posting) : str :=
  let table_html :=
    u "<table border='1' cellspacing='0' cellpadding='6'>"
    ++ u "<tr><th>Title</th><th>Link</th></tr>"
    ++ join [] (row_html <$> kv.2) ++ u "</table>" in
  u "<h3>" ++ escape kv.1 ++ u "</h3>" ++ [10%N] ++ table_html.

Definition by_key_le {A} (x y : str * A) : Prop := str_le x.1 y.1.

Global Instance by_key_le_dec {A} (x y : str * A) : Decision (by_key_le x y).
Proof. unfold by_key_le, str_le. apply _. Defined.

Definition build_tables (by_source : list (str * list Posting)) : str :=
  join [10%N] (section_html <$> merge_sort by_key_le by_source).

Definition wrap_document (content_html heading intro : str) : str :=
  join [10%N]
    ([u "<div>"]
     ++ (if decide (heading = []) then []
         else [u "<h2>" ++ escape heading ++ u "</h2>"])
     ++ (if decide (intro = []) then []
         else [u "<p>" ++ escape intro ++ u "</p>"])
     ++ [content_html; u "</div>"]).

(** *** [config.Settings.group_by_kind] *)

(** [_selected_scrapers]: the cached list if there is one, else what the
    groups file gives ([read_groups]: the path derived, the file opened
    and parsed), which must not be empty. *)
Definition _selected_scrapers (env : Env) (s : Settings)
  : result exn (list ScraperConfig) :=
  if decide (_selected s ≠ []) then Ok (_selected s)
  else
    selected ← read_groups env s;
    if decide (selected = []) then Raise (ConfigError (u "No scrapers found"))
    else Ok selected.

Definition group_by_kind (env : Env) (s : Settings)
  : result exn (list (str * list ScraperConfig)) :=
  selected ← _selected_scrapers env s;
  Ok (foldl (λ by_kind sc, od_extend by_kind (kind sc) [sc]) [] selected).

(** *** [engine.run_once] *)

Definition counts {A} (d : list (str * list A)) : list (str * Z) :=
  (λ kv, (kv.1, Z.of_nat (length kv.2))) <$> d.

Definition sum_values (d : list (str * Z)) : Z := foldr Z.add 0 (d.*2).

Definition nonempty_sources {A} (d : list (str * list A)) : list str :=
  (filter (λ kv, kv.2 ≠ []) d).*1.

(** The em dash of headings and subjects. *)
Definition dash : str := [8212%N].

Definition _summary_message (by_source : list (str * list Posting))
    (person_env label : str) : str :=
  let total := sum_values (counts by_source) in
  let num_sources := Z.of_nat (length (nonempty_sources by_source)) in
  str_of_Z total ++ u " " ++ label ++ u " across " ++ str_of_Z num_sources
  ++ u " sources for " ++ person_env.

(** The task of one kind: the calls and records it makes, and what its
    future holds. *)
Definition _run_kind (env : Env) (s : Settings)
    (get_scraper_func : str → result exc scraper_cls)
    (kind : str) (specs : list ScraperConfig)
  : list event * result exc (str * list ScrapeResult * Z * bool) :=
  if skip_network s then
    ([LogSkippedKind (person_env s) kind (Z.of_nat (length specs))
        (sc_source <$> specs)],
     Ok (kind, [], 0, true))
  else
    match get_scraper_func kind with
    | Raise e => ([Resolve kind], Raise e)
    | Ok scraper_cls =>
        match scraper_cls with
        | Raise e => ([Resolve kind; Instantiate kind], Raise e)
        | Ok scraper =>
            let evs := [Resolve kind; Instantiate kind;
                        Run kind (person_env s) specs (skip_network s)] in
            match scraper (person_env s) specs (skip_network s) with
            | Raise e => (evs, Raise e)
            | Ok results => (evs, Ok (kind, results, dt_us env kind, false))
            end
        end
    end.

(** State of the loop over the completed futures. *)
Record fan := mkFan {
  all_results : list ScrapeResult;
  durations : list (str * Z);
  trace : list event }.

(** One turn of that loop: [fut.result()] gives what the task returned
    or raises what it raised; [except Exception] catches the instances
    of [Exception] only. *)
Definition collect (env : Env) (s : Settings)
    (get_scraper_func : str → result exc scraper_cls)
    (st : fan) (fut : str * list ScraperConfig) : result exc fan :=
  let '(evs, outcome) := _run_kind env s get_scraper_func fut.1 fut.2 in
  match outcome with
  | Ok (k, results, dt, _skipped) =>
      Ok (mkFan (all_results st ++ results) (od_set (durations st) k dt)
                (trace st ++ evs))
  | Raise e =>
      if is_exception e then
        Ok (mkFan (all_results st)
              (od_set (durations st) fut.1
                 (default 0 (od_get (durations st) fut.1)))
              (trace st ++ evs ++ [LogScraperError fut.1 (repr e)]))
      else Raise e
  end.

(** The loop.  An exception that is not caught leaves the loop and the
    [with] block of the pool, which waits for the tasks still pending:
    they run, and nothing collects what they give.  The exception comes
    with the calls and records made by then. *)
Fixpoint collect_all (env : Env) (s : Settings)
    (get_scraper_func : str → result exc scraper_cls)
    (st : fan) (futs : list (str * list ScraperConfig))
  : result (exc * list event) fan :=
  match futs with
  | [] => Ok st
  | fut :: rest =>
      match collect env s get_scraper_func st fut with
      | Ok st' => collect_all env s get_scraper_func st' rest
      | Raise e =>
          Raise (e, trace st
                    ++ ((fut :: rest)
                          ≫= λ f, (_run_kind env s get_scraper_func f.1 f.2).1))
      end
  end.

Definition fan_out (env : Env) (s : Settings)
    (get_scraper_func : str → result exc scraper_cls)
    (by_kind : list (str * list ScraperConfig))
  : result (exc * list event) fan :=
  collect_all env s get_scraper_func (mkFan [] [] []) (as_completed env by_kind).

(** The merge before dedup: [all_postings] and [pre_by_source]. *)
Definition all_postings_of (rs : list ScrapeResult) : list Posting :=
  rs ≫= items.

Definition pre_by_source_of (rs : list ScrapeResult)
  : list (str * list Posting) :=
  foldl (λ d r, od_extend d (sr_source r) (items r)) [] rs.

Definition new_by_source_of (new_postings : list Posting)
  : list (str * list Posting) :=
  foldl (λ d p, od_extend d (source p) [p]) [] new_postings.

Definition subject_of (new_by_source : list (str * list Posting))
    (new_total : Z) : str :=
  let sources_with_jobs := nonempty_sources new_by_source in
  match sources_with_jobs with
  | [src] =>
      u "Career Watch " ++ dash ++ u " " ++ str_of_Z new_total
      ++ u " new at " ++ src
  | _ =>
      u "Career Watch " ++ dash ++ u " " ++ str_of_Z new_total
      ++ u " new jobs (" ++ str_of_Z (Z.of_nat (length sources_with_jobs))
      ++ u " companies)"
  end.

(** What a call of [run_once] leaves: its result, the sqlite files, and
    the calls and log records in the order made. *)
Record outcome := mkOutcome {
  returned : result exn (option (str * Meta));
  files_after : files;
  events : list event }.

Definition run_once (env : Env) (s : Settings)
    (get_scraper : option (str → result exc scraper_cls)) (fs : files)
  : outcome :=
  let get_scraper_func := default (registry_get env) get_scraper in
  match group_by_kind env s with
  | Raise e => mkOutcome (Raise e) fs []
  | Ok by_kind =>
      let planned_specs_by_kind := counts by_kind in
      let n := Z.of_nat (length by_kind) in
      let max_workers := Z.min (if n =? 0 then 1 else n) (max_threads s) in
      if max_workers <=? 0
      then mkOutcome (Raise (ValueError (u "max_workers must be greater than 0")))
                     fs []
      else
        match fan_out env s get_scraper_func by_kind with
        | Raise (e, evs) => mkOutcome (Raise (TaskError e)) fs evs
        | Ok f =>
        let all_postings := all_postings_of (all_results f) in
        let pre_by_source := pre_by_source_of (all_results f) in
        let r :=
          filter_new fs (sqlite_path s) (person_env s) (now_iso env)
                     all_postings in
        let fs' := fn_files r in
        let db_log := (λ pe, LogDbError pe.1 pe.2) <$> fn_logged r in
        match fn_result r with
        | Raise e => mkOutcome (Raise (StoreError e)) fs' (trace f ++ db_log)
        | Ok new_postings =>
        let new_by_source := new_by_source_of new_postings in
        let found_by_source_counts := counts pre_by_source in
        let new_by_source_counts := counts new_by_source in
        let summary :=
          LogSummary (person_env s) (skip_network s) planned_specs_by_kind
            found_by_source_counts new_by_source_counts (durations f)
            (total_us env) in
        if ingest_only_no_email s then
          mkOutcome (Ok None) fs'
            (trace f ++ db_log ++ [summary;
               LogIngestOnly (person_env s) (sum_values new_by_source_counts)
                 (merge_sort str_le (new_by_source_counts.*1))])
        else
          let render to_render msg :=
            let new_total := sum_values new_by_source_counts in
            let subject := subject_of new_by_source new_total in
            let tables_html := build_tables to_render in
            let heading := u "Career Watch " ++ dash ++ u " " ++ person_env s in
            let html := wrap_document tables_html heading msg in
            let by_source_counts := counts to_render in
            let meta_dict :=
              mkMeta msg (person_env s) new_total by_source_counts subject
                (od_set (durations f) (u "_total_us") (total_us env))
                (email_all_even_if_seen s) (ingest_only_no_email s) in
            mkOutcome (Ok (Some (html, meta_dict))) fs'
              (trace f ++ db_log ++ [summary;
                 LogRendered (person_env s) by_source_counts new_total
                   (email_all_even_if_seen s)]) in
          if email_all_even_if_seen s then
            render pre_by_source
              (_summary_message pre_by_source (person_env s) (u "all postings"))
          else if decide (new_by_source = []) then
            mkOutcome (Ok None) fs'
              (trace f ++ db_log ++ [summary; LogNoNew (person_env s)])
          else
            render new_by_source
              (_summary_message new_by_source (person_env s) (u "new postings"))
        end
        end
  end.

(** *** Notions the properties of the engine are stated with *)

(** What [pre_by_source] holds under a source: the items of every result
    of that source, in order. *)
Definition items_of (k : str) (rs : list ScrapeResult) : list Posting :=
  rs ≫= λ r, if decide (sr_source r = k) then items r else [].

(** What the task of one kind contributes to [all_results], and the
    calls and records it leaves, the error record of the main loop
    included. *)
Definition task_results (env : Env) (s : Settings)
    (g : str → result exc scraper_cls) (fut : str * list ScraperConfig)
  : list ScrapeResult :=
  match (_run_kind env s g fut.1 fut.2).2 with
  | Ok (_, results, _, _) => results
  | Raise _ => []
  end.

Definition task_events (env : Env) (s : Settings)
    (g : str → result exc scraper_cls) (fut : str * list ScraperConfig)
  : list event :=
  (_run_kind env s g fut.1 fut.2).1
  ++ match (_run_kind env s g fut.1 fut.2).2 with
     | Ok _ => []
     | Raise e => [LogScraperError fut.1 (repr e)]
     end.

(** A task whose exception, if it raises one, is caught by the loop. *)
Definition caught (env : Env) (s : Settings)
    (g : str → result exc scraper_cls) (fut : str * list ScraperConfig)
  : Prop :=
  ∀ e, (_run_kind env s g fut.1 fut.2).2 = Raise e → is_exception e = true.

(** The kinds whose scraper class a run looked up, in order. *)
Definition resolved (evs : list event) : list str :=
  omap (λ e, match e with Resolve k => Some k | _ => None end) evs.

(** The events that are calls on a scraper or its class. *)
Definition is_scraper_call (e : event) : bool :=
  match e with
  | Resolve _ | Instantiate _ | Run _ _ _ _ => true
  | _ => false
  end.

(** The first cell of the table row of a posting, with its title, and
    the opening tag of its link. *)
Definition cell_html (p : Posting) : str :=
  u "<tr><td>"
  ++ escape (if decide (title p = []) then u "(no title)" else title p)
  ++ u "</td><td>".

Definition link_open_html (p : Posting) : str :=
  u "<a href=" ++ [34%N] ++ escape (url p) ++ [34%N] ++ u ">".

(** The heading of the rendered document. *)
Definition heading_of (s : Settings) : str :=
  u "Career Watch " ++ dash ++ u " " ++ person_env s.

(** *** A run to evaluate the definitions on

    Two kinds with one source each, as in the tests: a stub scraper that
    finds one posting per spec, tasks completing in submission order. *)
Definition stub_run : scraper := λ person specs _,
  Ok ((λ sc,
         mkScrapeResult (sc_source sc)
           [mkPosting (sc_source sc) person
              (sc_source sc ++ u " - Engineer")
              (u "https://example.com/" ++ sc_source sc ++ u "/1")] [])
      <$> specs).

Definition failing_run : scraper :=
  λ _ _ _, Raise (mkExc true (u "RuntimeError('boom')")).

(** A scraper that ends the process. *)
Definition exiting_run : scraper :=
  λ _ _ _, Raise (mkExc false (u "SystemExit(1)")).

Definition sample_env : Env := {|
  read_groups _ := Raise (ConfigError (u "career_watch groups file not found"));
  registry_get k :=
    if decide (k = u "lever") then Ok (Ok stub_run)
    else if decide (k = u "greenhouse") then Ok (Ok failing_run)
    else if decide (k = u "workday") then Ok (Ok exiting_run)
    else Raise (mkExc true (u "KeyError('No scraper registered')"));
  as_completed l := l;
  as_completed_perm l := reflexivity l;
  dt_us _ := 1500;
  total_us := 4000;
  now_iso := u "2025-01-01T00:00:00Z" |}.

Definition sample_settings (skip all ingest : bool) : Settings := {|
  person_env := u "Test User";
  groups_path := None;
  _selected := [mkScraperConfig (u "lever") (u "lever:acme") (VDict []);
                mkScraperConfig (u "greenhouse") (u "greenhouse:acme") (VDict [])];
  sqlite_path := u "/tmp/careerwatch.db";
  max_threads := 2;
  skip_network := skip;
  email_all_even_if_seen := all;
  ingest_only_no_email := ingest |}.

(** The groups of the sample, and the files an ingest-only run of it
    leaves on an empty file system. *)
Definition sample_by_kind : list (str * list ScraperConfig) :=
  [(u "lever", [mkScraperConfig (u "lever") (u "lever:acme") (VDict [])]);
   (u "greenhouse",
    [mkScraperConfig (u "greenhouse") (u "greenhouse:acme") (VDict [])])].

Definition sample_seen : files :=
  files_after (run_once sample_env (sample_settings false false true) None ∅).

End Engine.

(** * Properties *)

(** ** Python strings *)

Module PyFacts.

Lemma lstrip_app_spaces (ws s : str) :
  Forall (λ c, isspace c = true) ws → lstrip (ws ++ s) = lstrip s.
Proof.
  induction 1 as [|c ws Hc _ IH]; simpl; [done|].
  by rewrite Hc.
Qed.

Lemma lstrip_all_spaces (ws : str) :
  Forall (λ c, isspace c = true) ws → lstrip ws = [].
Proof.
  intros H. rewrite <- (app_nil_r ws). by rewrite lstrip_app_spaces.
Qed.

Lemma lstrip_app (s r : str) :
  lstrip (s ++ r) = if decide (lstrip s = []) then lstrip r else lstrip s ++ r.
Proof.
  induction s as [|c s IH]; simpl; [done|].
  destruct (isspace c); [done|]. by rewrite decide_False.
Qed.

Lemma rstrip_app_spaces (s ws : str) :
  Forall (λ c, isspace c = true) ws → rstrip (s ++ ws) = rstrip s.
Proof.
  intros H. unfold rstrip. rewrite reverse_app, lstrip_app_spaces; [done|].
  by apply Forall_reverse.
Qed.

(** Whitespace around a string does not change what [strip] gives. *)
Lemma strip_padding (l s r : str) :
  Forall (λ c, isspace c = true) l → Forall (λ c, isspace c = true) r →
  strip (l ++ s ++ r) = strip s.
Proof.
  intros Hl Hr. unfold strip. rewrite lstrip_app_spaces by done.
  rewrite lstrip_app. destruct (decide (lstrip s = [])) as [E|E].
  - rewrite E, lstrip_all_spaces by done. done.
  - by rewrite rstrip_app_spaces.
Qed.

End PyFacts.

(** ** Trigger compiler *)

Module SchedulerFacts.
Import Scheduler.

(** *** The order on times of day *)

Lemma hms_cmp_spec (a b : hms) :
  match hms_cmp a b with
  | Eq => a = b
  | Lt => a.1.1 < b.1.1
          ∨ (a.1.1 = b.1.1 ∧ (a.1.2 < b.1.2 ∨ (a.1.2 = b.1.2 ∧ a.2 < b.2)))
  | Gt => b.1.1 < a.1.1
          ∨ (a.1.1 = b.1.1 ∧ (b.1.2 < a.1.2 ∨ (a.1.2 = b.1.2 ∧ b.2 < a.2)))
  end.
Proof.
  destruct a as [[h1 m1] s1], b as [[h2 m2] s2]. unfold hms_cmp. cbn [fst snd].
  destruct (Z.compare_spec h1 h2); [|lia..].
  destruct (Z.compare_spec m1 m2); [|lia..].
  destruct (Z.compare_spec s1 s2); [congruence|lia..].
Qed.

Lemma hms_le_spec (a b : hms) :
  hms_le a b ↔
  a.1.1 < b.1.1
  ∨ (a.1.1 = b.1.1 ∧ (a.1.2 < b.1.2 ∨ (a.1.2 = b.1.2 ∧ a.2 ≤ b.2))).
Proof.
  unfold hms_le. pose proof (hms_cmp_spec a b) as H.
  destruct (hms_cmp a b); split; try done; try lia.
  subst. lia.
Qed.

Global Instance hms_le_trans : Transitive hms_le.
Proof. intros a b c. rewrite !hms_le_spec. lia. Qed.

Global Instance hms_le_total : Total hms_le.
Proof. intros a b. rewrite !hms_le_spec. lia. Qed.

Lemma hms_le_lt (a b : hms) : hms_le a b → a ≠ b → hms_lt a b.
Proof.
  unfold hms_le, hms_lt. pose proof (hms_cmp_spec a b) as H.
  by destruct (hms_cmp a b).
Qed.

Lemma sorted_nodup_strict (l : list hms) :
  StronglySorted hms_le l → NoDup l → StronglySorted hms_lt l.
Proof.
  induction 1 as [|a l Hl IH Ha]; [constructor|].
  intros [Hna Hnd]%NoDup_cons. constructor; [by apply IH|].
  rewrite Forall_forall in Ha |- *. intros b Hb.
  apply hms_le_lt; [by apply Ha|]. by intros ->.
Qed.

(** [sorted(set(xs))] is strictly ascending and has the elements of
    [xs]. *)
Lemma sorted_set_spec (xs : list hms) :
  StronglySorted hms_lt (sorted_set xs) ∧ ∀ t, t ∈ sorted_set xs ↔ t ∈ xs.
Proof.
  unfold sorted_set.
  assert (Hp := merge_sort_Permutation hms_le (remove_dups xs)).
  split.
  - apply sorted_nodup_strict.
    + apply (StronglySorted_merge_sort hms_le).
    + rewrite Hp. apply NoDup_remove_dups.
  - intros t. by rewrite Hp, elem_of_remove_dups.
Qed.

(** *** Parsing *)

Lemma mapR_ok {E A B} (f : A → result E B) (g : A → B) (l : list A) :
  (∀ x, x ∈ l → f x = Ok (g x)) → mapR f l = Ok (g <$> l).
Proof.
  induction l as [|a l IH]; intros H; [done|]. cbn [mapR].
  rewrite (H a) by by left. cbn [mbind result_bind].
  rewrite IH; [done|]. intros x Hx. apply H. by right.
Qed.

Lemma mapR_elem {E A B} (f : A → result E B) (l : list A) (l' : list B) :
  mapR f l = Ok l' → ∀ y, y ∈ l' → ∃ x, x ∈ l ∧ f x = Ok y.
Proof.
  revert l'. induction l as [|a l IH]; intros l'; cbn [mapR].
  - intros [= <-] y ?%elem_of_nil. done.
  - destruct (f a) as [b|e] eqn:Ef; cbn [mbind result_bind]; [|done].
    destruct (mapR f l) as [bs|e] eqn:El; cbn [mbind result_bind]; [|done].
    intros [= <-] y [->|Hy]%elem_of_cons.
    + exists a. split; [by left|done].
    + destruct (IH bs eq_refl y Hy) as (x & ? & ?). exists x.
      split; [by right|done].
Qed.

(** A time of day that parses is a time of day. *)
Lemma parse_time_range s t :
  _parse_time s = Ok t → 0 ≤ t.1.1 ≤ 23 ∧ 0 ≤ t.1.2 ≤ 59 ∧ 0 ≤ t.2 ≤ 59.
Proof.
  unfold _parse_time. case_bool_decide; [|done].
  match goal with |- context [match ?x with _ => _ end] => destruct x as [[[hh mm] ss]|] end;
    [|done].
  unfold time_check. destruct (negb _); [done|].
  repeat case_bool_decide; cbn [mbind result_bind]; try done.
  intros [= <-]. cbn [fst snd]. lia.
Qed.

Lemma parse_entry_range v t :
  parse_entry v = Ok t → 0 ≤ t.1.1 ≤ 23 ∧ 0 ≤ t.1.2 ≤ 59 ∧ 0 ≤ t.2 ≤ 59.
Proof.
  destruct v; cbn [parse_entry]; try apply parse_time_range;
    by case_bool_decide.
Qed.

(** Two digits hold no colon and read back as their number. *)
Lemma two_digits_spec n :
  0 ≤ n ≤ 99 →
  ∃ a b, two_digits n = [a; b] ∧ a ≠ 58%N ∧ b ≠ 58%N ∧ int [a; b] = Some n.
Proof.
  intros Hn.
  assert (Hall : forallb
            (λ k, match two_digits k with
                  | [a; b] =>
                      negb (a =? 58)%N && negb (b =? 58)%N
                      && match int [a; b] with
                         | Some r => r =? k
                         | None => false
                         end
                  | _ => false
                  end) (seqZ 0 100) = true) by (vm_compute; reflexivity).
  rewrite forallb_forall in Hall.
  specialize (Hall n). rewrite <- list_elem_of_In, elem_of_seqZ in Hall.
  specialize (Hall ltac:(lia)).
  destruct (two_digits n) as [|a [|b [|]]]; try done.
  apply andb_prop in Hall as [[Ha Hb]%andb_prop Hi].
  exists a, b. split_and!; [done| | |].
  - intros ->. done.
  - intros ->. done.
  - destruct (int [a; b]) as [r|]; [|done]. apply Z.eqb_eq in Hi. by subst.
Qed.

Lemma time_check_ok h m s :
  0 ≤ h ≤ 23 → 0 ≤ m ≤ 59 → 0 ≤ s ≤ 59 → time_check h m s = Ok ().
Proof.
  intros. unfold time_check, c_int.
  rewrite !bool_decide_eq_true_2 by lia. done.
Qed.

(** The two clock formats parse to the time they write. *)
Lemma parse_time_clock h m s :
  0 ≤ h ≤ 23 → 0 ≤ m ≤ 59 → 0 ≤ s ≤ 59 →
  _parse_time (hhmm h m) = Ok (h, m, 0)
  ∧ _parse_time (hhmmss h m s) = Ok (h, m, s).
Proof.
  intros Hh Hm Hs.
  destruct (two_digits_spec h) as (a1 & b1 & E1 & Ha1 & Hb1 & I1); [lia|].
  destruct (two_digits_spec m) as (a2 & b2 & E2 & Ha2 & Hb2 & I2); [lia|].
  destruct (two_digits_spec s) as (a3 & b3 & E3 & Ha3 & Hb3 & I3); [lia|].
  unfold hhmmss, hhmm. rewrite E1, E2, E3. cbn [app].
  apply N.eqb_neq in Ha1, Hb1, Ha2, Hb2, Ha3, Hb3.
  pose proof (time_check_ok h m 0 Hh Hm ltac:(lia)) as Hc0.
  pose proof (time_check_ok h m s Hh Hm Hs) as Hc.
  split; unfold _parse_time; cbn [split];
    rewrite ?Ha1, ?Hb1, ?Ha2, ?Hb2, ?Ha3, ?Hb3, N.eqb_refl;
    cbn [length lookup list_lookup mbind option_bind];
    rewrite ?I1, ?I2, ?I3.
  - rewrite bool_decide_eq_true_2 by (by left).
    cbn [mbind option_bind]. rewrite (decide_False (P := 2%nat = 3%nat)) by done.
    cbn [mbind option_bind]. by rewrite Hc0.
  - rewrite bool_decide_eq_true_2 by (by right).
    cbn [mbind option_bind]. rewrite (decide_True (P := 3%nat = 3%nat)) by done.
    rewrite ?I3. cbn [mbind option_bind]. by rewrite Hc.
Qed.

Lemma parse_entry_clock c :
  clock_valid c → parse_entry (VStr (clock_str c)) = Ok (clock_hms c).
Proof.
  destruct c as [h m|h m s]; cbn [clock_valid clock_str clock_hms parse_entry].
  - intros [Hh Hm]. apply (parse_time_clock h m 0); lia.
  - intros (Hh & Hm & Hs). by apply parse_time_clock.
Qed.

Lemma mapR_parse_clock (listed : list clock) :
  Forall clock_valid listed →
  mapR parse_entry (VStr ∘ clock_str <$> listed) = Ok (clock_hms <$> listed).
Proof.
  induction 1 as [|c l Hc _ IH]; [done|]. rewrite !fmap_cons. cbn [mapR].
  change ((VStr ∘ clock_str) c) with (VStr (clock_str c)).
  rewrite parse_entry_clock by done.
  cbn [mbind result_bind]. by rewrite IH.
Qed.

(** *** The daily-time branch *)

Section daily.
Context `{!Library}.

Lemma cron_fires_daily_rule dow tz t0 d t :
  cron_fires (daily_rule dow tz t0) d t = true
  ↔ dow_matches dow tz d = true ∧ t = t0.
Proof.
  unfold cron_fires, daily_rule, field_matches.
  cbn [day_of_week timezone hour minute second].
  rewrite !andb_true_iff, !bool_decide_eq_true.
  destruct t as [[h m] s], t0 as [[h0 m0] s0]. cbn [fst snd].
  split.
  - intros [[[? ->] ->] ->]. done.
  - intros [? [= -> -> ->]]. done.
Qed.

(** A single rule or an OR-combination fires when one of the rules
    does. *)
Lemma fires_rules (rules : list CronTrigger) d t :
  fires (match rules with [c] => TCron c | _ => TOr rules end) d t
  ↔ ∃ c, c ∈ rules ∧ cron_fires c d t = true.
Proof.
  split.
  - intros Hf. destruct rules as [|c [|c' rules]]; inversion Hf; subst; eauto.
    exists c. split; [by left|done].
  - intros (c & Hc & Hf). destruct rules as [|c0 [|c' rules]].
    + by apply elem_of_nil in Hc.
    + apply list_elem_of_singleton in Hc as ->. by constructor.
    + by econstructor.
Qed.

Lemma fires_daily dow tz (times : list hms) d t :
  fires (match daily_rule dow tz <$> times with
         | [c] => TCron c
         | _ => TOr (daily_rule dow tz <$> times)
         end) d t
  ↔ dow_matches dow tz d = true ∧ t ∈ times.
Proof.
  rewrite fires_rules. split.
  - intros (c & (t0 & -> & Ht0)%list_elem_of_fmap & Hf).
    apply cron_fires_daily_rule in Hf as [? ->]. done.
  - intros [Hd Ht]. exists (daily_rule dow tz t). split.
    + by apply list_elem_of_fmap_2.
    + by apply cron_fires_daily_rule.
Qed.

(** The daily_time branch on entries that parse: one rule per distinct
    parsed time, in ascending order. *)
Lemma daily_time_compiles (trig_def dtdef : dict) (tz : pyval)
    (default_tz tzi : option tzinfo) (entries : list pyval)
    (parsed : list hms) :
  _tz tz = Ok default_tz →
  present trig_def = [u "daily_time"] →
  od_get trig_def (u "daily_time") = Some (VDict dtdef) →
  unknown_fields dtdef daily_time_allowed = [] →
  tz_or (get dtdef (u "timezone")) default_tz = Ok tzi →
  time_entries (get dtdef (u "time")) = Ok entries →
  mapR parse_entry entries = Ok parsed →
  (∀ t, t ∈ parsed →
     cron_accepts (daily_rule (get dtdef (u "day_of_week")) tzi t) = true) →
  let times := sorted_set parsed in
  let rules := daily_rule (get dtdef (u "day_of_week")) tzi <$> times in
  let trig := match rules with [c] => TCron c | _ => TOr rules end in
  _build_trigger (VDict trig_def) tz = Ok trig
  ∧ StronglySorted hms_lt times
  ∧ (∀ t, t ∈ times ↔ t ∈ parsed)
  ∧ (∀ t, t ∈ parsed → 0 ≤ t.1.1 ≤ 23 ∧ 0 ≤ t.1.2 ≤ 59 ∧ 0 ≤ t.2 ≤ 59)
  ∧ (length times = 1%nat → ∃ c, trig = TCron c)
  ∧ (length times ≠ 1%nat → trig = TOr rules)
  ∧ (∀ d t, fires trig d t
            ↔ dow_matches (get dtdef (u "day_of_week")) tzi d = true
              ∧ t ∈ parsed).
Proof.
  intros Htz Hpres Hget Hunk Htzi Hent Hparse Hacc times rules trig.
  destruct (sorted_set_spec parsed) as [Hsorted Helem]. fold times in Hsorted, Helem.
  split_and!; [|done|done| | | |].
  - unfold _build_trigger. rewrite Htz. cbn [mbind result_bind].
    rewrite Hpres. unfold get, get_or. rewrite Hget. cbn [default from_option Datatypes.id].
    destruct (decide (u "daily_time" = u "interval")) as [E|_]; [by vm_compute in E|].
    destruct (decide (u "daily_time" = u "cron")) as [E|_]; [by vm_compute in E|].
    destruct (decide (u "daily_time" = u "date")) as [E|_]; [by vm_compute in E|].
    rewrite decide_True by done.
    unfold build_daily_time. rewrite Hunk. rewrite decide_False by by intros ?.
    fold (get dtdef (u "timezone")). rewrite Htzi. cbn [mbind result_bind].
    fold (get dtdef (u "time")). rewrite Hent. cbn [mbind result_bind].
    rewrite Hparse. cbn [mbind result_bind]. fold times.
    fold (get dtdef (u "day_of_week")).
    rewrite (mapR_ok _ (daily_rule (get dtdef (u "day_of_week")) tzi)).
    + done.
    + intros t Ht. unfold new_CronTrigger. rewrite Hacc; [done|].
      by apply Helem.
  - intros t Ht. destruct (mapR_elem _ _ _ Hparse t Ht) as (v & _ & Hv).
    by eapply parse_entry_range.
  - intros Hlen. subst trig rules. destruct times as [|t0 [|t1 times']]; try done.
    by eexists.
  - intros Hlen. subst trig rules. by destruct times as [|t0 [|t1 times']].
  - intros d t. subst trig rules. rewrite fires_daily. by rewrite Helem.
Qed.

(** C1. A daily_time trigger spec whose time entries are valid HH:MM or
    HH:MM:SS strings compiles as follows: each entry is parsed into the
    (hour, minute, second) triple it writes, with second 0 for HH:MM; the
    triples are deduplicated and sorted in strictly ascending order, and
    one cron rule is built per distinct triple; the result is that rule
    when there is one triple and the OR-combination of the rules
    otherwise.  On a day the [day_of_week] filter admits, the compiled
    trigger fires at a time of day exactly when that time is one of the
    listed ones, so never at a crossed hour, minute and second. *)
Theorem daily_time_fires_exactly (trig_def dtdef : dict) (tz : pyval)
    (default_tz tzi : option tzinfo) (listed : list clock) :
  _tz tz = Ok default_tz →
  present trig_def = [u "daily_time"] →
  od_get trig_def (u "daily_time") = Some (VDict dtdef) →
  unknown_fields dtdef daily_time_allowed = [] →
  tz_or (get dtdef (u "timezone")) default_tz = Ok tzi →
  time_entries (get dtdef (u "time")) = Ok (VStr ∘ clock_str <$> listed) →
  Forall clock_valid listed →
  (∀ c, c ∈ listed →
     cron_accepts (daily_rule (get dtdef (u "day_of_week")) tzi (clock_hms c))
     = true) →
  let parsed := clock_hms <$> listed in
  let times := sorted_set parsed in
  let rules := daily_rule (get dtdef (u "day_of_week")) tzi <$> times in
  let trig := match rules with [c] => TCron c | _ => TOr rules end in
  mapR parse_entry (VStr ∘ clock_str <$> listed) = Ok parsed
  ∧ _build_trigger (VDict trig_def) tz = Ok trig
  ∧ StronglySorted hms_lt times
  ∧ (∀ t, t ∈ times ↔ ∃ c, c ∈ listed ∧ t = clock_hms c)
  ∧ (length times = 1%nat → ∃ c, trig = TCron c)
  ∧ (length times ≠ 1%nat → trig = TOr rules)
  ∧ (∀ d t, fires trig d t
            ↔ dow_matches (get dtdef (u "day_of_week")) tzi d = true
              ∧ ∃ c, c ∈ listed ∧ t = clock_hms c).
Proof.
  intros Htz Hpres Hget Hunk Htzi Hent Hvalid Hacc parsed times rules trig.
  pose proof (mapR_parse_clock listed Hvalid) as Hparse. fold parsed in Hparse.
  assert (Hin : ∀ t, t ∈ parsed ↔ ∃ c, c ∈ listed ∧ t = clock_hms c).
  { intros t. subst parsed. rewrite list_elem_of_fmap. split.
    - intros (c & -> & Hc). by exists c.
    - intros (c & Hc & ->). by exists c. }
  destruct (daily_time_compiles trig_def dtdef tz default_tz tzi _ parsed
              Htz Hpres Hget Hunk Htzi Hent Hparse)
    as (Hb & Hs & He & _ & H1 & Hn & Hf).
  { intros t (c & Hc & ->)%Hin. by apply Hacc. }
  split_and!; [done..| | | |].
  - intros t. by rewrite <- Hin.
  - done.
  - done.
  - intros d t. by rewrite <- Hin.
Qed.

(** *** Exactly one trigger kind *)

Lemma is_present_spec (d : dict) k :
  is_present d k = true ↔ ∃ v, od_get d k = Some v ∧ v ≠ VNone.
Proof.
  unfold is_present. destruct (od_get d k) as [[]|]; split; try done;
    try (intros _; by eexists); try (by intros (? & [= <-] & ?));
    by intros (? & ? & ?).
Qed.

(** C7. A trigger spec dict in which the keys among interval, cron, date
    and daily_time that are present with a value other than [None] are
    not exactly one does not compile: [_build_trigger] raises, and once
    the scheduler timezone resolves what it raises is the [ValueError]
    asking for exactly one of them. *)
Theorem build_trigger_requires_exactly_one (trig_def : dict) (tz : pyval) :
  length (present trig_def) ≠ 1%nat →
  (∃ e, _build_trigger (VDict trig_def) tz = Raise e)
  ∧ (∀ default_tz, _tz tz = Ok default_tz →
       _build_trigger (VDict trig_def) tz
       = Raise (ValueError
           (u "exactly one of {'interval','cron','date','daily_time'} must be provided")))
  ∧ (∀ k, k ∈ present trig_def
          ↔ k ∈ trigger_kinds ∧ ∃ v, od_get trig_def k = Some v ∧ v ≠ VNone).
Proof.
  intros Hlen.
  assert (Hraise : ∀ default_tz, _tz tz = Ok default_tz →
       _build_trigger (VDict trig_def) tz
       = Raise (ValueError
           (u "exactly one of {'interval','cron','date','daily_time'} must be provided"))).
  { intros default_tz Htz. unfold _build_trigger. rewrite Htz.
    cbn [mbind result_bind].
    by destruct (present trig_def) as [|k [|k' l]]. }
  split_and!; [|done|].
  - destruct (_tz tz) as [default_tz|e] eqn:Htz.
    + eexists. by eapply Hraise.
    + exists e. unfold _build_trigger. by rewrite Htz.
  - intros k. unfold present. rewrite list_elem_of_filter, <- is_present_spec.
    rewrite Is_true_true. tauto.
Qed.

End daily.

(** The daily times of the regression test, with a repeated entry and one
    that gives seconds: fired at 06:30:15, not at the crossed 06:00 or
    06:30. *)
Lemma daily_time_fires_exactly_witness :
  let listed := [HM 8 0; HM 5 0; HMS 6 30 15; HMS 5 0 0] in
  let dtdef := [(u "time", VList [VStr (u "08:00"); VStr (u "05:00");
                                  VStr (u "06:30:15"); VStr (u "05:00:00")]);
                (u "day_of_week", VStr (u "mon-sat"))] in
  let trig_def := [(u "daily_time", VDict dtdef)] in
  let tz := VStr (u "America/Indiana/Indianapolis") in
  let trig := TOr (daily_rule (VStr (u "mon-sat"))
                     (Some (u "America/Indiana/Indianapolis"))
                   <$> [(5, 0, 0); (6, 30, 15); (8, 0, 0)]) in
  present trig_def = [u "daily_time"]
  ∧ Forall clock_valid listed
  ∧ @_build_trigger sample_library (VDict trig_def) tz = Ok trig
  ∧ (∀ d t, @fires sample_library trig d t
            ↔ sample_dow (VStr (u "mon-sat")) d = true
              ∧ ∃ c, c ∈ listed ∧ t = clock_hms c).
Proof.
  intros listed dtdef trig_def tz trig.
  assert (Hv : Forall clock_valid listed).
  { repeat constructor; simpl; lia. }
  pose proof (@daily_time_fires_exactly sample_library trig_def dtdef tz
                (Some (u "America/Indiana/Indianapolis"))
                (Some (u "America/Indiana/Indianapolis"))
                listed eq_refl eq_refl eq_refl eq_refl eq_refl eq_refl Hv
                (λ c _, eq_refl)) as H.
  destruct H as (_ & Hb & _ & _ & _ & _ & Hf).
  split_and!; [reflexivity|exact Hv|exact Hb|exact Hf].
Defined.

Lemma build_trigger_requires_exactly_one_witness :
  let trig_def := [(u "cron", VStr (u "0 3 * * *")); (u "interval", VDict [(u "minutes", VInt 5)])] in
  length (present trig_def) ≠ 1%nat
  ∧ @_build_trigger sample_library (VDict trig_def) (VStr (u "UTC"))
    = Raise (ValueError
        (u "exactly one of {'interval','cron','date','daily_time'} must be provided")).
Proof.
  intros trig_def.
  assert (Hl : length (present trig_def) ≠ 1%nat) by (vm_compute; discriminate).
  split; [exact Hl|].
  exact (proj1 (proj2 (@build_trigger_requires_exactly_one sample_library
                         trig_def (VStr (u "UTC")) Hl))
           (Some (u "UTC")) eq_refl).
Defined.

End SchedulerFacts.

(** ** Dedup store *)

Module DbFacts.
Import Db PyFacts.

Lemma insert_or_ignore_seen t k ts :
  k ∈ keys t → insert_or_ignore t k ts = (t, 0).
Proof. intros H. unfold insert_or_ignore. by rewrite decide_True. Qed.

Lemma insert_or_ignore_new t k ts :
  k ∉ keys t → insert_or_ignore t k ts = (t ++ [new_row k ts], 1).
Proof. intros H. unfold insert_or_ignore. by rewrite decide_False by exact H. Qed.

Lemma row_key_new_row k ts : row_key (new_row k ts) = k.
Proof. by destruct k as [[[a b] c] d]. Qed.

(** A turn of the loop: nothing if the key is stored, else one row and
    one new item. *)
Lemma filter_step_seen person ts t acc p :
  key_of person p ∈ keys t → filter_step person ts (t, acc) p = (t, acc).
Proof.
  intros H. unfold filter_step.
  change (strip (source p), strip person, strip (title p), strip (url p))
    with (key_of person p).
  by rewrite insert_or_ignore_seen.
Qed.

Lemma filter_step_new person ts t acc p :
  key_of person p ∉ keys t →
  filter_step person ts (t, acc) p
  = (t ++ [new_row (key_of person p) ts], acc ++ [appended person p]).
Proof.
  intros H. unfold filter_step.
  change (strip (source p), strip person, strip (title p), strip (url p))
    with (key_of person p).
  rewrite insert_or_ignore_new by done. simpl. unfold appended.
  by destruct (decide _).
Qed.

Lemma keys_snoc t r : keys (t ++ [r]) = keys t ++ [row_key r].
Proof. unfold keys. by rewrite fmap_app. Qed.

(** The loop, as a function of the keys stored when it starts. *)
Lemma filter_loop person ts ps :
  ∀ t acc, ∃ t',
    foldl (filter_step person ts) (t, acc) ps
      = (t ++ t', acc ++ fresh person (keys t) ps)
    ∧ keys (t ++ t') ⊆ keys t ++ (key_of person <$> ps)
    ∧ (∀ p, p ∈ ps → key_of person p ∈ keys (t ++ t'))
    ∧ Forall (λ r, first_seen_utc r = ts ∧ r_person r = strip person
                   ∧ ∃ p, p ∈ ps ∧ row_key r = key_of person p) t'.
Proof.
  induction ps as [|p ps IH]; intros t acc; cbn [foldl fresh].
  - exists []. rewrite !app_nil_r. split_and!; [done|done| |done].
    intros p Hp. by apply elem_of_nil in Hp.
  - destruct (decide (key_of person p ∈ keys t)) as [Hin|Hnin].
    + rewrite filter_step_seen by done.
      destruct (IH t acc) as (t' & -> & Hsub & Hall & Hrows).
      exists t'. split_and!; [done| | |].
      * intros k Hk. apply Hsub in Hk. rewrite fmap_cons.
        apply elem_of_app in Hk as [Hk|Hk]; apply elem_of_app; [by left|].
        right. by apply elem_of_cons; right.
      * intros q [->|Hq]%elem_of_cons; [|by auto].
        unfold keys in *. rewrite fmap_app. apply elem_of_app. by left.
      * eapply Forall_impl; [done|]. intros r (? & ? & q & ? & ?).
        split_and!; [done..|]. exists q. split; [|done].
        by apply elem_of_cons; right.
    + rewrite (filter_step_new person ts t acc p Hnin).
      pose proof (row_key_new_row (key_of person p) ts) as Hk.
      assert (Hts : first_seen_utc (new_row (key_of person p) ts) = ts) by done.
      revert Hk Hts. generalize (new_row (key_of person p) ts). intros r Hk Hts.
      destruct (IH (t ++ [r]) (acc ++ [appended person p]))
        as (t' & -> & Hsub & Hall & Hrows).
      exists (r :: t'). rewrite keys_snoc, Hk in *.
      rewrite <- !(assoc_L (++)) in *. cbn [app] in *.
      split_and!; [done| | |].
      * intros k Hk'. apply Hsub in Hk'. rewrite fmap_cons.
        rewrite !elem_of_app, elem_of_cons in *.
        tauto.
      * intros q [->|Hq]%elem_of_cons; [|by auto].
        unfold keys. rewrite fmap_app, fmap_cons, Hk.
        rewrite elem_of_app, elem_of_cons. tauto.
      * constructor.
        -- split_and!; [done| |exists p; split; [by left|done]].
           destruct r; unfold row_key, key_of in Hk; simpl in *. congruence.
        -- eapply Forall_impl; [done|]. intros r' (? & ? & q & ? & ?).
           split_and!; [done..|]. exists q. split; [|done].
           by apply elem_of_cons; right.
Qed.

Lemma filter_loop_seen person ts ps t acc :
  (∀ p, p ∈ ps → key_of person p ∈ keys t) →
  foldl (filter_step person ts) (t, acc) ps = (t, acc).
Proof.
  induction ps as [|p ps IH]; intros H; cbn [foldl]; [done|].
  rewrite filter_step_seen by (apply H; by left).
  apply IH. intros q Hq. apply H. by right.
Qed.

(** *** Statements that do not bind *)

(** The loop runs to its end exactly when every statement binds, and
    then it is the loop of the turns. *)
Lemma run_loop_ok person ts ps : ∀ st,
  storable person ts ps →
  run_loop person ts st ps = Ok (foldl (filter_step person ts) st ps).
Proof.
  induction ps as [|p ps IH]; intros st Hs; cbn [run_loop foldl]; [done|].
  apply Forall_cons in Hs as [-> Hs]. by apply IH.
Qed.

Lemma run_loop_raise person ts ps : ∀ st,
  ¬ storable person ts ps →
  run_loop person ts st ps = Raise UnicodeEncodeError.
Proof.
  induction ps as [|p ps IH]; intros st Hs; cbn [run_loop].
  - destruct Hs. constructor.
  - destruct (binds person ts p) eqn:E; [|done].
    apply IH. intros H. apply Hs. by constructor.
Qed.

Global Instance storable_dec person ts ps : Decision (storable person ts ps).
Proof. unfold storable. apply _. Defined.

(** Whether a statement binds depends on the dedup key and the
    timestamp only. *)
Lemma binds_key person ts p :
  binds person ts p
  = let k := key_of person p in
    bindable k.1.1.1 && (bindable k.1.1.2 && (bindable k.1.2
      && (bindable k.2 && (bindable ts && true)))).
Proof. done. Qed.

Lemma binds_key_eq person1 person2 ts p1 p2 :
  key_of person1 p1 = key_of person2 p2 →
  binds person1 ts p1 = binds person2 ts p2.
Proof. intros E. by rewrite !binds_key, E. Qed.

Lemma binds_ts person ts1 ts2 p :
  binds person ts1 p = true → bindable ts2 = true → binds person ts2 p = true.
Proof.
  rewrite !binds_key. cbv zeta. rewrite !andb_true_iff. tauto.
Qed.

Lemma storable_ts person ts1 ts2 ps :
  storable person ts1 ps → bindable ts2 = true → storable person ts2 ps.
Proof.
  intros H Hts. eapply Forall_impl; [exact H|]. intros p Hp.
  exact (binds_ts person ts1 ts2 p Hp Hts).
Qed.

Lemma storable_app person ts ps1 ps2 :
  storable person ts (ps1 ++ ps2)
  ↔ storable person ts ps1 ∧ storable person ts ps2.
Proof. apply Forall_app. Qed.

(** *** The call *)

Lemma table_at_init_db fs path :
  table_at (init_db fs path) path = table_at fs path.
Proof.
  unfold init_db, table_at. destruct (transient path); [done|].
  destruct (fs !! path) as [t|] eqn:E; [by rewrite E|].
  by rewrite lookup_insert_eq.
Qed.

Lemma insert_init_db fs path (t : table) :
  <[path := t]> (init_db fs path) = <[path := t]> fs.
Proof.
  unfold init_db. destruct (transient path); [done|].
  destruct (fs !! path); [done|]. by rewrite insert_insert_eq.
Qed.

(** The three ways a call ends: it commits, it finds nothing to do on a
    transient path, or it raises, having logged the exception, and
    leaves the table as it was. *)
Lemma filter_new_cases fs path person ts ps :
  (∃ t', transient path = false ∧ storable person ts ps
         ∧ filter_new fs path person ts ps
           = mkReply (Ok (fresh person (keys (table_at fs path)) ps))
                     (<[path := table_at fs path ++ t']> fs) []
         ∧ (∀ p, p ∈ ps → key_of person p ∈ keys (table_at fs path ++ t'))
         ∧ Forall (λ r, first_seen_utc r = ts ∧ r_person r = strip person
                        ∧ ∃ p, p ∈ ps ∧ row_key r = key_of person p) t')
  ∨ (transient path = true ∧ ps = []
     ∧ filter_new fs path person ts ps = mkReply (Ok []) fs [])
  ∨ (∃ e, filter_new fs path person ts ps
          = mkReply (Raise e) (init_db fs path) [(path, e)]
          ∧ (transient path = true ∧ ps ≠ []
               ∧ e = OperationalError (u "no such table: postings")
             ∨ transient path = false ∧ ¬ storable person ts ps
               ∧ e = UnicodeEncodeError)).
Proof.
  unfold filter_new. cbv zeta. destruct (transient path) eqn:Et.
  - destruct ps as [|p ps].
    + right. left. unfold init_db. by rewrite Et.
    + right. right. eexists. split; [done|]. left. done.
  - fold (table_at (init_db fs path) path). rewrite table_at_init_db.
    destruct (decide (storable person ts ps)) as [Hs|Hs].
    + left. rewrite run_loop_ok by done.
      destruct (filter_loop person ts ps (table_at fs path) [])
        as (t' & Heq & _ & Hall & Hrows).
      exists t'. rewrite Heq, insert_init_db. done.
    + right. right. rewrite run_loop_raise by done.
      eexists. split; [done|]. right. done.
Qed.

(** A call that returns has committed, or was a call without postings
    on a transient path. *)
Lemma filter_new_returned fs path person ts ps new :
  fn_result (filter_new fs path person ts ps) = Ok new →
  (∃ t', transient path = false ∧ storable person ts ps
         ∧ new = fresh person (keys (table_at fs path)) ps
         ∧ filter_new fs path person ts ps
           = mkReply (Ok new) (<[path := table_at fs path ++ t']> fs) []
         ∧ (∀ p, p ∈ ps → key_of person p ∈ keys (table_at fs path ++ t'))
         ∧ Forall (λ r, first_seen_utc r = ts ∧ r_person r = strip person
                        ∧ ∃ p, p ∈ ps ∧ row_key r = key_of person p) t')
  ∨ (transient path = true ∧ ps = [] ∧ new = []
     ∧ filter_new fs path person ts ps = mkReply (Ok []) fs []).
Proof.
  intros Hr.
  destruct (filter_new_cases fs path person ts ps)
    as [(t' & Ht & Hs & E & Hall & Hrows)|[(Ht & -> & E)|(e & E & _)]];
    rewrite E in Hr; cbn [fn_result] in Hr; [| |done].
  - injection Hr as <-. left. by exists t'.
  - injection Hr as <-. right. done.
Qed.

(** A call that raises leaves the table as it was. *)
Lemma filter_new_raised fs path person ts ps e :
  fn_result (filter_new fs path person ts ps) = Raise e →
  filter_new fs path person ts ps
  = mkReply (Raise e) (init_db fs path) [(path, e)].
Proof.
  intros Hr.
  destruct (filter_new_cases fs path person ts ps)
    as [(t' & _ & _ & E & _)|[(_ & _ & E)|(e' & E & _)]];
    rewrite E in Hr; cbn [fn_result] in Hr; [done..|].
  injection Hr as <-. done.
Qed.

(** In every case the table only grows, by rows of this call. *)
Lemma filter_new_table fs path person ts ps :
  ∃ t', table_at (fn_files (filter_new fs path person ts ps)) path
        = table_at fs path ++ t'
        ∧ Forall (λ r, first_seen_utc r = ts ∧ r_person r = strip person
                       ∧ ∃ p, p ∈ ps ∧ row_key r = key_of person p) t'.
Proof.
  destruct (filter_new_cases fs path person ts ps)
    as [(t' & _ & _ & E & _ & Hrows)|[(_ & _ & E)|(e' & E & _)]];
    rewrite E; cbn [fn_files].
  - exists t'. split; [|done]. unfold table_at at 1. by rewrite lookup_insert_eq.
  - exists []. by rewrite app_nil_r.
  - exists []. by rewrite app_nil_r, table_at_init_db.
Qed.

Lemma filter_new_all_seen fs path person ts ps t :
  transient path = false →
  fs !! path = Some t →
  (∀ p, p ∈ ps → key_of person p ∈ keys t) →
  storable person ts ps →
  filter_new fs path person ts ps = mkReply (Ok []) fs [].
Proof.
  intros Htr Ht Hall Hs. unfold filter_new. cbv zeta. rewrite Htr.
  fold (table_at (init_db fs path) path). rewrite table_at_init_db.
  rewrite run_loop_ok by done. unfold table_at. rewrite Ht.
  change (default [] (Some t)) with t.
  rewrite filter_loop_seen by done.
  rewrite insert_init_db. by rewrite insert_id.
Qed.

(** What [fresh] keeps. *)
Lemma fresh_elem person ps : ∀ seen q,
  q ∈ fresh person seen ps →
  ∃ p, p ∈ ps ∧ q = appended person p ∧ key_of person p ∉ seen.
Proof.
  induction ps as [|p ps IH]; intros seen q; cbn [fresh].
  - by intros ?%elem_of_nil.
  - destruct (decide (key_of person p ∈ seen)) as [Hin|Hnin].
    + intros (p' & ? & ? & ?)%IH. exists p'. split_and!; [by right|done..].
    + intros [->|Hq]%elem_of_cons.
      * exists p. split_and!; [by left|done..].
      * apply IH in Hq as (p' & ? & ? & Hn). exists p'.
        split_and!; [by right|done|]. intros ?. apply Hn, elem_of_app. by left.
Qed.

Lemma fresh_all_seen person ps seen :
  (∀ p, p ∈ ps → key_of person p ∈ seen) → fresh person seen ps = [].
Proof.
  intros H. destruct (fresh person seen ps) as [|q l] eqn:E; [done|].
  destruct (fresh_elem person ps seen q) as (p & Hp & _ & Hn).
  - rewrite E. by left.
  - by apply H in Hp.
Qed.

(** C4. Calling [filter_new] twice in succession with the same posting
    list, sqlite path and person: when the first call returns, what it
    returns are the new postings (those whose key was not stored and is
    not the key of an earlier posting of the list); the second call then
    returns the empty list, logs nothing and leaves the files as they
    were, and so does every later identical call, so the row count no
    longer changes.  The timestamps of the calls are those of [now_iso],
    which sqlite can bind. *)
Theorem filter_new_idempotent fs path person ts1 ts2 ps new1 :
  fn_result (filter_new fs path person ts1 ps) = Ok new1 →
  bindable ts2 = true →
  let r1 := filter_new fs path person ts1 ps in
  let r2 := filter_new (fn_files r1) path person ts2 ps in
  new1 = fresh person (keys (table_at fs path)) ps
  ∧ r2 = mkReply (Ok []) (fn_files r1) []
  ∧ count_rows (fn_files r2) path = count_rows (fn_files r1) path
  ∧ ∀ tss : list str,
      Forall (λ ts, bindable ts = true) tss →
      let later :=
        foldl (λ fs' ts, fn_files (filter_new fs' path person ts ps))
              (fn_files r2) tss in
      later = fn_files r2
      ∧ count_rows later path = count_rows (fn_files r2) path
      ∧ ∀ ts, bindable ts = true →
          fn_result (filter_new later path person ts ps) = Ok [].
Proof.
  intros Hr Hts2 r1 r2.
  assert (Hfix : ∀ ts, bindable ts = true →
            filter_new (fn_files r1) path person ts ps
            = mkReply (Ok []) (fn_files r1) []).
  { intros ts Hts. subst r1.
    destruct (filter_new_returned _ _ _ _ _ _ Hr)
      as [(t' & Htr & Hs & _ & E & Hall & _)|(Htr & -> & _ & E)];
      rewrite E; cbn [fn_files].
    - eapply filter_new_all_seen; [done|apply lookup_insert_eq|done|].
      by eapply storable_ts.
    - unfold filter_new, init_db. by rewrite Htr. }
  assert (H1 : new1 = fresh person (keys (table_at fs path)) ps).
  { destruct (filter_new_returned _ _ _ _ _ _ Hr)
      as [(t' & _ & _ & -> & _)|(_ & -> & -> & _)]; done. }
  assert (H2 : r2 = mkReply (Ok []) (fn_files r1) []) by by apply Hfix.
  rewrite H2. cbn [fn_files]. split_and!; [done..|].
  intros tss Htss.
  assert (Hl : foldl (λ fs' ts, fn_files (filter_new fs' path person ts ps))
                 (fn_files r1) tss = fn_files r1).
  { induction Htss as [|ts tss Hts _ IH]; cbn [foldl]; [done|].
    by rewrite Hfix. }
  cbn zeta. rewrite Hl. split_and!; [done..|].
  intros ts Hts. by rewrite Hfix.
Qed.

(** A posting whose key is stored, or carried by an earlier posting of
    the list, leaves no trace. *)
Lemma filter_loop_skip person ts pre p post t acc :
  key_of person p ∈ keys t
  ∨ (∃ p', p' ∈ pre ∧ key_of person p' = key_of person p) →
  foldl (filter_step person ts) (t, acc) (pre ++ p :: post)
  = foldl (filter_step person ts) (t, acc) (pre ++ post).
Proof.
  intros H. rewrite !foldl_app. cbn [foldl].
  destruct (filter_loop person ts pre t acc) as (t' & -> & _ & Hall & _).
  rewrite filter_step_seen; [done|].
  destruct H as [H|(p' & Hp' & <-)]; [|by apply Hall].
  unfold keys in *. rewrite fmap_app. apply elem_of_app. by left.
Qed.

(** The same of the call, when the statement of that posting binds. *)
Lemma filter_new_skip_core fs path person ts pre p post :
  transient path = false →
  key_of person p ∈ keys (table_at fs path)
  ∨ (∃ p', p' ∈ pre ∧ key_of person p' = key_of person p) →
  (storable person ts (pre ++ post) → binds person ts p = true) →
  filter_new fs path person ts (pre ++ p :: post)
  = filter_new fs path person ts (pre ++ post).
Proof.
  intros Htr H Hb. unfold filter_new. cbv zeta. rewrite Htr.
  fold (table_at (init_db fs path) path). rewrite table_at_init_db.
  destruct (decide (storable person ts (pre ++ post))) as [Hs|Hs].
  - rewrite !run_loop_ok; [by rewrite filter_loop_skip|done|].
    specialize (Hb Hs).
    apply storable_app in Hs as [H1 H2]. apply storable_app. split; [done|].
    by constructor.
  - rewrite !run_loop_raise; [done..|].
    intros Hs'. apply Hs. apply storable_app in Hs' as [H1 H2].
    apply Forall_cons in H2 as [_ H2]. by apply storable_app.
Qed.

Lemma filter_new_skip_stored fs path person ts pre p post :
  transient path = false →
  key_of person p ∈ keys (table_at fs path) →
  binds person ts p = true →
  filter_new fs path person ts (pre ++ p :: post)
  = filter_new fs path person ts (pre ++ post).
Proof. intros. apply filter_new_skip_core; auto. Qed.

(** A posting that repeats the key of an earlier one of the list leaves
    no trace, whatever the path: its statement binds when the earlier one
    did. *)
Lemma filter_new_skip_dup fs path person ts pre p post p' :
  p' ∈ pre → key_of person p' = key_of person p →
  filter_new fs path person ts (pre ++ p :: post)
  = filter_new fs path person ts (pre ++ post).
Proof.
  intros Hp' Hk. destruct (transient path) eqn:Htr.
  - unfold filter_new. cbv zeta. rewrite Htr.
    destruct pre as [|p0 pre]; [by apply elem_of_nil in Hp'|]. done.
  - apply filter_new_skip_core; [done|right; by exists p'|].
    intros [Hs _]%storable_app. unfold storable in Hs.
    rewrite Forall_forall in Hs. rewrite <- (Hs p' Hp').
    symmetry. by apply binds_key_eq.
Qed.

(** The items collected so far do not influence the loop. *)
Lemma filter_step_acc person ts t acc p :
  filter_step person ts (t, acc) p
  = ((filter_step person ts (t, []) p).1,
     acc ++ (filter_step person ts (t, []) p).2).
Proof.
  destruct (decide (key_of person p ∈ keys t)).
  - rewrite !filter_step_seen by done. by rewrite app_nil_r.
  - by rewrite !filter_step_new by done.
Qed.

Lemma filter_loop_acc person ts ps : ∀ t acc,
  foldl (filter_step person ts) (t, acc) ps
  = ((foldl (filter_step person ts) (t, []) ps).1,
     acc ++ (foldl (filter_step person ts) (t, []) ps).2).
Proof.
  induction ps as [|p ps IH]; intros t acc; cbn [foldl].
  - by rewrite app_nil_r.
  - rewrite filter_step_acc.
    destruct (filter_step person ts (t, []) p) as [t1 acc1]. cbn [fst snd].
    rewrite (IH t1 (acc ++ acc1)), (IH t1 acc1). cbn [fst snd].
    by rewrite <- (assoc_L (++)).
Qed.

(** Surrounding whitespace in the fields of a posting, or in the person
    of the call, does not change the dedup key. *)
Lemma key_of_padding person p l1 r1 l2 r2 l3 r3 :
  Forall (λ c, isspace c = true) (l1 ++ r1 ++ l2 ++ r2 ++ l3 ++ r3) →
  key_of person
    (mkPosting (l1 ++ source p ++ r1) (Db.person_env p)
               (l2 ++ title p ++ r2) (l3 ++ url p ++ r3))
  = key_of person p.
Proof.
  rewrite !Forall_app. intros (?&?&?&?&?&?).
  unfold key_of. cbn [source title url]. by rewrite !strip_padding.
Qed.

Lemma key_of_person_padding person p l r :
  Forall (λ c, isspace c = true) (l ++ r) →
  key_of (l ++ person ++ r) p = key_of person p.
Proof.
  rewrite Forall_app. intros (?&?). unfold key_of. by rewrite strip_padding.
Qed.

(** What a call that returns returns, by the loop of the turns. *)
Lemma filter_new_fst fs path person ts ps new :
  ps ≠ [] →
  fn_result (filter_new fs path person ts ps) = Ok new →
  new = (foldl (filter_step person ts) (table_at fs path, []) ps).2.
Proof.
  intros Hne Hr.
  destruct (filter_new_returned _ _ _ _ _ _ Hr)
    as [(t' & _ & _ & -> & _)|(_ & ? & _)]; [|done].
  destruct (filter_loop person ts ps (table_at fs path) []) as (t'' & -> & _).
  done.
Qed.

(** C6, as the code has it. A candidate posting whose dedup key, made
    of its trimmed source, the trimmed person of the call, its trimmed
    title and its trimmed url, is the key of a row of the postings table
    is left out of the returned list, whatever whitespace surrounds its
    fields: a call that returns returns, stores and logs what it does
    without that posting.  In general a posting contributes to the
    returned list exactly when its insert changed the table, that is
    when [cur.rowcount] is 1. *)
Theorem filter_new_excludes_stored fs path person ts pre p post r new :
  r ∈ table_at fs path →
  row_key r = key_of person p →
  fn_result (filter_new fs path person ts (pre ++ p :: post)) = Ok new →
  filter_new fs path person ts (pre ++ p :: post)
  = filter_new fs path person ts (pre ++ post)
  ∧ new = fresh person (keys (table_at fs path)) (pre ++ post)
  ∧ (∀ l1 r1 l2 r2 l3 r3,
       Forall (λ c, isspace c = true) (l1 ++ r1 ++ l2 ++ r2 ++ l3 ++ r3) →
       let p' := mkPosting (l1 ++ source p ++ r1) (Db.person_env p)
                           (l2 ++ title p ++ r2) (l3 ++ url p ++ r3) in
       filter_new fs path person ts (pre ++ p' :: post)
       = filter_new fs path person ts (pre ++ post))
  ∧ (∀ cand before after new',
       fn_result (filter_new fs path person ts (before ++ cand :: after))
       = Ok new' →
       let st := foldl (filter_step person ts) (table_at fs path, []) before in
       let ins := insert_or_ignore st.1 (key_of person cand) ts in
       let rest := foldl (filter_step person ts) (ins.1, []) after in
       new' = st.2 ++ (if ins.2 =? 1 then [appended person cand] else [])
                   ++ rest.2
       ∧ (ins.2 = 1 ↔ ins.1 ≠ st.1)
       ∧ (ins.2 = 1 ↔ key_of person cand ∉ keys st.1)).
Proof.
  intros Hr Hk Hret.
  assert (Hin : key_of person p ∈ keys (table_at fs path)).
  { rewrite <- Hk. by apply list_elem_of_fmap_2. }
  destruct (filter_new_returned _ _ _ _ _ _ Hret)
    as [(t' & Htr & Hs & _ & _)|(_ & ? & _)]; [|by destruct pre].
  assert (Hb : binds person ts p = true).
  { apply storable_app in Hs as [_ Hs]. by apply Forall_cons in Hs as [? _]. }
  assert (E : filter_new fs path person ts (pre ++ p :: post)
              = filter_new fs path person ts (pre ++ post))
    by by apply filter_new_skip_stored.
  split_and!.
  - done.
  - rewrite E in Hret.
    destruct (filter_new_returned _ _ _ _ _ _ Hret)
      as [(? & _ & _ & -> & _)|(_ & -> & -> & _)]; done.
  - intros l1 r1 l2 r2 l3 r3 Hws p'.
    assert (Ek : key_of person p' = key_of person p) by by apply key_of_padding.
    apply filter_new_skip_stored; [done|by rewrite Ek|].
    by rewrite (binds_key_eq person person ts p' p Ek).
  - intros cand before after new' Hret' st ins rest.
    apply filter_new_fst in Hret'; [|by destruct before].
    rewrite foldl_app in Hret'. cbn [foldl] in Hret'. fold st in Hret'.
    subst rest ins. destruct st as [t1 acc1]. cbn [fst snd].
    destruct (decide (key_of person cand ∈ keys t1)) as [Hs'|Hn].
    + rewrite filter_step_seen in Hret' by done.
      rewrite insert_or_ignore_seen by done. cbn [fst snd].
      rewrite filter_loop_acc in Hret'. cbn [snd] in Hret'.
      split_and!; [done| |]; split; done.
    + rewrite filter_step_new in Hret' by done.
      rewrite insert_or_ignore_new by done. cbn [fst snd].
      rewrite filter_loop_acc in Hret'. cbn [snd] in Hret'.
      rewrite <- (assoc_L (++)) in Hret'.
      split_and!; [done| |done].
      split; [|done]. intros _ E'. apply (f_equal length) in E'.
      rewrite length_app in E'. simpl in E'. lia.
Qed.

Lemma appended_person person p : Db.person_env (appended person p) = strip person.
Proof.
  unfold appended. destruct (decide _) as [H|H]; [done|].
  by apply dec_stable in H.
Qed.

(** C9. The person of the dedup key, of every row a call stores and of
    every posting it returns is the trimmed [person_env] argument, not
    the posting's own field: a new posting whose field differs from the
    trimmed argument comes back as a copy with that person and with
    source, title and url trimmed; and of two postings of one call that
    differ only in their [person_env] field, the later one collides with
    the earlier and leaves no trace. *)
Theorem filter_new_person_is_argument fs path person ts ps :
  let r := filter_new fs path person ts ps in
  (∀ new q, fn_result r = Ok new → q ∈ new →
     Db.person_env q = strip person
     ∧ ∃ p, p ∈ ps ∧ q = appended person p
            ∧ (Db.person_env p ≠ strip person →
               q = mkPosting (strip (source p)) (strip person)
                             (strip (title p)) (strip (url p)))
            ∧ (Db.person_env p = strip person → q = p))
  ∧ (∃ t', table_at (fn_files r) path = table_at fs path ++ t'
           ∧ ∀ row, row ∈ t' →
               r_person row = strip person
               ∧ ∃ p, p ∈ ps
                      ∧ row_key row = (strip (source p), strip person,
                                       strip (title p), strip (url p)))
  ∧ (∀ pre p1 mid p2 post,
       ps = pre ++ p1 :: mid ++ p2 :: post →
       source p1 = source p2 → title p1 = title p2 → url p1 = url p2 →
       r = filter_new fs path person ts (pre ++ p1 :: mid ++ post)).
Proof.
  intros r. subst r.
  split_and!.
  - intros new q Hr Hq.
    assert (Hq' : q ∈ fresh person (keys (table_at fs path)) ps).
    { destruct (filter_new_returned _ _ _ _ _ _ Hr)
        as [(? & _ & _ & -> & _)|(_ & _ & -> & _)]; [done|].
      by apply elem_of_nil in Hq. }
    apply fresh_elem in Hq' as (p & Hp & -> & _).
    split; [apply appended_person|].
    exists p. split_and!; [done..| |]; intros H; unfold appended.
    + by rewrite decide_True.
    + rewrite decide_False; [done|]. by intros ?.
  - destruct (filter_new_table fs path person ts ps) as (t' & Ht & Hrows).
    exists t'. split; [done|].
    intros row Hrow. rewrite Forall_forall in Hrows.
    destruct (Hrows row Hrow) as (_ & ? & p & ? & ?). split; [done|].
    by exists p.
  - intros pre p1 mid p2 post -> Hs Ht Hu.
    change (pre ++ p1 :: mid ++ p2 :: post)
      with (pre ++ (p1 :: mid) ++ p2 :: post).
    change (pre ++ p1 :: mid ++ post) with (pre ++ (p1 :: mid) ++ post).
    rewrite !(assoc_L (++) pre (p1 :: mid)).
    apply (filter_new_skip_dup _ _ _ _ _ _ _ p1).
    + apply elem_of_app. right. by left.
    + unfold key_of. by rewrite Hs, Ht, Hu.
Qed.

(** *** Runs of the store on the postings of the tests *)

Lemma filter_new_idempotent_witness :
  let path := u "/tmp/cw2.db" in
  let person := u "The Archivist" in
  let ts1 := u "2025-01-01T00:00:00Z" in
  let ts2 := u "2025-01-02T00:00:00Z" in
  let p := mkPosting (u "s1") person (u "T1") (u "U1") in
  let q := mkPosting (u "s1") person (u "T2") (u "U2") in
  let r1 := filter_new ∅ path person ts1 [p; q; p] in
  fn_result r1 = Ok [p; q]
  ∧ bindable ts2 = true
  ∧ filter_new (fn_files r1) path person ts2 [p; q; p]
    = mkReply (Ok []) (fn_files r1) []
  ∧ count_rows (fn_files r1) path = 2.
Proof.
  intros path person ts1 ts2 p q r1.
  assert (H1 : fn_result r1 = Ok [p; q]) by reflexivity.
  assert (H2 : bindable ts2 = true) by reflexivity.
  split_and!; [exact H1|exact H2| |reflexivity].
  exact (proj1 (proj2 (filter_new_idempotent ∅ path person ts1 ts2 [p; q; p]
                         [p; q] H1 H2))).
Defined.

(** C6, as stated, fails: the key of the posting [p] by its own fields
    is the key of a stored row, and a call for another person returns
    it as new. *)
Lemma filter_new_returns_stored_for_other_person :
  let path := u "/tmp/cw2.db" in
  let ts := u "2025-01-01T00:00:00Z" in
  let p := mkPosting (u "s1") (u "Bob") (u " T1") (u "U1") in
  let fs := fn_files (filter_new ∅ path (u "Bob") ts [p]) in
  let r := mkRow (u "s1") (u "Bob") (u "T1") (u "U1") ts in
  r ∈ table_at fs path
  ∧ row_key r = natural_key p
  ∧ fn_result (filter_new fs path (u "Ann") ts [p])
    = Ok [mkPosting (u "s1") (u "Ann") (u "T1") (u "U1")]
  ∧ fn_result (filter_new fs path (u "Ann") ts [])
    = Ok [].
Proof.
  intros path ts p fs r.
  split_and!; [vm_compute; left|reflexivity|reflexivity|reflexivity].
Qed.

Lemma filter_new_excludes_stored_witness :
  let path := u "/tmp/cw2.db" in
  let person := u "The Archivist" in
  let ts := u "2025-01-01T00:00:00Z" in
  let p := mkPosting (u "s1") person (u "T1") (u "U1") in
  let padded := mkPosting (u " s1") person (u "T1  ") (u " U1 ") in
  let q := mkPosting (u "s1") person (u "T2") (u "U2") in
  let fs := fn_files (filter_new ∅ path person ts [p]) in
  let r := mkRow (u "s1") person (u "T1") (u "U1") ts in
  r ∈ table_at fs path
  ∧ row_key r = key_of person padded
  ∧ fn_result (filter_new fs path person ts ([q] ++ padded :: [])) = Ok [q]
  ∧ filter_new fs path person ts ([q] ++ padded :: [])
    = filter_new fs path person ts ([q] ++ []).
Proof.
  intros path person ts p padded q fs r.
  assert (H1 : r ∈ table_at fs path) by (vm_compute; left).
  assert (H2 : row_key r = key_of person padded) by reflexivity.
  assert (H3 : fn_result (filter_new fs path person ts ([q] ++ padded :: []))
               = Ok [q]) by reflexivity.
  split_and!; [exact H1|exact H2|exact H3|].
  exact (proj1 (filter_new_excludes_stored fs path person ts [q] padded [] r
                  [q] H1 H2 H3)).
Defined.

Lemma filter_new_person_is_argument_witness :
  let path := u "/tmp/cw2.db" in
  let ts := u "2025-01-01T00:00:00Z" in
  let p1 := mkPosting (u "s1") (u "Alice") (u "T1") (u "U1") in
  let p2 := mkPosting (u "s1") (u "Bob") (u "T1") (u "U1") in
  filter_new ∅ path (u " Carol ") ts ([] ++ p1 :: [] ++ p2 :: [])
  = filter_new ∅ path (u " Carol ") ts ([] ++ p1 :: [] ++ [])
  ∧ fn_result (filter_new ∅ path (u " Carol ") ts [p1; p2])
    = Ok [mkPosting (u "s1") (u "Carol") (u "T1") (u "U1")].
Proof.
  intros path ts p1 p2. split; [|reflexivity].
  exact (proj2 (proj2 (filter_new_person_is_argument ∅ path (u " Carol ") ts
                         ([] ++ p1 :: [] ++ p2 :: [])))
           [] p1 [] p2 [] eq_refl eq_refl eq_refl eq_refl).
Defined.

End DbFacts.

(** ** Scrape engine *)

Module EngineFacts.
Import Db Engine DbFacts.

(** *** Ordered dictionaries *)

Lemma od_get_set_eq {V} (d : list (str * V)) k v : od_get (od_set d k v) k = Some v.
Proof.
  induction d as [|[k' v'] d IH]; simpl.
  - by rewrite decide_True.
  - destruct (decide (k' = k)) as [->|Hne]; simpl.
    + by rewrite decide_True.
    + by rewrite decide_False.
Qed.

Lemma od_get_set_ne {V} (d : list (str * V)) k k' v :
  k ≠ k' → od_get (od_set d k v) k' = od_get d k'.
Proof.
  intros Hne. induction d as [|[k0 v0] d IH]; simpl.
  - by rewrite decide_False.
  - destruct (decide (k0 = k)) as [->|Hne0]; simpl.
    + by rewrite !decide_False.
    + by rewrite IH.
Qed.

Lemma sum_values_counts_set {A} (d : list (str * list A)) k v :
  sum_values (counts (od_set d k v))
  = sum_values (counts d) - Z.of_nat (length (default [] (od_get d k)))
    + Z.of_nat (length v).
Proof.
  unfold sum_values, counts.
  induction d as [|[k' v'] d IH]; cbn [od_set od_get].
  - simpl. lia.
  - destruct (decide (k' = k)) as [->|Hne].
    + simpl. lia.
    + rewrite !fmap_cons. cbn [foldr snd fst]. rewrite IH. lia.
Qed.

Lemma sum_values_counts_extend {A} (d : list (str * list A)) k xs :
  sum_values (counts (od_extend d k xs))
  = sum_values (counts d) + Z.of_nat (length xs).
Proof.
  unfold od_extend. rewrite sum_values_counts_set, length_app. lia.
Qed.

Lemma sum_values_new_by_source ps :
  sum_values (counts (new_by_source_of ps)) = Z.of_nat (length ps).
Proof.
  unfold new_by_source_of.
  assert (H : ∀ d, sum_values (counts
                (foldl (λ d p, od_extend d (source p) [p]) d ps))
              = sum_values (counts d) + Z.of_nat (length ps)).
  { induction ps as [|p ps IH]; intros d; cbn [foldl].
    - simpl. lia.
    - rewrite IH, sum_values_counts_extend. simpl length. lia. }
  rewrite H. unfold sum_values. simpl. lia.
Qed.

Lemma items_of_absent rs k : k ∉ sr_source <$> rs → items_of k rs = [].
Proof.
  induction rs as [|r rs IH]; [done|]. rewrite fmap_cons, not_elem_of_cons.
  intros [Hne Hnin]. unfold items_of. cbn [mbind list_bind].
  fold (items_of k rs). rewrite IH by done.
  by rewrite decide_False by congruence.
Qed.

Lemma pre_by_source_get rs k :
  od_get (pre_by_source_of rs) k
  = if decide (k ∈ sr_source <$> rs) then Some (items_of k rs) else None.
Proof.
  unfold pre_by_source_of.
  assert (H : ∀ d, od_get
              (foldl (λ d r, od_extend d (sr_source r) (items r)) d rs) k
            = if decide (k ∈ sr_source <$> rs)
              then Some (default [] (od_get d k) ++ items_of k rs)
              else od_get d k).
  { induction rs as [|r rs IH]; intros d; cbn [foldl].
    - rewrite decide_False; [done|]. by intros ?%elem_of_nil.
    - rewrite IH. unfold od_extend. rewrite fmap_cons.
      unfold items_of. cbn [mbind list_bind]. fold (items_of k rs).
      destruct (decide (sr_source r = k)) as [<-|Hne].
      + rewrite od_get_set_eq. cbn [default from_option Datatypes.id].
        rewrite (decide_True (P := _ ∈ _ :: _)) by by left.
        destruct (decide _) as [|Hnin].
        * by rewrite <- !(assoc_L (++)).
        * by rewrite items_of_absent, app_nil_r.
      + rewrite od_get_set_ne by done. rewrite app_nil_l.
        destruct (decide (k ∈ sr_source <$> rs)) as [Hin|Hnin].
        * rewrite decide_True; [done|]. by right.
        * rewrite decide_False; [done|].
          intros [?|?]%elem_of_cons; congruence. }
  rewrite H. by destruct (decide _).
Qed.

Lemma od_set_keys {V} (d : list (str * V)) key val :
  (od_set d key val).*1 = if decide (key ∈ d.*1) then d.*1 else d.*1 ++ [key].
Proof.
  induction d as [|[k' v'] d IH]; cbn [od_set fmap list_fmap fst].
  - rewrite decide_False; [done|]. by intros ?%elem_of_nil.
  - destruct (decide (k' = key)) as [->|Hne]; cbn [fmap list_fmap fst].
    + rewrite decide_True; [done|]. by left.
    + fold (fmap (M:=list) (@fst str V)). rewrite IH.
      destruct (decide (key ∈ d.*1)) as [Hin|Hnin].
      * rewrite decide_True; [done|]. by right.
      * rewrite decide_False; [done|].
        intros [?|?]%elem_of_cons; congruence.
Qed.

Lemma od_get_None {V} (d : list (str * V)) key :
  od_get d key = None ↔ key ∉ d.*1.
Proof.
  induction d as [|[k' v'] d IH]; cbn [od_get fmap list_fmap fst].
  - split; [|done]. by intros _ ?%elem_of_nil.
  - fold (fmap (M:=list) (@fst str V)).
    destruct (decide (k' = key)) as [->|Hne].
    + split; [done|]. intros H. exfalso. apply H. by left.
    + rewrite IH, not_elem_of_cons. split; [intros ?; split; [congruence|done]|by intros [_ ?]].
Qed.

Lemma od_get_elem_NoDup {V} (d : list (str * V)) key val :
  NoDup d.*1 → (key, val) ∈ d → od_get d key = Some val.
Proof.
  induction d as [|[k' v'] d IH]; [by intros _ ?%elem_of_nil|].
  cbn [od_get fmap list_fmap fst]. fold (fmap (M:=list) (@fst str V)).
  intros [Hn Hnd]%NoDup_cons [[= <- <-]|Hin]%elem_of_cons.
  - by rewrite decide_True.
  - rewrite decide_False; [by apply IH|]. intros ->. apply Hn.
    by apply (list_elem_of_fmap_2 fst) in Hin.
Qed.

(** *** Grouping into an ordered dictionary *)

Section grouping.
Context {A B : Type} (k : A → str) (v : A → list B).

Lemma grouped_get (l : list A) : ∀ d key,
  od_get (foldl (λ d x, od_extend d (k x) (v x)) d l) key
  = if decide (key ∈ k <$> l)
    then Some (default [] (od_get d key)
               ++ (l ≫= λ x, if decide (k x = key) then v x else []))
    else od_get d key.
Proof.
  induction l as [|x l IH]; intros d key; cbn [foldl].
  - rewrite decide_False; [done|]. by intros ?%elem_of_nil.
  - rewrite IH. unfold od_extend. rewrite fmap_cons. cbn [mbind list_bind].
    destruct (decide (k x = key)) as [<-|Hne].
    + rewrite od_get_set_eq. cbn [default from_option Datatypes.id].
      rewrite (decide_True (P := _ ∈ _ :: _)) by by left.
      destruct (decide _) as [|Hnin].
      * by rewrite <- !(assoc_L (++)).
      * f_equal. f_equal.
        assert (E : l ≫= (λ x0, if decide (k x0 = k x) then v x0 else []) = []).
        { clear IH. induction l as [|y l IHl]; [done|].
          rewrite fmap_cons, not_elem_of_cons in Hnin. destruct Hnin.
          cbn [mbind list_bind]. rewrite decide_False by congruence.
          by rewrite IHl. }
        by rewrite E, app_nil_r.
    + rewrite od_get_set_ne by done. rewrite app_nil_l.
      destruct (decide (key ∈ k <$> l)) as [Hin|Hnin].
      * rewrite decide_True; [done|]. by right.
      * rewrite decide_False; [done|].
        intros [?|?]%elem_of_cons; congruence.
Qed.

Lemma grouped_keys (l : list A) : ∀ d,
  NoDup d.*1 →
  NoDup (foldl (λ d x, od_extend d (k x) (v x)) d l).*1
  ∧ ∀ key, key ∈ (foldl (λ d x, od_extend d (k x) (v x)) d l).*1
           ↔ key ∈ d.*1 ∨ key ∈ k <$> l.
Proof.
  induction l as [|x l IH]; intros d Hnd; cbn [foldl].
  - split; [done|]. intros key. rewrite fmap_nil, elem_of_nil. tauto.
  - assert (Hk : (od_extend d (k x) (v x)).*1
                 = if decide (k x ∈ d.*1) then d.*1 else d.*1 ++ [k x])
      by apply od_set_keys.
    destruct (IH (od_extend d (k x) (v x))) as [Hnd' Hin'].
    { rewrite Hk. destruct (decide _); [done|].
      apply NoDup_app. split_and!; [done| |apply NoDup_singleton].
      intros y Hy ->%list_elem_of_singleton. done. }
    split; [done|]. intros key. rewrite Hin', Hk, fmap_cons, elem_of_cons.
    destruct (decide (k x ∈ d.*1)).
    + split; [tauto|]. intros [?|[->|?]]; tauto.
    + rewrite elem_of_app, list_elem_of_singleton. tauto.
Qed.

Lemma grouped_total (l : list A) : ∀ d,
  sum_values (counts (foldl (λ d x, od_extend d (k x) (v x)) d l))
  = sum_values (counts d) + Z.of_nat (length (l ≫= v)).
Proof.
  induction l as [|x l IH]; intros d; cbn [foldl mbind list_bind].
  - simpl. lia.
  - rewrite IH, sum_values_counts_extend, length_app. lia.
Qed.

End grouping.

(** *** The new postings by source, and the subject *)

Lemma new_by_source_nil ps : new_by_source_of ps = [] ↔ ps = [].
Proof.
  split; [|by intros ->]. intros E. destruct ps as [|p ps]; [done|]. exfalso.
  destruct (grouped_keys source (λ p, [p]) (p :: ps) []) as [_ Hk]; [constructor|].
  fold (new_by_source_of (p :: ps)) in Hk. rewrite E in Hk.
  apply (elem_of_nil (source p)), Hk. right. rewrite fmap_cons. by left.
Qed.

Lemma new_by_source_get ps q :
  q ∈ ps → ∃ l, od_get (new_by_source_of ps) (source q) = Some l ∧ q ∈ l.
Proof.
  intros Hq. unfold new_by_source_of.
  rewrite (grouped_get source (λ p, [p])).
  rewrite decide_True by by apply list_elem_of_fmap_2.
  eexists. split; [done|]. cbn [od_get default from_option Datatypes.id app].
  apply list_elem_of_bind. exists q. split; [|done].
  rewrite decide_True by done. by left.
Qed.

Lemma new_by_source_single src ps :
  ps ≠ [] → (∀ q, q ∈ ps → source q = src) →
  new_by_source_of ps = [(src, ps)].
Proof.
  intros Hne Hsrc. unfold new_by_source_of.
  assert (H : ∀ l acc, (∀ q, q ∈ l → source q = src) →
            foldl (λ d p, od_extend d (source p) [p]) [(src, acc)] l
            = [(src, acc ++ l)]).
  { induction l as [|q l IH]; intros acc Hl; cbn [foldl].
    - by rewrite app_nil_r.
    - rewrite (Hl q) by by left. unfold od_extend at 2. cbn [od_get od_set].
      rewrite !decide_True by done. cbn [default from_option Datatypes.id].
      rewrite IH by (intros; apply Hl; by right).
      by rewrite <- (assoc_L (++)). }
  destruct ps as [|p ps]; [done|]. cbn [foldl].
  rewrite (Hsrc p) by by left. unfold od_extend at 2. cbn [od_get od_set default from_option app].
  rewrite H by (intros; apply Hsrc; by right). done.
Qed.

(** The sources with new postings are the sources of the new postings,
    each once. *)
Lemma new_sources ps :
  NoDup (nonempty_sources (new_by_source_of ps))
  ∧ ∀ src, src ∈ nonempty_sources (new_by_source_of ps) ↔ src ∈ source <$> ps.
Proof.
  destruct (grouped_keys source (λ p : Posting, [p]) ps []) as [Hnd Hk];
    [constructor|].
  fold (new_by_source_of ps) in Hnd, Hk.
  assert (E : nonempty_sources (new_by_source_of ps) = (new_by_source_of ps).*1).
  { unfold nonempty_sources. f_equal.
    assert (Hall : Forall (λ kv : str * list Posting, kv.2 ≠ [])
                     (new_by_source_of ps)).
    { apply Forall_forall. intros [src l] Hin. cbn [snd].
      pose proof (od_get_elem_NoDup _ _ _ Hnd Hin) as Hg.
      unfold new_by_source_of in Hg.
      rewrite (grouped_get source (λ p, [p])) in Hg.
      destruct (decide (src ∈ source <$> ps)) as [Hs|]; [|done].
      apply list_elem_of_fmap in Hs as (q & -> & Hq).
      injection Hg as <-. cbn [od_get default from_option Datatypes.id app].
      intros Hnil.
      assert (Hq' : q ∈ ps ≫= (λ x, if decide (source x = source q) then [x] else [])).
      { apply list_elem_of_bind. exists q. split; [|done].
        rewrite decide_True by done. by left. }
      rewrite Hnil in Hq'. by apply elem_of_nil in Hq'. }
    clear Hnd Hk. induction Hall as [|kv d Hkv _ IH]; [done|].
    rewrite filter_cons, decide_True by done. by rewrite IH. }
  rewrite E. split; [done|]. intros src. rewrite Hk, fmap_nil, elem_of_nil. tauto.
Qed.

Lemma new_sources_length ps :
  length (nonempty_sources (new_by_source_of ps))
  = length (remove_dups (source <$> ps)).
Proof.
  destruct (new_sources ps) as [Hnd Hin]. apply Permutation_length.
  apply NoDup_Permutation; [done|apply NoDup_remove_dups|].
  intros src. by rewrite Hin, elem_of_remove_dups.
Qed.

(** The subject, by the number of sources that have new postings. *)
Lemma subject_of_cases ps n :
  (ps = [] →
   subject_of (new_by_source_of ps) n
   = u "Career Watch " ++ dash ++ u " " ++ str_of_Z n
     ++ u " new jobs (0 companies)")
  ∧ (∀ src, ps ≠ [] → (∀ q, q ∈ ps → source q = src) →
     subject_of (new_by_source_of ps) n
     = u "Career Watch " ++ dash ++ u " " ++ str_of_Z n ++ u " new at " ++ src)
  ∧ (∀ q1 q2, q1 ∈ ps → q2 ∈ ps → source q1 ≠ source q2 →
     subject_of (new_by_source_of ps) n
     = u "Career Watch " ++ dash ++ u " " ++ str_of_Z n ++ u " new jobs ("
       ++ str_of_Z (Z.of_nat (length (remove_dups (source <$> ps))))
       ++ u " companies)").
Proof.
  split_and!.
  - intros ->. done.
  - intros src Hne Hsrc. rewrite (new_by_source_single src) by done.
    unfold subject_of, nonempty_sources. rewrite filter_cons.
    by rewrite decide_True by done.
  - intros q1 q2 H1 H2 Hne. rewrite <- new_sources_length.
    destruct (new_sources ps) as [_ Hin]. unfold subject_of.
    destruct (nonempty_sources (new_by_source_of ps)) as [|a [|b l]] eqn:E.
    + exfalso. apply (elem_of_nil (source q1)), Hin. by apply list_elem_of_fmap_2.
    + exfalso. apply Hne.
      assert (Ha1 : source q1 ∈ [a]) by (apply Hin; by apply list_elem_of_fmap_2).
      assert (Ha2 : source q2 ∈ [a]) by (apply Hin; by apply list_elem_of_fmap_2).
      apply list_elem_of_singleton in Ha1, Ha2. congruence.
    + done.
Qed.

(** The kinds of the groups are pairwise distinct. *)
Lemma group_by_kind_nodup env s by_kind :
  group_by_kind env s = Ok by_kind →
  NoDup by_kind.*1
  ∧ ∃ selected, _selected_scrapers env s = Ok selected
                ∧ ∀ kd, kd ∈ by_kind.*1 ↔ kd ∈ kind <$> selected.
Proof.
  unfold group_by_kind.
  destruct (_selected_scrapers env s) as [selected|e];
    cbn [mbind result_bind]; [|done].
  intros [= <-].
  destruct (grouped_keys kind (λ sc, [sc]) selected []) as [Hnd Hk];
    [constructor|].
  split; [done|]. exists selected. split; [done|].
  intros kd. rewrite Hk, fmap_nil, elem_of_nil. tauto.
Qed.

(** *** The fan-out *)

Lemma collect_ok env s g st fut st' :
  collect env s g st fut = Ok st' →
  all_results st' = all_results st ++ task_results env s g fut
  ∧ trace st' = trace st ++ task_events env s g fut
  ∧ caught env s g fut.
Proof.
  unfold collect, task_results, task_events, caught.
  destruct (_run_kind env s g fut.1 fut.2) as [evs [[[[k rs] dt] sk]|e]];
    cbn [fst snd].
  - intros [= <-]. cbn [all_results trace]. by rewrite app_nil_r.
  - destruct (is_exception e) eqn:Ee; [|done].
    intros [= <-]. cbn [all_results trace]. rewrite app_nil_r.
    split_and!; [done..|]. by intros ? [= <-].
Qed.

Lemma collect_caught env s g st fut :
  caught env s g fut → ∃ st', collect env s g st fut = Ok st'.
Proof.
  unfold collect, caught.
  destruct (_run_kind env s g fut.1 fut.2) as [evs [[[[k rs] dt] sk]|e]];
    cbn [fst snd]; intros H; [by eexists|].
  rewrite (H e eq_refl). by eexists.
Qed.

Lemma collect_all_ok env s g l : ∀ st f,
  collect_all env s g st l = Ok f →
  all_results f = all_results st ++ (l ≫= task_results env s g)
  ∧ trace f = trace st ++ (l ≫= task_events env s g)
  ∧ Forall (caught env s g) l.
Proof.
  induction l as [|fut l IH]; intros st f; cbn [collect_all mbind list_bind].
  - intros [= <-]. by rewrite !app_nil_r.
  - destruct (collect env s g st fut) as [st'|e] eqn:E; [|done].
    intros (-> & -> & Hl)%IH.
    apply collect_ok in E as (-> & -> & Hc).
    rewrite <- !(assoc_L (++)). split_and!; [done..|]. by constructor.
Qed.

Lemma collect_all_caught env s g l : ∀ st,
  Forall (caught env s g) l → ∃ f, collect_all env s g st l = Ok f.
Proof.
  induction l as [|fut l IH]; intros st Hl; cbn [collect_all]; [by eexists|].
  apply Forall_cons in Hl as [Hc Hl].
  destruct (collect_caught env s g st fut Hc) as (st' & ->). by apply IH.
Qed.

(** An exception that is not caught comes from a task that raised it. *)
Lemma collect_all_raise env s g l : ∀ st e evs,
  collect_all env s g st l = Raise (e, evs) →
  is_exception e = false
  ∧ ∃ fut, fut ∈ l ∧ (_run_kind env s g fut.1 fut.2).2 = Raise e.
Proof.
  induction l as [|fut l IH]; intros st e evs; cbn [collect_all]; [done|].
  destruct (collect env s g st fut) as [st'|e'] eqn:E.
  - intros (He & fut' & Hf & Hr)%IH.
    split; [done|]. exists fut'. split; [by right|done].
  - intros [= <- <-]. unfold collect in E.
    destruct (_run_kind env s g fut.1 fut.2) as [evs0 [[[[k rs] dt] sk]|e0]] eqn:Er;
      [done|].
    destruct (is_exception e0) eqn:Ee; [done|]. injection E as <-.
    split; [done|]. exists fut. split; [by left|by rewrite Er].
Qed.

Lemma fan_out_ok env s g by_kind f :
  fan_out env s g by_kind = Ok f →
  all_results f = as_completed env by_kind ≫= task_results env s g
  ∧ trace f = as_completed env by_kind ≫= task_events env s g
  ∧ Forall (caught env s g) by_kind.
Proof.
  intros (Hr & Ht & Hc)%collect_all_ok. split_and!; [done..|].
  by rewrite <- (as_completed_perm env by_kind).
Qed.

Lemma fan_out_caught env s g by_kind :
  Forall (caught env s g) by_kind → ∃ f, fan_out env s g by_kind = Ok f.
Proof.
  intros Hc. apply collect_all_caught.
  by rewrite (as_completed_perm env by_kind).
Qed.

(** *** The outcome of a run whose configuration loads *)

Lemma max_workers_pos (n m : Z) :
  0 ≤ n → 0 < m → (Z.min (if n =? 0 then 1 else n) m <=? 0) = false.
Proof. intros. destruct (Z.eqb_spec n 0); lia. Qed.

Lemma run_once_cases env s gs fs by_kind f :
  group_by_kind env s = Ok by_kind →
  0 < max_threads s →
  fan_out env s (default (registry_get env) gs) by_kind = Ok f →
  let pre := pre_by_source_of (all_results f) in
  let r := filter_new fs (sqlite_path s) (Engine.person_env s) (now_iso env)
             (all_postings_of (all_results f)) in
  let o := run_once env s gs fs in
  let rendered to_render label new :=
    Ok (Some (wrap_document (build_tables to_render) (heading_of s)
                (_summary_message to_render (Engine.person_env s) label),
              mkMeta (_summary_message to_render (Engine.person_env s) label)
                (Engine.person_env s) (sum_values (counts new))
                (counts to_render) (subject_of new (sum_values (counts new)))
                (od_set (durations f) (u "_total_us") (total_us env))
                (email_all_even_if_seen s) (ingest_only_no_email s))) in
  files_after o = fn_files r
  ∧ (∃ tail, events o = trace f ++ tail
             ∧ Forall (λ e, is_scraper_call e = false) tail)
  ∧ (∀ e, fn_result r = Raise e →
       returned o = Raise (StoreError e)
       ∧ events o = trace f ++ [LogDbError (sqlite_path s) e])
  ∧ (∀ new_postings, fn_result r = Ok new_postings →
       let new := new_by_source_of new_postings in
       returned o =
         if ingest_only_no_email s then Ok None
         else if email_all_even_if_seen s
              then rendered pre (u "all postings") new
         else if decide (new = []) then Ok None
         else rendered new (u "new postings") new).
Proof.
  intros Hg Hm Hf pre r o rendered.
  subst o. unfold run_once. rewrite Hg. cbv zeta.
  rewrite max_workers_pos by lia. rewrite Hf.
  fold pre. fold r.
  destruct (fn_result r) as [new_postings|e] eqn:Er.
  - assert (Hlog : fn_logged r = []).
    { subst r. destruct (filter_new_returned _ _ _ _ _ _ Er)
        as [(? & _ & _ & _ & -> & _)|(_ & _ & _ & ->)]; done. }
    rewrite Hlog. cbn [fmap list_fmap app].
    destruct (ingest_only_no_email s) eqn:Ei;
      [|destruct (email_all_even_if_seen s) eqn:Ea;
        [|destruct (decide (new_by_source_of new_postings = [])) as [En|En]]];
      cbn [files_after events returned];
      (split_and!; [done|eexists; split; [done|repeat constructor]|done|]);
      intros ? [= <-]; cbv zeta; subst rendered; cbv beta;
      rewrite ?Ei, ?Ea, ?decide_True, ?decide_False by done; done.
  - assert (Hlog : fn_logged r = [(sqlite_path s, e)]).
    { subst r. by rewrite (filter_new_raised _ _ _ _ _ _ Er). }
    rewrite Hlog. cbn [fmap list_fmap fst snd files_after events returned].
    split_and!; [done|eexists; split; [done|repeat constructor]| |done].
    by intros ? [= <-].
Qed.

(** *** Ingest-only runs *)


(** *** What the rendered document contains *)

Lemma join_contains sep (l : list str) x :
  x ∈ l → ∃ a b, join sep l = a ++ x ++ b.
Proof.
  induction l as [|y l IH]; [by intros ?%elem_of_nil|].
  intros [->|Hx]%elem_of_cons.
  - destruct l as [|z l]; cbn [join].
    + exists [], []. by rewrite app_nil_r.
    + by exists [], (sep ++ join sep (z :: l)).
  - destruct (IH Hx) as (a & b & E). destruct l as [|z l].
    + by apply elem_of_nil in Hx.
    + cbn [join] in *. rewrite E. exists (y ++ sep ++ a), b.
      by rewrite <- !(assoc_L (++)).
Qed.

Lemma od_get_elem {V} (d : list (str * V)) k v : od_get d k = Some v → (k, v) ∈ d.
Proof.
  induction d as [|[k' v'] d IH]; [done|]. cbn [od_get].
  destruct (decide (k' = k)) as [->|].
  - intros [= ->]. by left.
  - intros ?. right. by apply IH.
Qed.

Lemma app_regroup {A} (x1 x2 x3 x4 t1 t2 j t3 : list A) :
  x1 ++ x2 ++ x3 ++ x4 ++ (t1 ++ t2 ++ j ++ t3)
  = (x1 ++ x2 ++ x3 ++ x4 ++ t1 ++ t2) ++ j ++ t3.
Proof. by rewrite <- !(assoc_L (++)). Qed.

Lemma contains_trans {A} (x y z : list A) :
  (∃ a b, y = a ++ x ++ b) → (∃ a b, z = a ++ y ++ b) →
  ∃ a b, z = a ++ x ++ b.
Proof.
  intros (a1 & b1 & ->) (a2 & b2 & ->). exists (a2 ++ a1), (b1 ++ b2).
  by rewrite <- !(assoc_L (++)).
Qed.

Lemma section_contains_rows kv :
  ∃ a b, section_html kv = a ++ join [] (row_html <$> kv.2) ++ b.
Proof. eexists _, _. unfold section_html. apply app_regroup. Qed.

(** The table row of a posting that is in the render set is part of the
    document. *)
Lemma document_contains_row by_source k ps p heading intro :
  od_get by_source k = Some ps → p ∈ ps →
  ∃ a b, wrap_document (build_tables by_source) heading intro
         = a ++ row_html p ++ b.
Proof.
  intros Hk Hp.
  eapply contains_trans; [|eapply contains_trans; [|eapply contains_trans]].
  - apply (join_contains [] (row_html <$> ps)). by apply list_elem_of_fmap_2.
  - apply (section_contains_rows (k, ps)).
  - apply (join_contains [10%N]
             (section_html <$> merge_sort by_key_le by_source)).
    apply list_elem_of_fmap_2. rewrite merge_sort_Permutation.
    by apply od_get_elem.
  - unfold wrap_document, build_tables. apply join_contains.
    rewrite !elem_of_app. right. right. right. by left.
Qed.

Lemma regroup_cell {A} (x1 t x2 l x3 : list A) :
  x1 ++ t ++ x2 ++ l ++ x3 = [] ++ (x1 ++ t ++ x2) ++ l ++ x3.
Proof. by rewrite <- !(assoc_L (++)). Qed.

Lemma regroup_link {A} (x1 t x2 h q e g c x3 : list A) :
  x1 ++ t ++ x2 ++ (h ++ q ++ e ++ q ++ g ++ e ++ c) ++ x3
  = (x1 ++ t ++ x2) ++ (h ++ q ++ e ++ q ++ g) ++ e ++ c ++ x3.
Proof. by rewrite <- !(assoc_L (++)). Qed.

(** What a row shows: the escaped title, or "(no title)", in the first
    cell, and the escaped url as the target of the link. *)
Lemma row_shows p :
  (∃ a b, row_html p = a ++ cell_html p ++ b)
  ∧ (∃ a b, row_html p = a ++ link_open_html p ++ b).
Proof.
  split; eexists _, _; unfold row_html, cell_html, link_open_html; cbv zeta.
  - apply regroup_cell.
  - apply regroup_link.
Qed.

(** *** Runs with [email_all_even_if_seen] *)

(** C3. A run with [email_all_even_if_seen] and without
    [ingest_only_no_email], once the store has taken the postings found,
    returns (html, meta) whatever [filter_new] returned as new, also
    when that is nothing; the render set is the pre-dedupe view: every
    posting of every scrape result is in it under the result's source,
    counted in [meta["by_source"]], and its table row, with its title
    and its link, is part of the html. *)
Theorem email_all_renders_every_posting env s gs fs by_kind f new :
  group_by_kind env s = Ok by_kind →
  0 < max_threads s →
  email_all_even_if_seen s = true →
  ingest_only_no_email s = false →
  fan_out env s (default (registry_get env) gs) by_kind = Ok f →
  fn_result (filter_new fs (sqlite_path s) (Engine.person_env s) (now_iso env)
               (all_postings_of (all_results f))) = Ok new →
  let pre := pre_by_source_of (all_results f) in
  ∃ html meta,
    returned (run_once env s gs fs) = Ok (Some (html, meta))
    ∧ html = wrap_document (build_tables pre) (heading_of s) (message meta)
    ∧ by_source meta = counts pre
    ∧ ∀ r p, r ∈ all_results f → p ∈ items r →
        (∃ ps, od_get pre (sr_source r) = Some ps ∧ p ∈ ps)
        ∧ (∃ a b, html = a ++ row_html p ++ b)
        ∧ (∃ a b, html = a ++ cell_html p ++ b)
        ∧ (∃ a b, html = a ++ link_open_html p ++ b).
Proof.
  intros Hg Hm Ha Hi Hf Hnew pre.
  destruct (run_once_cases env s gs fs by_kind f Hg Hm Hf) as (_ & _ & _ & Hr).
  specialize (Hr new Hnew). cbv zeta in Hr. rewrite Ha, Hi in Hr. fold pre in Hr.
  eexists _, _. split; [exact Hr|]. cbn [message by_source].
  split_and!; [done..|].
  intros r p Hr' Hp.
  assert (Hps : od_get pre (sr_source r) = Some (items_of (sr_source r) (all_results f))
                ∧ p ∈ items_of (sr_source r) (all_results f)).
  { subst pre. rewrite pre_by_source_get.
    rewrite decide_True by by apply list_elem_of_fmap_2. split; [done|].
    unfold items_of. apply list_elem_of_bind. exists r. split; [|done].
    by rewrite decide_True. }
  destruct Hps as [Hget Hin].
  pose proof (document_contains_row pre _ _ p (heading_of s)
                (_summary_message pre (Engine.person_env s) (u "all postings"))
                Hget Hin) as Hrow.
  split_and!; [by eexists|done| |].
  - eapply contains_trans; [apply row_shows|done].
  - eapply contains_trans; [apply row_shows|done].
Qed.

(** C10. When a run with [email_all_even_if_seen] returns (html, meta),
    the subject and [meta["new_total"]] are computed from the postings
    [filter_new] returned, while the html and [meta["by_source"]] come
    from the full pre-dedupe set, every posting found having its row in
    the html.  [new_total] is the number of new postings; the subject is
    "Career Watch — 0 new jobs (0 companies)" when there is none,
    "Career Watch — N new at SRC" when they all come from the source
    SRC, and "Career Watch — N new jobs (K companies)" when they come
    from K sources, two or more. *)
Theorem email_all_subject_counts_new_only env s gs fs by_kind f html meta :
  group_by_kind env s = Ok by_kind →
  0 < max_threads s →
  email_all_even_if_seen s = true →
  fan_out env s (default (registry_get env) gs) by_kind = Ok f →
  returned (run_once env s gs fs) = Ok (Some (html, meta)) →
  let pre := pre_by_source_of (all_results f) in
  let n new_postings := str_of_Z (Z.of_nat (length new_postings)) in
  ∃ new_postings,
    fn_result (filter_new fs (sqlite_path s) (Engine.person_env s) (now_iso env)
                 (all_postings_of (all_results f))) = Ok new_postings
    ∧ new_total meta = Z.of_nat (length new_postings)
    ∧ html = wrap_document (build_tables pre) (heading_of s) (message meta)
    ∧ by_source meta = counts pre
    ∧ (∀ r p, r ∈ all_results f → p ∈ items r →
         ∃ a b, html = a ++ row_html p ++ b)
    ∧ (new_postings = [] →
       new_total meta = 0
       ∧ subject meta = u "Career Watch " ++ dash ++ u " 0 new jobs (0 companies)")
    ∧ (∀ src, new_postings ≠ [] →
         (∀ q, q ∈ new_postings → source q = src) →
         subject meta
         = u "Career Watch " ++ dash ++ u " " ++ n new_postings
           ++ u " new at " ++ src)
    ∧ (∀ q1 q2, q1 ∈ new_postings → q2 ∈ new_postings →
         source q1 ≠ source q2 →
         subject meta
         = u "Career Watch " ++ dash ++ u " " ++ n new_postings
           ++ u " new jobs ("
           ++ str_of_Z (Z.of_nat (length (remove_dups (source <$> new_postings))))
           ++ u " companies)").
Proof.
  intros Hg Hm Ha Hf Hret pre n.
  destruct (run_once_cases env s gs fs by_kind f Hg Hm Hf)
    as (_ & _ & Hraise & Hr).
  destruct (fn_result (filter_new fs (sqlite_path s) (Engine.person_env s)
              (now_iso env) (all_postings_of (all_results f))))
    as [new_postings|e] eqn:Er.
  2:{ destruct (Hraise e eq_refl) as [Hx _]. rewrite Hret in Hx. done. }
  specialize (Hr new_postings eq_refl). cbv zeta in Hr.
  rewrite Hret, Ha in Hr. fold pre in Hr.
  destruct (ingest_only_no_email s) eqn:Ei; [done|].
  injection Hr as -> ->. cbn [new_total subject message by_source].
  rewrite sum_values_new_by_source.
  destruct (subject_of_cases new_postings (Z.of_nat (length new_postings)))
    as (H0 & H1 & H2).
  exists new_postings. split_and!; [done..| | | |].
  - intros r p Hr' Hp.
    eapply document_contains_row.
    + subst pre. rewrite pre_by_source_get.
      by rewrite decide_True by by apply list_elem_of_fmap_2.
    + unfold items_of. apply list_elem_of_bind. exists r. split; [|done].
      by rewrite decide_True.
  - intros ->. split; [done|]. by rewrite H0.
  - intros src Hne Hsrc. by apply H1.
  - intros q1 q2 Hq1 Hq2 Hne. by apply (H2 q1 q2).
Qed.

(** *** Failing kinds *)

(** When the task of a kind raises: at the lookup of the class, at its
    instantiation, or in [run]. *)
Lemma run_kind_raises env s g kind specs e :
  (_run_kind env s g kind specs).2 = Raise e ↔
  skip_network s = false
  ∧ (g kind = Raise e
     ∨ g kind = Ok (Raise e)
     ∨ ∃ sc, g kind = Ok (Ok sc)
             ∧ sc (Engine.person_env s) specs (skip_network s) = Raise e).
Proof.
  unfold _run_kind. destruct (skip_network s); cbn [snd].
  - split; [done|]. by intros [? _].
  - destruct (g kind) as [[sc|e']|e']; cbn [snd].
    + destruct (sc (Engine.person_env s) specs false) as [rs|e'] eqn:E;
        cbn [snd].
      * split; [done|]. intros [_ [?|[?|(sc' & [= <-] & ?)]]]; congruence.
      * split.
        -- intros [= ->]. split; [done|]. right. right. by exists sc.
        -- intros [_ [?|[?|(sc' & [= <-] & ?)]]]; congruence.
    + split.
      * intros [= ->]. split; [done|]. right. by left.
      * intros [_ [?|[?|(sc' & ? & ?)]]]; congruence.
    + split.
      * intros [= ->]. split; [done|]. by left.
      * intros [_ [?|[?|(sc' & ? & ?)]]]; congruence.
Qed.

(** C8. In a run whose configuration loads and in which what the tasks
    raise are exceptions, instances of [Exception], the loop over the
    futures catches them all: a kind whose task raises, at the
    resolution of its class, at its instantiation or in [run],
    contributes no result, and the error record with that kind and the
    [repr] of the exception is logged.  The run goes on to [filter_new]
    with the postings of the other kinds and to its outcome; it raises
    only if [filter_new] does. *)
Theorem kind_exception_is_contained env s gs fs by_kind :
  group_by_kind env s = Ok by_kind →
  0 < max_threads s →
  let g := default (registry_get env) gs in
  (∀ fut e, fut ∈ by_kind →
     (_run_kind env s g fut.1 fut.2).2 = Raise e → is_exception e = true) →
  let o := run_once env s gs fs in
  ∃ f,
    fan_out env s g by_kind = Ok f
    ∧ all_results f = as_completed env by_kind ≫= task_results env s g
    ∧ (let r := filter_new fs (sqlite_path s) (Engine.person_env s)
                  (now_iso env) (all_postings_of (all_results f)) in
       files_after o = fn_files r
       ∧ (∀ new, fn_result r = Ok new → ∃ res, returned o = Ok res)
       ∧ (∀ x, returned o = Raise x →
            ∃ e, fn_result r = Raise e ∧ x = StoreError e))
    ∧ ∀ kind specs e,
        (kind, specs) ∈ by_kind →
        skip_network s = false →
        (g kind = Raise e
         ∨ g kind = Ok (Raise e)
         ∨ ∃ sc, g kind = Ok (Ok sc)
                 ∧ sc (Engine.person_env s) specs (skip_network s) = Raise e) →
        is_exception e = true
        ∧ task_results env s g (kind, specs) = []
        ∧ LogScraperError kind (repr e) ∈ events o.
Proof.
  intros Hg Hm g Hexc o.
  destruct (fan_out_caught env s g by_kind) as (f & Hf).
  { apply Forall_forall. intros fut Hin e He. by eapply Hexc. }
  destruct (run_once_cases env s gs fs by_kind f Hg Hm Hf)
    as (Hfiles & (tail & Hev & _) & Hraise & Hret).
  fold o in Hfiles, Hev, Hraise, Hret.
  destruct (fan_out_ok env s g by_kind f Hf) as (Hres & Htr & _).
  exists f. split; [done|]. split; [done|]. split; [cbv zeta; split_and!|].
  - done.
  - intros new Hn. rewrite (Hret new Hn). cbv zeta. repeat case_match; by eexists.
  - intros x Hx.
    destruct (fn_result (filter_new fs (sqlite_path s) (Engine.person_env s)
                (now_iso env) (all_postings_of (all_results f))))
      as [new|e] eqn:Er.
    + rewrite (Hret new eq_refl) in Hx. cbv zeta in Hx.
      repeat case_match; done.
    + destruct (Hraise e eq_refl) as [Hx' _]. rewrite Hx' in Hx.
      injection Hx as <-. by exists e.
  - intros kind specs e Hin Hskip Hr.
    assert (HR : (_run_kind env s g kind specs).2 = Raise e).
    { apply run_kind_raises. by split. }
    split_and!.
    + by apply (Hexc (kind, specs) e).
    + unfold task_results. cbn [fst snd]. by rewrite HR.
    + rewrite Hev. apply elem_of_app. left.
      rewrite Htr. apply list_elem_of_bind.
      exists (kind, specs). split.
      * unfold task_events. cbn [fst snd]. rewrite HR.
        apply elem_of_app. right. by left.
      * by rewrite as_completed_perm.
Qed.

(** *** Runs with [skip_network] *)





(** *** Runs of the sample configuration *)


(** Witnesses: the sample run under each mode, on an empty store and on
    the store a first run has filled. *)


Lemma email_all_renders_every_posting_witness :
  let s := sample_settings false true false in
  ∃ f html meta,
    group_by_kind sample_env s = Ok sample_by_kind
    ∧ 0 < max_threads s
    ∧ email_all_even_if_seen s = true
    ∧ ingest_only_no_email s = false
    ∧ fan_out sample_env s (default (registry_get sample_env) None)
        sample_by_kind = Ok f
    ∧ length (all_postings_of (all_results f)) = 1%nat
    ∧ fn_result (filter_new sample_seen (sqlite_path s) (Engine.person_env s)
                   (now_iso sample_env) (all_postings_of (all_results f)))
      = Ok []
    ∧ returned (run_once sample_env s None sample_seen) = Ok (Some (html, meta))
    ∧ by_source meta = [(u "lever:acme", 1)].
Proof.
  intros s.
  pose (f := match fan_out sample_env s (default (registry_get sample_env) None)
                     sample_by_kind with
             | Ok f => f
             | Raise _ => mkFan [] [] []
             end).
  assert (Hg : group_by_kind sample_env s = Ok sample_by_kind) by reflexivity.
  assert (Hm : 0 < max_threads s) by reflexivity.
  assert (Hf : fan_out sample_env s (default (registry_get sample_env) None)
                 sample_by_kind = Ok f) by (vm_compute; reflexivity).
  assert (Hn : fn_result (filter_new sample_seen (sqlite_path s)
                 (Engine.person_env s) (now_iso sample_env)
                 (all_postings_of (all_results f)))
               = Ok []) by (vm_compute; reflexivity).
  destruct (email_all_renders_every_posting sample_env s None sample_seen
              sample_by_kind f [] Hg Hm eq_refl eq_refl Hf Hn)
    as (html & meta & Hr & _ & Hb & _).
  exists f, html, meta.
  split_and!; [exact Hg|exact Hm|reflexivity|reflexivity|exact Hf|reflexivity
              |exact Hn|exact Hr|].
  rewrite Hb. reflexivity.
Defined.

Lemma email_all_subject_counts_new_only_witness :
  let s := sample_settings false true false in
  ∃ f html meta,
    group_by_kind sample_env s = Ok sample_by_kind
    ∧ 0 < max_threads s
    ∧ email_all_even_if_seen s = true
    ∧ fan_out sample_env s (default (registry_get sample_env) None)
        sample_by_kind = Ok f
    ∧ returned (run_once sample_env s None sample_seen) = Ok (Some (html, meta))
    ∧ length (all_postings_of (all_results f)) = 1%nat
    ∧ by_source meta = [(u "lever:acme", 1)]
    ∧ new_total meta = 0
    ∧ subject meta = u "Career Watch " ++ dash ++ u " 0 new jobs (0 companies)".
Proof.
  intros s.
  pose (f := match fan_out sample_env s (default (registry_get sample_env) None)
                     sample_by_kind with
             | Ok f => f
             | Raise _ => mkFan [] [] []
             end).
  assert (Hg : group_by_kind sample_env s = Ok sample_by_kind) by reflexivity.
  assert (Hm : 0 < max_threads s) by reflexivity.
  assert (Hf : fan_out sample_env s (default (registry_get sample_env) None)
                 sample_by_kind = Ok f) by (vm_compute; reflexivity).
  destruct (returned (run_once sample_env s None sample_seen))
    as [[[html meta]|]|] eqn:E; [|vm_compute in E; discriminate E..].
  exists f, html, meta.
  destruct (email_all_subject_counts_new_only sample_env s None sample_seen
              sample_by_kind f html meta Hg Hm eq_refl Hf E)
    as (new & Hn & Ht & _ & Hb & _ & H0 & _).
  assert (Hnil : new = []).
  { vm_compute in Hn. by injection Hn as <-. }
  split_and!; [exact Hg|exact Hm|reflexivity|exact Hf|reflexivity|reflexivity
              |rewrite Hb; reflexivity
              |exact (proj1 (H0 Hnil))|exact (proj2 (H0 Hnil))].
Defined.

Lemma kind_exception_is_contained_witness :
  let s := sample_settings false false false in
  let o := run_once sample_env s None ∅ in
  group_by_kind sample_env s = Ok sample_by_kind
  ∧ 0 < max_threads s
  ∧ registry_get sample_env (u "greenhouse") = Ok (Ok failing_run)
  ∧ (∃ res, returned o = Ok res)
  ∧ LogScraperError (u "greenhouse") (u "RuntimeError('boom')") ∈ events o.
Proof.
  intros s o.
  assert (Hg : group_by_kind sample_env s = Ok sample_by_kind) by reflexivity.
  assert (Hm : 0 < max_threads s) by reflexivity.
  assert (Hc : ∀ fut e, fut ∈ sample_by_kind →
            (_run_kind sample_env s (default (registry_get sample_env) None)
               fut.1 fut.2).2 = Raise e →
            is_exception e = true).
  { intros fut e Hin He. unfold sample_by_kind in Hin.
    apply elem_of_cons in Hin as [->|Hin];
      [|apply elem_of_cons in Hin as [->|Hin];
        [|by apply elem_of_nil in Hin]];
      vm_compute in He; [discriminate He|].
    by injection He as <-. }
  destruct (kind_exception_is_contained sample_env s None ∅ sample_by_kind
              Hg Hm Hc) as (f & Hf & _ & (_ & Hok & _) & Hlog).
  split_and!; [exact Hg|exact Hm|reflexivity| |].
  - apply (Hok [mkPosting (u "lever:acme") (u "Test User")
                  (u "lever:acme - Engineer")
                  (u "https://example.com/lever:acme/1")]).
    vm_compute in Hf. injection Hf as <-. vm_compute. reflexivity.
  - refine (proj2 (proj2 (Hlog (u "greenhouse")
              [mkScraperConfig (u "greenhouse") (u "greenhouse:acme") (VDict [])]
              (mkExc true (u "RuntimeError('boom')")) _ eq_refl _))).
    + unfold sample_by_kind. right. left.
    + right. right. exists failing_run. split; reflexivity.
Defined.


End EngineFacts.

(** * Further properties *)

(** ** More on [strip] *)

Module PyMore.
Import PyFacts.

Lemma lstrip_split (s : str) :
  ∃ ws, s = ws ++ lstrip s ∧ Forall (λ c, isspace c = true) ws.
Proof.
  induction s as [|c s (ws & E & Hws)]; [by exists []|]. cbn [lstrip].
  destruct (isspace c) eqn:Ec.
  - exists (c :: ws). split; [|by constructor].
    rewrite E at 1. done.
  - by exists [].
Qed.

Lemma lstrip_fixed (s : str) :
  match s with c :: _ => isspace c = false | [] => True end → lstrip s = s.
Proof. destruct s as [|c s]; [done|]. cbn [lstrip]. by intros ->. Qed.

Lemma lstrip_head (s : str) :
  match lstrip s with c :: _ => isspace c = false | [] => True end.
Proof.
  induction s as [|c s IH]; [done|]. cbn [lstrip].
  by destruct (isspace c) eqn:Ec.
Qed.

Lemma lstrip_idemp (s : str) : lstrip (lstrip s) = lstrip s.
Proof. apply lstrip_fixed, lstrip_head. Qed.

Lemma rstrip_split (s : str) :
  ∃ ws, s = rstrip s ++ ws ∧ Forall (λ c, isspace c = true) ws.
Proof.
  destruct (lstrip_split (reverse s)) as (ws & E & Hws).
  exists (reverse ws). split; [|by apply Forall_reverse].
  unfold rstrip. rewrite <- reverse_app, <- E. by rewrite reverse_involutive.
Qed.

(** [strip] is idempotent: a stored key is its own trimmed form. *)
Lemma strip_idemp (s : str) : strip (strip s) = strip s.
Proof.
  unfold strip.
  assert (Hh : match rstrip (lstrip s) with
               | c :: _ => isspace c = false | [] => True end).
  { pose proof (lstrip_head s) as Hl.
    destruct (rstrip_split (lstrip s)) as (ws & E & _).
    destruct (rstrip (lstrip s)) as [|c r]; [done|].
    rewrite E in Hl. exact Hl. }
  rewrite (lstrip_fixed _ Hh). unfold rstrip at 1.
  unfold rstrip. rewrite reverse_involutive, lstrip_idemp. done.
Qed.

End PyMore.
(** ** More on the dedup store *)

Module DbMore.
Import Db PyFacts PyMore DbFacts.

Lemma key_of_appended person p :
  key_of person (appended person p) = key_of person p.
Proof.
  unfold appended. destruct (decide _); [|done].
  unfold key_of. cbn [source title url]. by rewrite !strip_idemp.
Qed.

(** The postings returned have pairwise distinct keys, none of them seen
    before. *)
Lemma fresh_keys person ps : ∀ seen,
  NoDup (key_of person <$> fresh person seen ps)
  ∧ ∀ k, k ∈ (key_of person <$> fresh person seen ps) →
         (k ∉ seen) ∧ k ∈ (key_of person <$> ps).
Proof.
  induction ps as [|p ps IH]; intros seen; cbn [fresh].
  - split; [constructor|]. by intros k ?%elem_of_nil.
  - destruct (decide (key_of person p ∈ seen)) as [Hin|Hnin].
    + destruct (IH seen) as [Hnd Hk]. split; [done|].
      intros k Hk'. destruct (Hk k Hk') as [? ?]. split; [done|].
      rewrite fmap_cons. by right.
    + destruct (IH (seen ++ [key_of person p])) as [Hnd Hk].
      rewrite fmap_cons, key_of_appended. split.
      * apply NoDup_cons. split; [|done]. intros Hin.
        destruct (Hk _ Hin) as [Hn _]. apply Hn, elem_of_app. right. by left.
      * intros k [->|Hk']%elem_of_cons.
        -- split; [done|]. rewrite fmap_cons. by left.
        -- destruct (Hk k Hk') as [Hn ?]. split.
           ++ intros ?. apply Hn, elem_of_app. by left.
           ++ rewrite fmap_cons. by right.
Qed.

Lemma fresh_length person ps : ∀ seen,
  (length (fresh person seen ps) ≤ length ps)%nat.
Proof.
  induction ps as [|p ps IH]; intros seen; cbn [fresh length]; [lia|].
  destruct (decide _); cbn [length];
    [specialize (IH seen)|specialize (IH (seen ++ [key_of person p]))]; lia.
Qed.

Lemma fresh_sublist person ps : ∀ seen,
  fresh person seen ps `sublist_of` (appended person <$> ps).
Proof.
  induction ps as [|p ps IH]; intros seen; cbn [fresh]; [constructor|].
  rewrite fmap_cons. destruct (decide _).
  - apply sublist_cons, IH.
  - apply sublist_skip, IH.
Qed.

Lemma fresh_ext person ps : ∀ seen seen',
  (∀ p, p ∈ ps → key_of person p ∈ seen ↔ key_of person p ∈ seen') →
  fresh person seen ps = fresh person seen' ps.
Proof.
  induction ps as [|p ps IH]; intros seen seen' H; cbn [fresh]; [done|].
  assert (Hp := H p (list_elem_of_here _ _)).
  destruct (decide (key_of person p ∈ seen)) as [Hin|Hnin].
  - rewrite decide_True by by apply Hp.
    apply IH. intros q Hq. apply H. by right.
  - rewrite decide_False by (by rewrite <- Hp).
    f_equal. apply IH. intros q Hq. rewrite !elem_of_app.
    rewrite (H q) by by right. done.
Qed.

(** The rows the loop adds: one per returned posting, in order, with its
    key and the timestamp of the call. *)
Lemma filter_loop_rows person ts ps : ∀ t acc,
  ∃ t', foldl (filter_step person ts) (t, acc) ps
        = (t ++ t', acc ++ fresh person (keys t) ps)
      ∧ keys t' = key_of person <$> fresh person (keys t) ps
      ∧ Forall (λ r, first_seen_utc r = ts) t'.
Proof.
  induction ps as [|p ps IH]; intros t acc; cbn [foldl fresh].
  - exists []. rewrite !app_nil_r. done.
  - destruct (decide (key_of person p ∈ keys t)) as [Hin|Hnin].
    + rewrite filter_step_seen by done. apply IH.
    + rewrite filter_step_new by done.
      destruct (IH (t ++ [new_row (key_of person p) ts])
                   (acc ++ [appended person p])) as (t' & -> & Hk & Hts).
      exists (new_row (key_of person p) ts :: t').
      rewrite keys_snoc, row_key_new_row in *.
      rewrite <- !(assoc_L (++)). cbn [app].
      split_and!; [done| |by constructor].
      unfold keys in *. rewrite !fmap_cons, row_key_new_row, Hk.
      by rewrite key_of_appended.
Qed.

Lemma table_at_insert (fs : files) path (t : table) :
  table_at (<[path := t]> fs) path = t.
Proof. unfold table_at. by rewrite lookup_insert_eq. Qed.

Lemma count_rows_table_at fs path :
  transient path = false →
  count_rows fs path = Z.of_nat (length (table_at fs path)).
Proof.
  intros Ht. unfold count_rows, table_at. rewrite Ht. by destruct (fs !! path).
Qed.

Lemma init_db_other fs path path' :
  path' ≠ path → init_db fs path !! path' = fs !! path'.
Proof.
  intros Hne. unfold init_db. destruct (transient path); [done|].
  destruct (fs !! path); [done|]. by rewrite lookup_insert_ne.
Qed.

(** What a call leaves, in full: the rows it adds, what it returns or
    raises, what it logs, and the other files. *)
Lemma filter_new_shape fs path person ts ps :
  let r := filter_new fs path person ts ps in
  ∃ t', table_at (fn_files r) path = table_at fs path ++ t'
      ∧ Forall (λ row, first_seen_utc row = ts) t'
      ∧ (∀ new, fn_result r = Ok new →
           new = fresh person (keys (table_at fs path)) ps
           ∧ keys t' = key_of person <$> new
           ∧ fn_logged r = [])
      ∧ (∀ e, fn_result r = Raise e → t' = [] ∧ fn_logged r = [(path, e)])
      ∧ (∀ path', path' ≠ path → fn_files r !! path' = fs !! path').
Proof.
  cbv zeta. unfold filter_new. cbv zeta. destruct (transient path) eqn:Htr.
  - exists []. rewrite app_nil_r.
    assert (Hi : init_db fs path = fs) by (unfold init_db; by rewrite Htr).
    rewrite Hi. destruct ps as [|p ps]; cbn [fn_result fn_files fn_logged];
      split_and!; try done.
    + by intros new [= <-].
    + by intros e [= <-].
  - fold (table_at (init_db fs path) path). rewrite table_at_init_db.
    destruct (decide (storable person ts ps)) as [Hs|Hs].
    + rewrite run_loop_ok by done.
      destruct (filter_loop_rows person ts ps (table_at fs path) [])
        as (t' & -> & Hk & Hts).
      cbn [fn_result fn_files fn_logged]. exists t'.
      rewrite insert_init_db, table_at_insert.
      split_and!; [done|done| |done|].
      * by intros new [= <-].
      * intros path' Hne. by rewrite lookup_insert_ne.
    + rewrite run_loop_raise by done.
      cbn [fn_result fn_files fn_logged]. exists [].
      rewrite app_nil_r, table_at_init_db.
      split_and!; [done|done|done| |].
      * by intros e [= <-].
      * intros path' Hne. by apply init_db_other.
Qed.

(** X1. The row count follows what a call returns: after a call that
    returns, [count_rows] is what it was plus the length of the returned
    list, which is at most the length of the input; after a call that
    raises it is what it was. *)
Theorem count_rows_filter_new fs path person ts ps :
  let r := filter_new fs path person ts ps in
  (∀ new, fn_result r = Ok new →
     count_rows (fn_files r) path = count_rows fs path + Z.of_nat (length new)
     ∧ (length new ≤ length ps)%nat)
  ∧ (∀ e, fn_result r = Raise e →
       count_rows (fn_files r) path = count_rows fs path).
Proof.
  intros r. subst r.
  destruct (filter_new_shape fs path person ts ps)
    as (t' & Ht & _ & Hok & Hraise & _).
  destruct (transient path) eqn:Htr.
  - unfold count_rows. rewrite Htr. split.
    + intros new Hr. destruct (Hok new Hr) as (-> & _).
      destruct (filter_new_returned _ _ _ _ _ _ Hr)
        as [(? & ? & _)|(_ & -> & _)]; [congruence|]. done.
    + done.
  - rewrite !count_rows_table_at, Ht by done. split.
    + intros new Hr. destruct (Hok new Hr) as (-> & Hk & _).
      apply (f_equal length) in Hk. unfold keys at 1 in Hk.
      rewrite !length_fmap in Hk. rewrite length_app, Hk.
      split; [lia|apply fresh_length].
    + intros e Hr. destruct (Hraise e Hr) as [-> _]. by rewrite app_nil_r.
Qed.

Lemma count_rows_filter_new_witness :
  let person := u "The Archivist" in
  let p := mkPosting (u "s1") person (u "T1") (u "U1") in
  let q := mkPosting (u "s1") person (u "T2") (u "U2") in
  let fs := fn_files (filter_new ∅ (u "cw.db") person (u "t0") [p]) in
  fn_result (filter_new fs (u "cw.db") person (u "t1") [q; p; q]) = Ok [q]
  ∧ count_rows fs (u "cw.db") = 1
  ∧ count_rows (fn_files (filter_new fs (u "cw.db") person (u "t1") [q; p; q]))
      (u "cw.db") = 2.
Proof.
  intros person p q fs.
  assert (H : fn_result (filter_new fs (u "cw.db") person (u "t1") [q; p; q])
              = Ok [q]) by reflexivity.
  split_and!; [exact H|reflexivity|].
  rewrite (proj1 (proj1 (count_rows_filter_new fs (u "cw.db") person (u "t1")
                           [q; p; q]) [q] H)).
  reflexivity.
Defined.



(** X3. The unique index holds: if the stored keys are pairwise
    distinct they still are after a call, and the postings a call
    returns have pairwise distinct keys, none of which was stored
    before. *)
Theorem filter_new_keeps_keys_unique fs path person ts ps :
  NoDup (keys (table_at fs path)) →
  let r := filter_new fs path person ts ps in
  NoDup (keys (table_at (fn_files r) path))
  ∧ ∀ new, fn_result r = Ok new →
      NoDup (key_of person <$> new)
      ∧ ∀ q, q ∈ new → key_of person q ∉ keys (table_at fs path).
Proof.
  intros Hnd r. subst r.
  destruct (filter_new_shape fs path person ts ps)
    as (t' & Ht & _ & Hok & Hraise & _).
  destruct (fresh_keys person ps (keys (table_at fs path))) as [Hf Hfk].
  split.
  - rewrite Ht.
    destruct (fn_result (filter_new fs path person ts ps)) as [new|e] eqn:Er.
    + destruct (Hok new eq_refl) as (-> & Hk & _).
      unfold keys in *. rewrite fmap_app. apply NoDup_app.
      split_and!; [done| |by rewrite Hk].
      intros k Hk1 Hk2. rewrite Hk in Hk2. by destruct (Hfk k Hk2).
    + destruct (Hraise e eq_refl) as [-> _]. by rewrite app_nil_r.
  - intros new Hr. destruct (Hok new Hr) as (-> & _). split; [done|].
    intros q Hq. apply (Hfk (key_of person q)). by apply list_elem_of_fmap_2.
Qed.

Lemma filter_new_keeps_keys_unique_witness :
  let person := u "The Archivist" in
  let p := mkPosting (u "s1") person (u "T1") (u "U1") in
  let padded := mkPosting (u " s1 ") person (u "T1") (u "U1") in
  let fs := fn_files (filter_new ∅ (u "cw.db") person (u "t0") [p]) in
  NoDup (keys (table_at fs (u "cw.db")))
  ∧ length (table_at fs (u "cw.db")) = 1%nat
  ∧ NoDup (keys (table_at
             (fn_files (filter_new fs (u "cw.db") person (u "t1")
                          [padded; p; padded])) (u "cw.db"))).
Proof.
  intros person p padded fs.
  assert (H : NoDup (keys (table_at fs (u "cw.db")))).
  { vm_compute. apply NoDup_singleton. }
  split_and!; [exact H|reflexivity|].
  exact (proj1 (filter_new_keeps_keys_unique fs (u "cw.db") person (u "t1")
                  [padded; p; padded] H)).
Defined.

(** X4. The store is append-only and stores what it returns: after a
    call the rows stored before are in place, unchanged, and behind
    them is one row for each posting the call returned, in that order,
    with that posting's key and the timestamp of the call. *)
Theorem filter_new_stores_what_it_returns fs path person ts ps new :
  fn_result (filter_new fs path person ts ps) = Ok new →
  ∃ t', table_at (fn_files (filter_new fs path person ts ps)) path
        = table_at fs path ++ t'
      ∧ t' = (λ q, new_row (key_of person q) ts) <$> new.
Proof.
  intros Hr.
  destruct (filter_new_shape fs path person ts ps)
    as (t' & Ht & Hts & Hok & _).
  destruct (Hok new Hr) as (_ & Hk & _).
  exists t'. split; [done|].
  clear Ht Hok Hr. revert new Hk.
  induction Hts as [|row t' Hrow _ IH]; intros [|q new] Hk; try done.
  unfold keys in *. rewrite !fmap_cons in Hk.
  apply (inj2 cons) in Hk as [Hq Hk].
  rewrite fmap_cons, <- (IH new Hk). f_equal.
  destruct row as [a b c d e]. unfold row_key, new_row in *.
  cbn [r_source r_person r_title r_url first_seen_utc] in *.
  rewrite <- Hq. cbn [fst snd]. by rewrite Hrow.
Qed.

Lemma filter_new_stores_what_it_returns_witness :
  let person := u " The Archivist" in
  let p := mkPosting (u "s1 ") (u "x") (u "T1") (u "U1") in
  fn_result (filter_new ∅ (u "cw.db") person (u "t0") [p; p])
  = Ok [mkPosting (u "s1") (u "The Archivist") (u "T1") (u "U1")]
  ∧ table_at (fn_files (filter_new ∅ (u "cw.db") person (u "t0") [p; p]))
      (u "cw.db")
    = [mkRow (u "s1") (u "The Archivist") (u "T1") (u "U1") (u "t0")].
Proof.
  intros person p.
  assert (H : fn_result (filter_new ∅ (u "cw.db") person (u "t0") [p; p])
              = Ok [mkPosting (u "s1") (u "The Archivist") (u "T1") (u "U1")])
    by reflexivity.
  split; [exact H|].
  destruct (filter_new_stores_what_it_returns ∅ (u "cw.db") person (u "t0")
              [p; p] _ H) as (t' & -> & ->).
  reflexivity.
Defined.







(** X8. The returned list keeps the order of the input: it is a
    subsequence of the input postings, each in the form in which it is
    appended. *)
Theorem filter_new_keeps_order fs path person ts ps new :
  fn_result (filter_new fs path person ts ps) = Ok new →
  new `sublist_of` (appended person <$> ps).
Proof.
  intros Hr.
  destruct (filter_new_shape fs path person ts ps) as (t' & _ & _ & Hok & _).
  destruct (Hok new Hr) as (-> & _). apply fresh_sublist.
Qed.

Lemma filter_new_keeps_order_witness :
  let person := u "The Archivist" in
  let p1 := mkPosting (u "s1") person (u "T1") (u "U1") in
  let p2 := mkPosting (u "s1") person (u "T2") (u "U2") in
  let p3 := mkPosting (u "s1") person (u "T3") (u "U3") in
  let fs := fn_files (filter_new ∅ (u "cw.db") person (u "t0") [p2]) in
  fn_result (filter_new fs (u "cw.db") person (u "t1") [p3; p2; p1])
  = Ok [p3; p1]
  ∧ [p3; p1] `sublist_of` (appended person <$> [p3; p2; p1]).
Proof.
  intros person p1 p2 p3 fs.
  assert (H : fn_result (filter_new fs (u "cw.db") person (u "t1") [p3; p2; p1])
              = Ok [p3; p1]) by reflexivity.
  split; [exact H|].
  exact (filter_new_keeps_order fs (u "cw.db") person (u "t1") [p3; p2; p1]
           [p3; p1] H).
Defined.

(** X9. Stores are partitioned by person: what a call for one person
    left in the store has no effect on what a later call for a person
    with another trimmed name returns or raises; the same posting is new
    once per person. *)
Theorem filter_new_per_person fs path person1 person2 ts1 ts2 ps1 ps :
  strip person1 ≠ strip person2 →
  fn_result (filter_new (fn_files (filter_new fs path person1 ts1 ps1)) path
               person2 ts2 ps)
  = fn_result (filter_new fs path person2 ts2 ps).
Proof.
  intros Hne.
  destruct (filter_new_table fs path person1 ts1 ps1) as (t1 & Ht1 & Hrows).
  set (fs1 := fn_files (filter_new fs path person1 ts1 ps1)) in *.
  unfold filter_new. cbv zeta. destruct (transient path) eqn:Htr.
  - by destruct ps.
  - fold (table_at (init_db fs1 path) path) (table_at (init_db fs path) path).
    rewrite !table_at_init_db, Ht1.
    destruct (decide (storable person2 ts2 ps)) as [Hs|Hs].
    + rewrite !run_loop_ok by done.
      destruct (filter_loop person2 ts2 ps (table_at fs path ++ t1) [])
        as (ta & -> & _).
      destruct (filter_loop person2 ts2 ps (table_at fs path) [])
        as (tb & -> & _).
      cbn [fn_result app]. f_equal. apply fresh_ext.
      intros p _. unfold keys. rewrite fmap_app, elem_of_app.
      split; [|by left]. intros [?|Hin]; [done|]. exfalso.
      apply list_elem_of_fmap in Hin as (r & Hk & Hr).
      rewrite Forall_forall in Hrows. destruct (Hrows r Hr) as (_ & Hper & _).
      apply Hne. rewrite <- Hper. unfold key_of, row_key in Hk. congruence.
    + by rewrite !run_loop_raise by done.
Qed.

Lemma filter_new_per_person_witness :
  let p := mkPosting (u "s1") (u "x") (u "T1") (u "U1") in
  let fs := fn_files (filter_new ∅ (u "cw.db") (u "Ann ") (u "t0") [p]) in
  strip (u "Ann ") ≠ strip (u "Bob")
  ∧ fn_result (filter_new fs (u "cw.db") (u "Bob") (u "t1") [p])
    = Ok [mkPosting (u "s1") (u "Bob") (u "T1") (u "U1")]
  ∧ fn_result (filter_new fs (u "cw.db") (u " Ann") (u "t1") [p]) = Ok [].
Proof.
  intros p fs.
  assert (H : strip (u "Ann ") ≠ strip (u "Bob")) by (vm_compute; discriminate).
  split_and!; [exact H| |reflexivity].
  subst fs.
  rewrite (filter_new_per_person ∅ (u "cw.db") (u "Ann ") (u "Bob") (u "t0")
             (u "t1") [p] [p] H).
  reflexivity.
Defined.

End DbMore.
(** ** More on the scrape engine *)

Module EngineMore.
Import Db Engine PyFacts DbFacts EngineFacts DbMore.

Lemma bind_filter_singleton {A} (P : A → Prop) `{∀ x, Decision (P x)} (l : list A) :
  l ≫= (λ x, if decide (P x) then [x] else []) = filter P l.
Proof.
  induction l as [|x l IH]; [done|]. cbn [mbind list_bind].
  rewrite filter_cons, IH. by destruct (decide (P x)).
Qed.

Lemma bind_singleton {A} (l : list A) : l ≫= (λ x, [x]) = l.
Proof.
  induction l as [|x l IH]; [done|]. cbn [mbind list_bind app]. by rewrite IH.
Qed.

Lemma selected_nonempty env s selected :
  _selected_scrapers env s = Ok selected → selected ≠ [].
Proof.
  unfold _selected_scrapers. destruct (decide (_selected s ≠ [])) as [Hs|Hs].
  - by intros [= <-].
  - destruct (read_groups env s) as [l|e]; cbn [mbind result_bind]; [|done].
    destruct (decide (l = [])); [done|]. by intros [= <-].
Qed.

(** X10. [group_by_kind] partitions the selected scrapers: when it
    returns, the list of selected scrapers is not empty, the kinds are
    pairwise distinct keys, the group of a kind is the list of the
    selected configs of that kind in their order, no group is empty, and
    the groups together hold as many configs as were selected. *)
Theorem group_by_kind_partitions env s by_kind :
  group_by_kind env s = Ok by_kind →
  ∃ selected,
    _selected_scrapers env s = Ok selected
    ∧ selected ≠ []
    ∧ by_kind ≠ []
    ∧ NoDup by_kind.*1
    ∧ (∀ kd, od_get by_kind kd
             = if decide (kd ∈ kind <$> selected)
               then Some (filter (λ sc, kind sc = kd) selected)
               else None)
    ∧ (∀ kd specs, (kd, specs) ∈ by_kind →
         specs ≠ [] ∧ specs = filter (λ sc, kind sc = kd) selected)
    ∧ sum_values (counts by_kind) = Z.of_nat (length selected).
Proof.
  unfold group_by_kind.
  destruct (_selected_scrapers env s) as [selected|e] eqn:Es;
    cbn [mbind result_bind]; [|done].
  intros [= <-]. exists selected.
  pose proof (selected_nonempty env s selected Es) as Hne.
  destruct (grouped_keys kind (λ sc, [sc]) selected []) as [Hnd Hkeys];
    [constructor|].
  assert (Hget : ∀ kd,
    od_get (foldl (λ d sc, od_extend d (kind sc) [sc]) [] selected) kd
    = if decide (kd ∈ kind <$> selected)
      then Some (filter (λ sc, kind sc = kd) selected) else None).
  { intros kd. rewrite (grouped_get kind (λ sc, [sc])). cbn [od_get default from_option].
    destruct (decide _); [|done]. cbn [Datatypes.id app]. f_equal.
    apply (bind_filter_singleton (λ sc, kind sc = kd)). }
  split_and!; [done|done| |done|done| |].
  - intros E. destruct selected as [|sc l]; [done|].
    specialize (Hget (kind sc)). rewrite E in Hget.
    rewrite decide_True in Hget; [done|]. rewrite fmap_cons. by left.
  - intros kd specs Hin. apply od_get_elem_NoDup in Hin; [|done].
    rewrite Hget in Hin. destruct (decide _) as [Hk|]; [|done].
    injection Hin as <-. split; [|done].
    apply list_elem_of_fmap in Hk as (sc & -> & Hsc).
    intros E. assert (Hf : sc ∈ filter (λ sc0, kind sc0 = kind sc) selected).
    { by apply list_elem_of_filter. }
    rewrite E in Hf. by apply elem_of_nil in Hf.
  - rewrite (grouped_total kind (λ sc, [sc])), bind_singleton.
    unfold sum_values, counts. simpl. lia.
Qed.

Lemma group_by_kind_partitions_witness :
  let a := mkScraperConfig (u "lever") (u "lever:acme") (VDict []) in
  let b := mkScraperConfig (u "greenhouse") (u "greenhouse:acme") (VDict []) in
  let c := mkScraperConfig (u "lever") (u "lever:initech") (VDict []) in
  let s := mkSettings (u "Test User") None [a; b; c] (u "/tmp/careerwatch.db")
             2 false false false in
  group_by_kind sample_env s
  = Ok [(u "lever", [a; c]); (u "greenhouse", [b])]
  ∧ sum_values (counts [(u "lever", [a; c]); (u "greenhouse", [b])]) = 3.
Proof.
  intros a b c s.
  assert (H : group_by_kind sample_env s
              = Ok [(u "lever", [a; c]); (u "greenhouse", [b])]) by reflexivity.
  split; [exact H|].
  destruct (group_by_kind_partitions sample_env s _ H)
    as (selected & Hs & _ & _ & _ & _ & _ & Hsum).
  rewrite Hsum. vm_compute in Hs. injection Hs as <-. reflexivity.
Defined.

(** X11. The merge before dedup loses and duplicates nothing: the
    per-source counts of [pre_by_source] add up to the number of
    postings handed to [filter_new], its sources are pairwise distinct,
    and under each source are the items of the results of that source,
    in order. *)
Theorem merge_conserves_postings (rs : list ScrapeResult) :
  sum_values (counts (pre_by_source_of rs))
  = Z.of_nat (length (all_postings_of rs))
  ∧ NoDup (pre_by_source_of rs).*1
  ∧ ∀ src items, (src, items) ∈ pre_by_source_of rs → items = items_of src rs.
Proof.
  unfold pre_by_source_of, all_postings_of.
  destruct (grouped_keys sr_source Engine.items rs []) as [Hnd _]; [constructor|].
  split_and!.
  - rewrite (grouped_total sr_source Engine.items).
    unfold sum_values, counts. cbn [fmap list_fmap foldr]. lia.
  - done.
  - intros src its Hin. apply od_get_elem_NoDup in Hin; [|done].
    fold (pre_by_source_of rs) in Hin. rewrite pre_by_source_get in Hin.
    destruct (decide _); [|done]. by injection Hin as <-.
Qed.

Lemma merge_conserves_postings_witness :
  let rs := [mkScrapeResult (u "a") [mkPosting (u "a") (u "P") (u "T1") (u "U1")] [];
             mkScrapeResult (u "b") [] [];
             mkScrapeResult (u "a") [mkPosting (u "a") (u "P") (u "T2") (u "U2")] []] in
  (u "a", [mkPosting (u "a") (u "P") (u "T1") (u "U1");
           mkPosting (u "a") (u "P") (u "T2") (u "U2")]) ∈ pre_by_source_of rs
  ∧ [mkPosting (u "a") (u "P") (u "T1") (u "U1");
     mkPosting (u "a") (u "P") (u "T2") (u "U2")] = items_of (u "a") rs.
Proof.
  intros rs.
  assert (H : (u "a", [mkPosting (u "a") (u "P") (u "T1") (u "U1");
                       mkPosting (u "a") (u "P") (u "T2") (u "U2")])
              ∈ pre_by_source_of rs) by (vm_compute; left).
  split; [exact H|].
  exact (proj2 (proj2 (merge_conserves_postings rs)) _ _ H).
Defined.

(** *** The default mode *)

(** X12. Without the two special flags a run reports exactly the new
    postings: once [filter_new] has returned, the run returns [None]
    when nothing is new, and otherwise (html, meta) where [new_total] is
    the number of new postings, [by_source] counts them per source, the
    message is "N new postings across K sources for PERSON" with K the
    number of their sources, the subject names the source when there is
    one, and the row of each new posting is part of the html. *)
Theorem default_mode_reports_new env s gs fs by_kind f new :
  group_by_kind env s = Ok by_kind →
  0 < max_threads s →
  email_all_even_if_seen s = false →
  ingest_only_no_email s = false →
  fan_out env s (default (registry_get env) gs) by_kind = Ok f →
  fn_result (filter_new fs (sqlite_path s) (Engine.person_env s) (now_iso env)
               (all_postings_of (all_results f))) = Ok new →
  let o := run_once env s gs fs in
  let n := str_of_Z (Z.of_nat (length new)) in
  let k := str_of_Z (Z.of_nat (length (remove_dups (source <$> new)))) in
  (new = [] → returned o = Ok None)
  ∧ (new ≠ [] →
     ∃ html meta,
       returned o = Ok (Some (html, meta))
       ∧ new_total meta = Z.of_nat (length new)
       ∧ by_source meta = counts (new_by_source_of new)
       ∧ sum_values (by_source meta) = new_total meta
       ∧ message meta
         = n ++ u " new postings across " ++ k ++ u " sources for "
           ++ Engine.person_env s
       ∧ (∀ src, (∀ q, q ∈ new → source q = src) →
            subject meta
            = u "Career Watch " ++ dash ++ u " " ++ n ++ u " new at " ++ src)
       ∧ (∀ q1 q2, q1 ∈ new → q2 ∈ new → source q1 ≠ source q2 →
            subject meta
            = u "Career Watch " ++ dash ++ u " " ++ n ++ u " new jobs (" ++ k
              ++ u " companies)")
       ∧ ∀ q, q ∈ new → ∃ a b, html = a ++ row_html q ++ b).
Proof.
  intros Hg Hm Ha Hi Hf Hnew o n k.
  destruct (run_once_cases env s gs fs by_kind f Hg Hm Hf) as (_ & _ & _ & Hr).
  specialize (Hr new Hnew). cbv zeta in Hr. fold o in Hr. rewrite Ha, Hi in Hr.
  split.
  - intros E. rewrite Hr, E. done.
  - intros Hne. rewrite decide_False in Hr by by rewrite new_by_source_nil.
    destruct (subject_of_cases new (Z.of_nat (length new))) as (_ & H1 & H2).
    eexists _, _. split; [exact Hr|]. cbn [new_total by_source message subject].
    rewrite sum_values_new_by_source. split_and!; [done..| | | |].
    + unfold _summary_message. cbv zeta.
      by rewrite sum_values_new_by_source, new_sources_length.
    + intros src Hsrc. by apply H1.
    + intros q1 q2 Hq1 Hq2 Hq. by apply (H2 q1 q2).
    + intros q Hq. destruct (new_by_source_get _ q Hq) as (l & Hl & Hql).
      by eapply document_contains_row.
Qed.

Lemma default_mode_reports_new_witness :
  let s := sample_settings false false false in
  let q := mkPosting (u "lever:acme") (u "Test User") (u "lever:acme - Engineer")
             (u "https://example.com/lever:acme/1") in
  ∃ f html meta,
    group_by_kind sample_env s = Ok sample_by_kind
    ∧ 0 < max_threads s
    ∧ fan_out sample_env s (default (registry_get sample_env) None)
        sample_by_kind = Ok f
    ∧ fn_result (filter_new ∅ (sqlite_path s) (Engine.person_env s)
                   (now_iso sample_env) (all_postings_of (all_results f)))
      = Ok [q]
    ∧ returned (run_once sample_env s None ∅) = Ok (Some (html, meta))
    ∧ new_total meta = 1
    ∧ message meta = u "1 new postings across 1 sources for Test User"
    ∧ subject meta = u "Career Watch " ++ dash ++ u " 1 new at lever:acme".
Proof.
  intros s q.
  pose (f := match fan_out sample_env s (default (registry_get sample_env) None)
                     sample_by_kind with
             | Ok f => f
             | Raise _ => mkFan [] [] []
             end).
  assert (Hg : group_by_kind sample_env s = Ok sample_by_kind) by reflexivity.
  assert (Hm : 0 < max_threads s) by reflexivity.
  assert (Hf : fan_out sample_env s (default (registry_get sample_env) None)
                 sample_by_kind = Ok f) by (vm_compute; reflexivity).
  assert (Hn : fn_result (filter_new ∅ (sqlite_path s) (Engine.person_env s)
                 (now_iso sample_env) (all_postings_of (all_results f)))
               = Ok [q]) by (vm_compute; reflexivity).
  destruct (proj2 (default_mode_reports_new sample_env s None ∅ sample_by_kind
                     f [q] Hg Hm eq_refl eq_refl Hf Hn))
    as (html & meta & Hr & Ht & _ & _ & Hmsg & Hsub & _); [done|].
  exists f, html, meta.
  split_and!; [exact Hg|exact Hm|exact Hf|exact Hn|exact Hr|exact Ht| |].
  - rewrite Hmsg. reflexivity.
  - rewrite (Hsub (u "lever:acme")); [reflexivity|].
    intros q' Hq'. apply list_elem_of_singleton in Hq'. by subst q'.
Defined.

(** X13. A second run that finds nothing but postings whose keys the
    first run found and stored returns [None] when
    [email_all_even_if_seen] is off, and leaves the sqlite files as the
    first run left them. *)
Theorem rerun_is_silent env1 env2 s gs1 gs2 fs by_kind1 by_kind2 f1 f2 new1 :
  group_by_kind env1 s = Ok by_kind1 →
  group_by_kind env2 s = Ok by_kind2 →
  0 < max_threads s →
  email_all_even_if_seen s = false →
  fan_out env1 s (default (registry_get env1) gs1) by_kind1 = Ok f1 →
  fan_out env2 s (default (registry_get env2) gs2) by_kind2 = Ok f2 →
  let found1 := all_postings_of (all_results f1) in
  let found2 := all_postings_of (all_results f2) in
  fn_result (filter_new fs (sqlite_path s) (Engine.person_env s) (now_iso env1)
               found1) = Ok new1 →
  bindable (now_iso env2) = true →
  (∀ p, p ∈ found2 →
     ∃ q, q ∈ found1
          ∧ key_of (Engine.person_env s) p = key_of (Engine.person_env s) q) →
  let o1 := run_once env1 s gs1 fs in
  let o2 := run_once env2 s gs2 (files_after o1) in
  returned o2 = Ok None ∧ files_after o2 = files_after o1.
Proof.
  intros Hg1 Hg2 Hm Ha Hf1 Hf2 found1 found2 Hn1 Hts Hsub o1 o2.
  destruct (run_once_cases env1 s gs1 fs by_kind1 f1 Hg1 Hm Hf1) as (Hfs1 & _).
  fold found1 o1 in Hfs1.
  destruct (run_once_cases env2 s gs2 (files_after o1) by_kind2 f2 Hg2 Hm Hf2)
    as (Hfs2 & _ & _ & Hr2).
  fold found2 o2 in Hfs2, Hr2.
  assert (E : filter_new (files_after o1) (sqlite_path s) (Engine.person_env s)
                (now_iso env2) found2 = mkReply (Ok []) (files_after o1) []).
  { destruct (filter_new_returned _ _ _ _ _ _ Hn1)
      as [(t' & Htr & Hs & _ & E1 & Hall & _)|(Htr & E1 & _ & E2)].
    - rewrite E1 in Hfs1. cbn [fn_files] in Hfs1.
      eapply filter_new_all_seen; [done|rewrite Hfs1; apply lookup_insert_eq| |].
      + intros p Hp. destruct (Hsub p Hp) as (q & Hq & ->). by apply Hall.
      + apply Forall_forall. intros p Hp. destruct (Hsub p Hp) as (q & Hq & Hk).
        unfold storable in Hs. rewrite Forall_forall in Hs.
        rewrite (binds_key_eq _ _ _ p q Hk).
        eapply binds_ts; [by apply Hs|done].
    - assert (E0 : found2 = []).
      { destruct found2 as [|p l]; [done|].
        destruct (Hsub p) as (q & Hq & _); [by left|].
        rewrite E1 in Hq. by apply elem_of_nil in Hq. }
      rewrite E0. unfold filter_new, init_db. by rewrite Htr. }
  rewrite E in Hfs2. cbn [fn_files] in Hfs2. split; [|done].
  rewrite (Hr2 []) by by rewrite E. cbv zeta. rewrite Ha.
  by destruct (ingest_only_no_email s).
Qed.

Lemma rerun_is_silent_witness :
  let s := sample_settings false false false in
  let o1 := run_once sample_env s None ∅ in
  ∃ f new1,
    group_by_kind sample_env s = Ok sample_by_kind
    ∧ 0 < max_threads s
    ∧ fan_out sample_env s (default (registry_get sample_env) None)
        sample_by_kind = Ok f
    ∧ fn_result (filter_new ∅ (sqlite_path s) (Engine.person_env s)
                   (now_iso sample_env) (all_postings_of (all_results f)))
      = Ok new1
    ∧ length new1 = 1%nat
    ∧ bindable (now_iso sample_env) = true
    ∧ (∃ doc, returned o1 = Ok (Some doc))
    ∧ returned (run_once sample_env s None (files_after o1)) = Ok None.
Proof.
  intros s o1.
  pose (f := match fan_out sample_env s (default (registry_get sample_env) None)
                     sample_by_kind with
             | Ok f => f
             | Raise _ => mkFan [] [] []
             end).
  pose (new1 := match fn_result (filter_new ∅ (sqlite_path s)
                       (Engine.person_env s) (now_iso sample_env)
                       (all_postings_of (all_results f))) with
                | Ok l => l
                | Raise _ => []
                end).
  assert (Hg : group_by_kind sample_env s = Ok sample_by_kind) by reflexivity.
  assert (Hm : 0 < max_threads s) by reflexivity.
  assert (Hf : fan_out sample_env s (default (registry_get sample_env) None)
                 sample_by_kind = Ok f) by (vm_compute; reflexivity).
  assert (Hn : fn_result (filter_new ∅ (sqlite_path s) (Engine.person_env s)
                 (now_iso sample_env) (all_postings_of (all_results f)))
               = Ok new1) by (vm_compute; reflexivity).
  assert (Hb : bindable (now_iso sample_env) = true) by reflexivity.
  exists f, new1.
  split_and!; [exact Hg|exact Hm|exact Hf|exact Hn|reflexivity|exact Hb| |].
  - destruct (returned o1) as [[doc|]|] eqn:E;
      [by exists doc|vm_compute in E; discriminate E..].
  - refine (proj1 (rerun_is_silent sample_env sample_env s None None ∅
                     sample_by_kind sample_by_kind f f new1
                     Hg Hg Hm eq_refl Hf Hf Hn Hb _)).
    intros p Hp. exists p. split; [exact Hp|reflexivity].
Defined.

(** *** The calls a run makes on scrapers *)

Local Abbreviation runs_within s l :=
  (Forall (λ ev, match ev with
                 | Run k person specs skip =>
                     (k, specs) ∈ l ∧ person = Engine.person_env s
                     ∧ skip = false
                 | _ => True
                 end)).

Lemma resolved_app evs1 evs2 :
  resolved (evs1 ++ evs2) = resolved evs1 ++ resolved evs2.
Proof. apply omap_app. Qed.

Lemma no_calls evs (l : list (str * list ScraperConfig)) s :
  Forall (λ e, is_scraper_call e = false) evs →
  resolved evs = [] ∧ runs_within s l evs.
Proof.
  induction 1 as [|ev evs Hev _ [IH1 IH2]]; [done|].
  split.
  - unfold resolved in *. cbn [omap list_omap]. by destruct ev.
  - constructor; [by destruct ev|done].
Qed.

Lemma run_kind_calls env s g fut :
  skip_network s = false →
  resolved (_run_kind env s g fut.1 fut.2).1 = [fut.1]
  ∧ runs_within s [fut] (_run_kind env s g fut.1 fut.2).1.
Proof.
  intros Hs. destruct fut as [k0 specs0]. unfold _run_kind. rewrite Hs.
  cbn [fst snd].
  destruct (g k0) as [[sc|?]|?]; cbn [fst];
    [destruct (sc _ _ _); cbn [fst]|..]; (split; [done|]);
    repeat constructor.
Qed.

Lemma task_events_calls env s g fut :
  skip_network s = false →
  resolved (task_events env s g fut) = [fut.1]
  ∧ runs_within s [fut] (task_events env s g fut).
Proof.
  intros Hs. destruct (run_kind_calls env s g fut Hs) as [H1 H2].
  unfold task_events. rewrite resolved_app, H1. split.
  - by destruct ((_run_kind env s g fut.1 fut.2).2).
  - apply Forall_app. split; [done|].
    destruct ((_run_kind env s g fut.1 fut.2).2); by repeat constructor.
Qed.

Lemma runs_within_mono s (l l' : list (str * list ScraperConfig)) evs :
  (∀ x, x ∈ l → x ∈ l') → runs_within s l evs → runs_within s l' evs.
Proof.
  intros Hl H. eapply Forall_impl; [exact H|]. intros [] H'; try done.
  destruct H' as (? & ? & ?). split_and!; [by apply Hl|done..].
Qed.

Lemma bind_calls s (h : str * list ScraperConfig → list event) l :
  (∀ fut, resolved (h fut) = [fut.1] ∧ runs_within s [fut] (h fut)) →
  resolved (l ≫= h) = l.*1 ∧ runs_within s l (l ≫= h).
Proof.
  intros Hh. induction l as [|fut l [IH1 IH2]]; [done|].
  cbn [mbind list_bind]. destruct (Hh fut) as [H1 H2]. split.
  - by rewrite resolved_app, H1, IH1.
  - apply Forall_app. split.
    + eapply runs_within_mono; [|exact H2].
      intros x ->%list_elem_of_singleton. by left.
    + eapply runs_within_mono; [|exact IH2]. intros x ?. by right.
Qed.

(** The calls and records made by the time an exception leaves the
    loop: those of the tasks collected, then those of the others. *)
Lemma collect_all_raise_events env s g l : ∀ st e evs,
  collect_all env s g st l = Raise (e, evs) →
  ∃ l1 l2, l = l1 ++ l2
    ∧ evs = trace st ++ (l1 ≫= task_events env s g)
            ++ (l2 ≫= λ f, (_run_kind env s g f.1 f.2).1).
Proof.
  induction l as [|fut l IH]; intros st e evs; cbn [collect_all]; [done|].
  destruct (collect env s g st fut) as [st'|e'] eqn:E.
  - intros (l1 & l2 & -> & ->)%IH. apply collect_ok in E as (_ & -> & _).
    exists (fut :: l1), l2. split; [done|]. cbn [mbind list_bind].
    by rewrite <- !(assoc_L (++)).
  - intros [= <- <-]. by exists [], (fut :: l).
Qed.

Local Abbreviation before_store :=
  (Forall (λ ev, match ev with
                 | LogSummary _ _ _ _ _ _ _ | LogDbError _ _ => False
                 | _ => True
                 end)).

Lemma run_kind_before_store env s g fut :
  before_store (_run_kind env s g fut.1 fut.2).1.
Proof.
  unfold _run_kind. destruct (skip_network s); cbn [fst].
  - by repeat constructor.
  - destruct (g fut.1) as [[sc|?]|?]; cbn [fst];
      [destruct (sc _ _ _); cbn [fst]|..]; by repeat constructor.
Qed.

Lemma task_events_before_store env s g fut :
  before_store (task_events env s g fut).
Proof.
  unfold task_events. apply Forall_app. split; [apply run_kind_before_store|].
  destruct ((_run_kind env s g fut.1 fut.2).2); by repeat constructor.
Qed.

(** *** Runs that raise *)

(** X14. An exception of a task that is no instance of [Exception] is
    not caught: when a kind's task raises one, the run raises an
    exception some task raised, [filter_new] is not called, so the
    sqlite files are as before, whatever the other kinds found, and no
    summary is logged. *)
Theorem uncaught_exception_fails_run env s gs fs by_kind kind specs e0 :
  group_by_kind env s = Ok by_kind →
  0 < max_threads s →
  let g := default (registry_get env) gs in
  (kind, specs) ∈ by_kind →
  (_run_kind env s g kind specs).2 = Raise e0 →
  is_exception e0 = false →
  let o := run_once env s gs fs in
  ∃ e,
    returned o = Raise (TaskError e)
    ∧ is_exception e = false
    ∧ (∃ fut, fut ∈ by_kind ∧ (_run_kind env s g fut.1 fut.2).2 = Raise e)
    ∧ files_after o = fs
    ∧ ∀ ev, ev ∈ events o →
        match ev with
        | LogSummary _ _ _ _ _ _ _ | LogDbError _ _ => False
        | _ => True
        end.
Proof.
  intros Hg Hm g Hin Hr He o.
  destruct (fan_out env s g by_kind) as [f|[e evs]] eqn:Ef.
  - exfalso. apply fan_out_ok in Ef as (_ & _ & Hc).
    rewrite Forall_forall in Hc. specialize (Hc (kind, specs) Hin e0 Hr).
    congruence.
  - pose proof Ef as Ef'. apply collect_all_raise in Ef' as (He' & fut & Hfut & Hr').
    exists e. subst o. unfold run_once. rewrite Hg. cbv zeta.
    rewrite max_workers_pos by lia. fold g. rewrite Ef.
    cbn [returned files_after events].
    split_and!; [done|done| |done|].
    + exists fut. split; [|done]. by rewrite <- (as_completed_perm env by_kind).
    + intros ev Hev.
      apply collect_all_raise_events in Ef as (l1 & l2 & _ & ->).
      cbn [trace app] in Hev.
      assert (H : before_store ((l1 ≫= task_events env s g)
                   ++ (l2 ≫= λ f, (_run_kind env s g f.1 f.2).1))).
      { apply Forall_app. split; apply Forall_bind, Forall_forall; intros fut0 _.
        - apply task_events_before_store.
        - apply run_kind_before_store. }
      rewrite Forall_forall in H. by apply H.
Qed.

Lemma uncaught_exception_fails_run_witness :
  let lever := mkScraperConfig (u "lever") (u "lever:acme") (VDict []) in
  let workday := mkScraperConfig (u "workday") (u "workday:acme") (VDict []) in
  let s := mkSettings (u "Test User") None [lever; workday]
             (u "/tmp/careerwatch.db") 2 false false false in
  let by_kind := [(u "lever", [lever]); (u "workday", [workday])] in
  let o := run_once sample_env s None ∅ in
  group_by_kind sample_env s = Ok by_kind
  ∧ 0 < max_threads s
  ∧ (_run_kind sample_env s (default (registry_get sample_env) None)
       (u "workday") [workday]).2 = Raise (mkExc false (u "SystemExit(1)"))
  ∧ returned o = Raise (TaskError (mkExc false (u "SystemExit(1)")))
  ∧ files_after o = ∅.
Proof.
  intros lever workday s by_kind o.
  assert (Hg : group_by_kind sample_env s = Ok by_kind) by reflexivity.
  assert (Hm : 0 < max_threads s) by reflexivity.
  assert (Hin : (u "workday", [workday]) ∈ by_kind) by (right; left).
  assert (Hr : (_run_kind sample_env s (default (registry_get sample_env) None)
                  (u "workday") [workday]).2
               = Raise (mkExc false (u "SystemExit(1)"))) by reflexivity.
  destruct (uncaught_exception_fails_run sample_env s None ∅ by_kind
              (u "workday") [workday] _ Hg Hm Hin Hr eq_refl)
    as (e & He & _ & _ & Hfs & _).
  split_and!; [exact Hg|exact Hm|exact Hr| |exact Hfs].
  assert (E : e = mkExc false (u "SystemExit(1)")).
  { pose proof He as He'. vm_compute in He'. by injection He' as <-. }
  rewrite E in He. exact He.
Defined.


(** X16. With [skip_network] off, every configured kind is resolved
    exactly once, whatever the outcome of the run, and no other kind is;
    a scraper that is run is the one of a configured kind, on the person
    of the settings and exactly the specs of its kind. *)
Theorem each_kind_is_resolved_once env s gs fs by_kind :
  group_by_kind env s = Ok by_kind →
  0 < max_threads s →
  skip_network s = false →
  let o := run_once env s gs fs in
  resolved (events o) ≡ₚ by_kind.*1
  ∧ NoDup (resolved (events o))
  ∧ ∀ k person specs skip, Run k person specs skip ∈ events o →
      (k, specs) ∈ by_kind ∧ person = Engine.person_env s ∧ skip = false.
Proof.
  intros Hg Hm Hs o. set (g := default (registry_get env) gs).
  assert (Hnd : NoDup by_kind.*1).
  { by destruct (group_by_kind_nodup env s by_kind Hg). }
  assert (Hev : resolved (events o) = (as_completed env by_kind).*1
                ∧ runs_within s (as_completed env by_kind) (events o)).
  { destruct (fan_out env s g by_kind) as [f|[e evs]] eqn:Ef.
    - destruct (run_once_cases env s gs fs by_kind f Hg Hm Ef)
        as (_ & (tail & Hev & Htail) & _).
      fold o in Hev. rewrite Hev. apply fan_out_ok in Ef as (_ & -> & _).
      destruct (bind_calls s (task_events env s g) (as_completed env by_kind))
        as [H1 H2]; [intros fut; by apply task_events_calls|].
      destruct (no_calls tail (as_completed env by_kind) s Htail) as [H3 H4].
      rewrite resolved_app, H1, H3, app_nil_r. split; [done|].
      by apply Forall_app.
    - assert (Eo : events o = evs).
      { subst o. unfold run_once. rewrite Hg. cbv zeta.
        rewrite max_workers_pos by lia. fold g. by rewrite Ef. }
      rewrite Eo. apply collect_all_raise_events in Ef as (l1 & l2 & El & ->).
      cbn [trace app]. rewrite El.
      destruct (bind_calls s (task_events env s g) l1) as [H1 H2];
        [intros fut; by apply task_events_calls|].
      destruct (bind_calls s (λ f, (_run_kind env s g f.1 f.2).1) l2)
        as [H3 H4]; [intros fut; by apply run_kind_calls|].
      rewrite resolved_app, H1, H3, fmap_app. split; [done|].
      apply Forall_app. split.
      + eapply runs_within_mono; [|exact H2]. intros x ?.
        apply elem_of_app. by left.
      + eapply runs_within_mono; [|exact H4]. intros x ?.
        apply elem_of_app. by right. }
  destruct Hev as [Hres Hruns].
  assert (Hp : resolved (events o) ≡ₚ by_kind.*1).
  { rewrite Hres. by rewrite (as_completed_perm env by_kind). }
  split_and!; [done|by rewrite Hp|].
  intros k person specs skip Hin. rewrite Forall_forall in Hruns.
  specialize (Hruns _ Hin). cbv beta iota in Hruns.
  destruct Hruns as (Hk & ? & ?). split_and!; [|done..].
  by rewrite <- (as_completed_perm env by_kind).
Qed.

Lemma each_kind_is_resolved_once_witness :
  let lever := mkScraperConfig (u "lever") (u "lever:acme") (VDict []) in
  let workday := mkScraperConfig (u "workday") (u "workday:acme") (VDict []) in
  let nokind := mkScraperConfig (u "nokind") (u "nokind:acme") (VDict []) in
  let s := mkSettings (u "Test User") None [workday; nokind; lever]
             (u "/tmp/careerwatch.db") 2 false false false in
  let by_kind := [(u "workday", [workday]); (u "nokind", [nokind]);
                  (u "lever", [lever])] in
  group_by_kind sample_env s = Ok by_kind
  ∧ 0 < max_threads s
  ∧ skip_network s = false
  ∧ resolved (events (run_once sample_env s None ∅))
    = [u "workday"; u "nokind"; u "lever"]
  ∧ NoDup (resolved (events (run_once sample_env s None ∅))).
Proof.
  intros lever workday nokind s by_kind.
  assert (Hg : group_by_kind sample_env s = Ok by_kind) by reflexivity.
  assert (Hm : 0 < max_threads s) by reflexivity.
  split_and!; [exact Hg|exact Hm|reflexivity|reflexivity|].
  exact (proj1 (proj2 (each_kind_is_resolved_once sample_env s None ∅ by_kind
                         Hg Hm eq_refl))).
Defined.

(** *** The order of the sections *)

Lemma str_cmp_eq a : ∀ b, str_cmp a b = Eq → a = b.
Proof.
  induction a as [|x a IH]; intros [|y b]; cbn [str_cmp]; try done.
  destruct (N.compare_spec x y) as [->| |]; [|done..].
  intros ?%IH. by subst.
Qed.

Lemma str_cmp_opp a : ∀ b, str_cmp b a = CompOpp (str_cmp a b).
Proof.
  induction a as [|x a IH]; intros [|y b]; cbn [str_cmp]; try done.
  rewrite (N.compare_antisym x y). destruct (x ?= y)%N; cbn [CompOpp]; [|done..].
  apply IH.
Qed.

Lemma str_cmp_trans a : ∀ b c,
  str_cmp a b ≠ Gt → str_cmp b c ≠ Gt → str_cmp a c ≠ Gt.
Proof.
  induction a as [|x a IH]; intros [|y b] [|z c]; cbn [str_cmp]; try done.
  destruct (N.compare_spec x y) as [->|Hxy|Hxy]; [| |done].
  - destruct (N.compare_spec y z) as [->|Hyz|Hyz]; [|done..]. apply IH.
  - intros _. destruct (N.compare_spec y z) as [->|Hyz|Hyz]; [| |done].
    + intros _. by rewrite (proj2 (N.compare_lt_iff _ _) Hxy).
    + intros _. by rewrite (proj2 (N.compare_lt_iff x z) ltac:(lia)).
Qed.

Global Instance by_key_le_trans {A} : Transitive (@by_key_le A).
Proof. intros x y z. unfold by_key_le, str_le. apply str_cmp_trans. Qed.

Global Instance by_key_le_total {A} : Total (@by_key_le A).
Proof.
  intros x y. unfold by_key_le, str_le. rewrite (str_cmp_opp x.1 y.1).
  destruct (str_cmp x.1 y.1); cbn [CompOpp]; [by left|by left|by right].
Qed.

Lemma by_key_le_antisym {A} (x y : str * A) :
  by_key_le x y → by_key_le y x → x.1 = y.1.
Proof.
  unfold by_key_le, str_le. rewrite (str_cmp_opp x.1 y.1).
  destruct (str_cmp x.1 y.1) eqn:E; cbn [CompOpp]; [|done..].
  intros _ _. by apply str_cmp_eq.
Qed.

Lemma nodup_keys_inj {A} (d : list (str * A)) x y :
  NoDup d.*1 → x ∈ d → y ∈ d → x.1 = y.1 → x = y.
Proof.
  induction d as [|z d IH]; [by intros _ ?%elem_of_nil|].
  rewrite fmap_cons. intros [Hn Hnd]%NoDup_cons.
  intros [->|Hx]%elem_of_cons [->|Hy]%elem_of_cons E; [done| | |by apply IH].
  - destruct Hn. rewrite E. by apply list_elem_of_fmap_2.
  - destruct Hn. rewrite <- E. by apply list_elem_of_fmap_2.
Qed.

(** X17. The sections of the document come in the order of their
    sources, whatever the order in which the sources were met: two
    render sets with the same sources and postings, in any order of the
    sources, give the same tables, and the sections are sorted by
    source. *)
Theorem build_tables_order_independent (d1 d2 : list (str * list Posting)) :
  NoDup d1.*1 →
  d1 ≡ₚ d2 →
  build_tables d1 = build_tables d2
  ∧ ∃ sorted_items,
      build_tables d1 = join [10%N] (section_html <$> sorted_items)
      ∧ sorted_items ≡ₚ d1
      ∧ StronglySorted (λ x y, str_cmp x.1 y.1 = Lt) sorted_items.
Proof.
  intros Hnd Hp.
  assert (Hs1 := StronglySorted_merge_sort by_key_le d1).
  assert (Hs2 := StronglySorted_merge_sort by_key_le d2).
  assert (Hp1 := merge_sort_Permutation by_key_le d1).
  assert (Hp2 := merge_sort_Permutation by_key_le d2).
  split.
  - unfold build_tables. f_equal. f_equal.
    apply (StronglySorted_unique_strong by_key_le); [|done..|by rewrite Hp1, Hp2].
    intros x y Hx Hy Hxy Hyx. rewrite Hp1 in Hx. rewrite Hp2, <- Hp in Hy.
    apply (nodup_keys_inj d1); [done..|]. by apply by_key_le_antisym.
  - exists (merge_sort by_key_le d1). split_and!; [done..|].
    assert (Hnd' : NoDup (merge_sort by_key_le d1).*1) by by rewrite Hp1.
    revert Hnd'. generalize (merge_sort by_key_le d1) Hs1. clear.
    induction 1 as [|x l Hl IH Hx]; [constructor|].
    rewrite fmap_cons. intros [Hn Hnd]%NoDup_cons.
    constructor; [by apply IH|].
    rewrite Forall_forall in Hx |- *. intros y Hy. specialize (Hx y Hy).
    unfold by_key_le, str_le in Hx.
    destruct (str_cmp x.1 y.1) eqn:E; [|done..].
    destruct Hn. apply str_cmp_eq in E. rewrite E.
    by apply list_elem_of_fmap_2.
Qed.

Lemma build_tables_order_independent_witness :
  NoDup [(u "lever:acme", [mkPosting (u "lever:acme") (u "P") (u "T1") (u "U1")]);
         (u "greenhouse:acme", [mkPosting (u "greenhouse:acme") (u "P") (u "T2") (u "U2")])].*1
  ∧ build_tables
      [(u "lever:acme", [mkPosting (u "lever:acme") (u "P") (u "T1") (u "U1")]);
       (u "greenhouse:acme", [mkPosting (u "greenhouse:acme") (u "P") (u "T2") (u "U2")])]
    = build_tables
      [(u "greenhouse:acme", [mkPosting (u "greenhouse:acme") (u "P") (u "T2") (u "U2")]);
       (u "lever:acme", [mkPosting (u "lever:acme") (u "P") (u "T1") (u "U1")])]
  ∧ build_tables
      [(u "lever:acme", [mkPosting (u "lever:acme") (u "P") (u "T1") (u "U1")]);
       (u "greenhouse:acme", [mkPosting (u "greenhouse:acme") (u "P") (u "T2") (u "U2")])]
    = section_html (u "greenhouse:acme", [mkPosting (u "greenhouse:acme") (u "P") (u "T2") (u "U2")])
      ++ [10%N]
      ++ section_html (u "lever:acme", [mkPosting (u "lever:acme") (u "P") (u "T1") (u "U1")]).
Proof.
  assert (H1 : NoDup [(u "lever:acme", [mkPosting (u "lever:acme") (u "P") (u "T1") (u "U1")]);
         (u "greenhouse:acme", [mkPosting (u "greenhouse:acme") (u "P") (u "T2") (u "U2")])].*1).
  { vm_compute. apply NoDup_cons. split; [|apply NoDup_singleton].
    intros H%list_elem_of_singleton. discriminate H. }
  split_and!; [exact H1| |reflexivity].
  exact (proj1 (build_tables_order_independent _ _ H1 (Permutation_swap _ _ []))).
Defined.

(** *** Escaping *)

Lemma escape_cons c s : escape (c :: s) = escape_char c ++ escape s.
Proof. done. Qed.

Lemma escape_char_cases c :
  (c = 38%N ∧ escape_char c = u "&amp;")
  ∨ (c = 60%N ∧ escape_char c = u "&lt;")
  ∨ (c = 62%N ∧ escape_char c = u "&gt;")
  ∨ (c = 34%N ∧ escape_char c = u "&quot;")
  ∨ (c = 39%N ∧ escape_char c = u "&#x27;")
  ∨ (c ≠ 38%N ∧ c ≠ 60%N ∧ c ≠ 62%N ∧ c ≠ 34%N ∧ c ≠ 39%N
     ∧ escape_char c = [c]).
Proof.
  unfold escape_char.
  destruct (N.eqb_spec c 38); [by left; subst|].
  destruct (N.eqb_spec c 60); [by right; left; subst|].
  destruct (N.eqb_spec c 62); [by right; right; left; subst|].
  destruct (N.eqb_spec c 34); [by right; right; right; left; subst|].
  destruct (N.eqb_spec c 39); [by right; right; right; right; left; subst|].
  by repeat right.
Qed.

(** X18. [esc] neutralises markup and loses nothing: the escaped text
    holds none of the characters <, >, double quote and single quote, text
    without those and without & is left as it is, and different texts
    have different escapes. *)
Theorem escape_is_safe_and_injective :
  (∀ s, Forall (λ c, c ≠ 60 ∧ c ≠ 62 ∧ c ≠ 34 ∧ c ≠ 39)%N (escape s))
  ∧ (∀ s, Forall (λ c, c ≠ 38 ∧ c ≠ 60 ∧ c ≠ 62 ∧ c ≠ 34 ∧ c ≠ 39)%N s →
          escape s = s)
  ∧ (∀ s1 s2, escape s1 = escape s2 → s1 = s2).
Proof.
  split_and!.
  - induction s as [|c s IH]; [constructor|]. rewrite escape_cons.
    apply Forall_app. split; [|done].
    destruct (escape_char_cases c)
      as [[-> ->]|[[-> ->]|[[-> ->]|[[-> ->]|[[-> ->]|(?&?&?&?&?&->)]]]]];
      try (vm_compute; repeat constructor; discriminate).
    by repeat constructor.
  - induction 1 as [|c s (?&?&?&?&?) _ IH]; [done|]. rewrite escape_cons, IH.
    destruct (escape_char_cases c)
      as [[-> _]|[[-> _]|[[-> _]|[[-> _]|[[-> _]|(?&?&?&?&?&->)]]]]]; done.
  - induction s1 as [|c1 s1 IH]; intros [|c2 s2]; rewrite ?escape_cons.
    + done.
    + intros E. exfalso.
      destruct (escape_char_cases c2)
        as [[-> E2]|[[-> E2]|[[-> E2]|[[-> E2]|[[-> E2]|(?&?&?&?&?&E2)]]]]];
        rewrite E2 in E; discriminate E.
    + intros E. exfalso.
      destruct (escape_char_cases c1)
        as [[-> E1]|[[-> E1]|[[-> E1]|[[-> E1]|[[-> E1]|(?&?&?&?&?&E1)]]]]];
        rewrite E1 in E; discriminate E.
    + intros E.
      remember (escape s1) as a eqn:Ha. remember (escape s2) as b eqn:Hb.
      destruct (escape_char_cases c1)
        as [[-> E1]|[[-> E1]|[[-> E1]|[[-> E1]|[[-> E1]|(?&?&?&?&?&E1)]]]]];
      rewrite E1 in E;
      destruct (escape_char_cases c2)
        as [[-> E2]|[[-> E2]|[[-> E2]|[[-> E2]|[[-> E2]|(?&?&?&?&?&E2)]]]]];
      rewrite ?E2 in E; vm_compute in E;
      first [ discriminate E
            | injection E as E; f_equal; apply IH; congruence
            | injection E as ? E; congruence
            | injection E as ? E; f_equal; [done|apply IH; congruence] ].
Qed.

Lemma escape_is_safe_and_injective_witness :
  Forall (λ c, c ≠ 38 ∧ c ≠ 60 ∧ c ≠ 62 ∧ c ≠ 34 ∧ c ≠ 39)%N (u "lever:acme")
  ∧ escape (u "lever:acme") = u "lever:acme"
  ∧ escape (u "<b>R&D</b>") = u "&lt;b&gt;R&amp;D&lt;/b&gt;".
Proof.
  assert (H : Forall (λ c, c ≠ 38 ∧ c ≠ 60 ∧ c ≠ 62 ∧ c ≠ 34 ∧ c ≠ 39)%N
                (u "lever:acme")).
  { vm_compute. repeat constructor; discriminate. }
  split_and!; [exact H| |reflexivity].
  exact (proj1 (proj2 escape_is_safe_and_injective) _ H).
Defined.

End EngineMore.


(** ** More on the trigger compiler *)

Module SchedulerMore.
Import Scheduler SchedulerFacts.

Section more.
Context `{!Library}.

(** *** Which branch built a trigger *)

Lemma build_trigger_inv (trig_def : dict) tz trig :
  _build_trigger (VDict trig_def) tz = Ok trig →
  ∃ default_tz kind,
    _tz tz = Ok default_tz ∧ present trig_def = [kind]
    ∧ ((kind = u "interval"
        ∧ build_interval (get trig_def kind) default_tz = Ok trig)
       ∨ (kind = u "cron" ∧ build_cron (get trig_def kind) default_tz = Ok trig)
       ∨ (kind = u "date" ∧ build_date (get trig_def kind) default_tz = Ok trig)
       ∨ (kind = u "daily_time"
          ∧ build_daily_time (get trig_def kind) default_tz = Ok trig)).
Proof.
  unfold _build_trigger. destruct (_tz tz) as [dtz|e]; [|done].
  cbn [mbind result_bind].
  destruct (present trig_def) as [|kind [|k' l]]; [done| |done].
  intros Hb. exists dtz, kind. split_and!; [done..|].
  destruct (decide (kind = u "interval")); [by left|].
  destruct (decide (kind = u "cron")); [by right; left|].
  destruct (decide (kind = u "date")); [by right; right; left|].
  destruct (decide (kind = u "daily_time")); [by right; right; right|done].
Qed.

Lemma as_int_ge0_nonneg spec name n : _as_int_ge0 spec name = Ok n → 0 ≤ n.
Proof.
  unfold _as_int_ge0. destruct (od_get spec name) as [v|]; [|by intros [= <-]].
  destruct (int_of v) as [k|[]]; try done.
  destruct (Z.ltb_spec k 0); [done|]. by intros [= <-].
Qed.

Lemma build_interval_inv spec dtz trig :
  build_interval spec dtz = Ok trig →
  ∃ t, trig = TInterval t
       ∧ 0 ≤ weeks t ∧ 0 ≤ days t ∧ 0 ≤ hours t ∧ 0 ≤ minutes t ∧ 0 ≤ seconds t
       ∧ 0 < weeks t + days t + hours t + minutes t + seconds t
       ∧ (∀ j, iv_jitter t = Some j → 0 < j)
       ∧ interval_accepts t = true.
Proof.
  unfold build_interval. destruct spec as [| | | | |spec|]; try done.
  destruct (decide _); [done|].
  destruct (_as_int_ge0 spec (u "weeks")) as [w|] eqn:Ew; [|done].
  destruct (_as_int_ge0 spec (u "days")) as [d|] eqn:Ed; [|done].
  destruct (_as_int_ge0 spec (u "hours")) as [h|] eqn:Eh; [|done].
  destruct (_as_int_ge0 spec (u "minutes")) as [m|] eqn:Em; [|done].
  destruct (_as_int_ge0 spec (u "seconds")) as [s|] eqn:Es; [|done].
  cbn [mbind result_bind].
  apply as_int_ge0_nonneg in Ew, Ed, Eh, Em, Es.
  destruct (Z.eqb_spec (w + d + h + m + s) 0); [done|].
  assert (Hj : ∀ r, match od_get spec (u "jitter") with
                    | Some _ => j ← _as_int_ge0 spec (u "jitter");
                                Ok (if j =? 0 then None else Some j)
                    | None => Ok None
                    end = Ok r → ∀ j, r = Some j → 0 < j).
  { intros r. destruct (od_get spec (u "jitter")); [|by intros [= <-]].
    destruct (_as_int_ge0 spec (u "jitter")) as [j|] eqn:Ej; [|done].
    cbn [mbind result_bind]. apply as_int_ge0_nonneg in Ej.
    destruct (Z.eqb_spec j 0); intros [= <-] j' [= <-]. lia. }
  destruct (match od_get spec (u "jitter") with Some _ => _ | None => _ end)
    as [r|] eqn:Er; [|done].
  cbn [mbind result_bind].
  destruct (tz_or _ dtz) as [tzi|]; [|done]. cbn [mbind result_bind].
  destruct (interval_accepts _) eqn:Ha; [|done].
  intros [= <-]. eexists. split; [done|].
  cbn [weeks days hours minutes seconds iv_jitter].
  split_and!; try lia; [|done]. by apply Hj.
Qed.

Lemma build_cron_inv v dtz trig :
  build_cron v dtz = Ok trig →
  (∃ s, v = VStr s ∧ trig = TCrontab s dtz) ∨ (∃ c, trig = TCron c).
Proof.
  unfold build_cron. destruct v as [| | |s| |d|]; try done.
  - case_bool_decide; [|done]. destruct (crontab_accepts s); [|done].
    intros [= <-]. left. by exists s.
  - destruct (decide _); [done|].
    destruct (tz_or _ dtz) as [tzi|]; [|done]. cbn [mbind result_bind].
    unfold new_CronTrigger. destruct (cron_accepts _); [|done].
    cbn [mbind result_bind]. intros [= <-]. right. by eexists.
Qed.

Lemma build_date_inv v dtz trig :
  build_date v dtz = Ok trig → ∃ d, trig = TDate d.
Proof.
  unfold build_date.
  destruct (match v with VDict d => _ | _ => _ end) as [[run_at tzi]|]; [|done].
  cbn [mbind result_bind].
  destruct (match run_at with VNone => _ | _ => _ end) as [dt|]; [|done].
  cbn [mbind result_bind]. intros [= <-]. by eexists.
Qed.

Lemma new_CronTrigger_inv c c' :
  new_CronTrigger c = Ok c' → c' = c ∧ cron_accepts c = true.
Proof.
  unfold new_CronTrigger. destruct (cron_accepts c); [|done]. by intros [= <-].
Qed.

Lemma mapR_fmap_inv {E' A B} (f : A → result E' B) (g : A → B) l l' :
  (∀ x y, f x = Ok y → y = g x) → mapR f l = Ok l' → l' = g <$> l.
Proof.
  intros Hf. revert l'. induction l as [|a l IH]; intros l'; cbn [mapR].
  - by intros [= <-].
  - destruct (f a) as [b|] eqn:Ea; cbn [mbind result_bind]; [|done].
    destruct (mapR f l) as [bs|]; cbn [mbind result_bind]; [|done].
    intros [= <-]. rewrite fmap_cons, (Hf a b Ea). f_equal. by apply IH.
Qed.

Lemma build_daily_time_inv v dtz trig :
  build_daily_time v dtz = Ok trig →
  ∃ dtdef tzi entries parsed,
    v = VDict dtdef
    ∧ unknown_fields dtdef daily_time_allowed = []
    ∧ tz_or (get dtdef (u "timezone")) dtz = Ok tzi
    ∧ time_entries (get dtdef (u "time")) = Ok entries
    ∧ mapR parse_entry entries = Ok parsed
    ∧ trig = match daily_rule (get dtdef (u "day_of_week")) tzi
                   <$> sorted_set parsed with
             | [c] => TCron c
             | _ => TOr (daily_rule (get dtdef (u "day_of_week")) tzi
                         <$> sorted_set parsed)
             end.
Proof.
  unfold build_daily_time. destruct v as [| | | | |dtdef|]; try done.
  destruct (decide _) as [|Hu]; [done|]. apply dec_stable in Hu.
  destruct (tz_or _ dtz) as [tzi|] eqn:Etz; [|done]. cbn [mbind result_bind].
  destruct (time_entries _) as [entries|] eqn:Ee; [|done].
  cbn [mbind result_bind].
  destruct (mapR parse_entry entries) as [parsed|] eqn:Ep; [|done].
  cbn [mbind result_bind].
  destruct (mapR _ (sorted_set parsed)) as [rules|] eqn:Er; [|done].
  cbn [mbind result_bind]. intros [= <-].
  exists dtdef, tzi, entries, parsed. split_and!; [done..|].
  assert (rules = daily_rule (get dtdef (u "day_of_week")) tzi
                    <$> sorted_set parsed) as ->; [|done].
  eapply mapR_fmap_inv; [|exact Er].
  intros t c. by intros [-> _]%new_CronTrigger_inv.
Qed.

(** X19. An interval trigger that compiles has a positive period: each
    of weeks, days, hours, minutes and seconds is at least 0 and one of
    them is not 0; a jitter, when passed on, is positive. *)
Theorem interval_is_positive (trig_def : dict) tz t :
  _build_trigger (VDict trig_def) tz = Ok (TInterval t) →
  0 ≤ weeks t ∧ 0 ≤ days t ∧ 0 ≤ hours t ∧ 0 ≤ minutes t ∧ 0 ≤ seconds t
  ∧ 0 < weeks t + days t + hours t + minutes t + seconds t
  ∧ (∀ j, iv_jitter t = Some j → 0 < j)
  ∧ present trig_def = [u "interval"].
Proof.
  intros (dtz & kind & _ & Hp & [[-> Hb]|[[-> Hb]|[[-> Hb]|[-> Hb]]]])%build_trigger_inv.
  - apply build_interval_inv in Hb as (t' & [= <-] & Hpos).
    destruct Hpos as (?&?&?&?&?&?&?&?). done.
  - apply build_cron_inv in Hb as [(? & _ & ?)|(? & ?)]; done.
  - apply build_date_inv in Hb as (? & ?); done.
  - apply build_daily_time_inv in Hb as (?&?&?&?&_&_&_&_&_&Hb).
    by repeat case_match.
Qed.


(** *** Timezones *)

Lemma tz_or_inv v dtz tzi :
  tz_or v dtz = Ok tzi →
  ∃ own, _tz v = Ok own
         ∧ tzi = match own with Some z => Some z | None => dtz end.
Proof.
  unfold tz_or. destruct (_tz v) as [own|]; [|done]. cbn [mbind result_bind].
  intros [= <-]. by exists own.
Qed.

(** X20. The timezone of a block wins over the scheduler's: for an
    interval, a cron object or a daily_time spec that compiles, every
    rule of the trigger carries the block's own [timezone] when it
    resolves to one, and the scheduler timezone otherwise. *)
Theorem own_timezone_wins (trig_def spec : dict) tz kind trig :
  _build_trigger (VDict trig_def) tz = Ok trig →
  present trig_def = [kind] →
  od_get trig_def kind = Some (VDict spec) →
  kind ≠ u "date" →
  ∃ default_tz own,
    _tz tz = Ok default_tz
    ∧ _tz (get spec (u "timezone")) = Ok own
    ∧ Forall (λ z, z = match own with Some t => Some t | None => default_tz end)
             (trigger_timezones trig).
Proof.
  intros Hb Hp Hget Hnd.
  apply build_trigger_inv in Hb as (dtz & kind' & Htz & Hp' & Hcase).
  rewrite Hp in Hp'. injection Hp' as <-.
  unfold get, get_or in Hcase. rewrite Hget in Hcase.
  cbn [default from_option Datatypes.id] in Hcase.
  exists dtz.
  destruct Hcase as [[_ Hb]|[[_ Hb]|[[-> _]|[_ Hb]]]]; [| | done |].
  - unfold build_interval in Hb. destruct (decide _); [done|].
    repeat (match type of Hb with
            | context [_as_int_ge0 ?a ?b] =>
                destruct (_as_int_ge0 a b); cbn [mbind result_bind] in Hb; [|done]
            end).
    destruct (_ =? 0); [done|].
    destruct (match od_get spec (u "jitter") with Some _ => _ | None => _ end);
      cbn [mbind result_bind] in Hb; [|done].
    destruct (tz_or _ dtz) as [tzi|] eqn:Etz; cbn [mbind result_bind] in Hb; [|done].
    destruct (interval_accepts _); [|done]. injection Hb as <-.
    apply tz_or_inv in Etz as (own & Ho & ->). exists own.
    split_and!; [done..|]. by repeat constructor.
  - unfold build_cron in Hb. destruct (decide _); [done|].
    destruct (tz_or _ dtz) as [tzi|] eqn:Etz; cbn [mbind result_bind] in Hb; [|done].
    destruct (new_CronTrigger _) as [c|] eqn:Ec; cbn [mbind result_bind] in Hb; [|done].
    injection Hb as <-. apply new_CronTrigger_inv in Ec as [-> _].
    apply tz_or_inv in Etz as (own & Ho & ->). exists own.
    split_and!; [done..|]. by repeat constructor.
  - apply build_daily_time_inv in Hb
      as (dtdef & tzi & entries & parsed & [= <-] & _ & Etz & _ & _ & ->).
    apply tz_or_inv in Etz as (own & Ho & ->). exists own.
    split_and!; [done..|].
    assert (Hall : Forall
      (λ z, z = match own with Some t => Some t | None => dtz end)
      (timezone <$> (daily_rule (get spec (u "day_of_week"))
                       match own with Some z => Some z | None => dtz end
                     <$> sorted_set parsed))).
    { apply Forall_fmap, Forall_fmap, Forall_forall. by intros t _. }
    destruct (_ <$> sorted_set parsed) as [|c [|c' l]] eqn:El; cbn [trigger_timezones];
      [done| |done].
    cbn in Hall. by apply Forall_inv in Hall as ->; repeat constructor.
Qed.


(** *** Times of day *)

Lemma length_split sep s :
  length (split sep s) = S (length (filter (λ c, c = sep) s)).
Proof.
  induction s as [|c s IH]; [done|]. cbn [split]. rewrite filter_cons.
  destruct (N.eqb_spec c sep) as [->|Hne].
  - rewrite decide_True by done. cbn [length]. by rewrite IH.
  - rewrite decide_False by done.
    destruct (split sep s) as [|w ws]; [done|]. cbn [length] in *. done.
Qed.

(** X21. What [_parse_time] accepts is a time of day: the string has one
    or two colons, the hour is in 0..23, minute and second in 0..59, and
    with one colon the second is 0. *)
Theorem parse_time_sound s t :
  _parse_time s = Ok t →
  let colons := length (filter (λ c, c = 58%N) s) in
  (colons = 1%nat ∨ colons = 2%nat)
  ∧ 0 ≤ t.1.1 ≤ 23 ∧ 0 ≤ t.1.2 ≤ 59 ∧ 0 ≤ t.2 ≤ 59
  ∧ (colons = 1%nat → t.2 = 0).
Proof.
  intros Hp colons. pose proof (parse_time_range s t Hp) as (?&?&?).
  pose proof (length_split 58 s) as Hl. fold colons in Hl.
  unfold _parse_time in Hp. rewrite Hl in Hp.
  case_bool_decide as Hc; [|done].
  split_and!; try lia.
  intros Hone. rewrite Hone in Hp.
  rewrite (decide_False (P := 2%nat = 3%nat)) in Hp by done.
  destruct (split 58 s !! 0%nat ≫= int) as [hh|]; [|done].
  destruct (split 58 s !! 1%nat ≫= int) as [mm|]; [|done].
  cbn [mbind option_bind] in Hp.
  destruct (time_check hh mm 0); cbn [mbind result_bind] in Hp; [|done].
  by injection Hp as <-.
Qed.

Lemma hms_lt_asym (a b : hms) : hms_lt a b → hms_lt b a → a = b.
Proof.
  unfold hms_lt. intros Hab Hba.
  pose proof (hms_cmp_spec a b) as H1. pose proof (hms_cmp_spec b a) as H2.
  rewrite Hab in H1. rewrite Hba in H2. lia.
Qed.

Lemma sorted_set_ext (xs ys : list hms) :
  (∀ t, t ∈ xs ↔ t ∈ ys) → sorted_set xs = sorted_set ys.
Proof.
  intros Hxy.
  destruct (sorted_set_spec xs) as [Hsx Hex].
  destruct (sorted_set_spec ys) as [Hsy Hey].
  apply (StronglySorted_unique_strong hms_lt); [|done..|].
  - intros. by apply hms_lt_asym.
  - apply NoDup_Permutation.
    + unfold sorted_set. rewrite merge_sort_Permutation. apply NoDup_remove_dups.
    + unfold sorted_set. rewrite merge_sort_Permutation. apply NoDup_remove_dups.
    + intros t. by rewrite Hex, Hey, Hxy.
Qed.

(** X22. The daily times are a set: two daily_time blocks that agree on
    [day_of_week] and [timezone], and whose time entries parse to the
    same set of times, in any order and with any repetition, compile to
    the same trigger. *)
Theorem daily_time_is_a_set (dtdef1 dtdef2 : dict) tz entries1 entries2
    parsed1 parsed2 :
  unknown_fields dtdef1 daily_time_allowed = [] →
  unknown_fields dtdef2 daily_time_allowed = [] →
  get dtdef1 (u "timezone") = get dtdef2 (u "timezone") →
  get dtdef1 (u "day_of_week") = get dtdef2 (u "day_of_week") →
  time_entries (get dtdef1 (u "time")) = Ok entries1 →
  time_entries (get dtdef2 (u "time")) = Ok entries2 →
  mapR parse_entry entries1 = Ok parsed1 →
  mapR parse_entry entries2 = Ok parsed2 →
  (∀ t, t ∈ parsed1 ↔ t ∈ parsed2) →
  _build_trigger (VDict [(u "daily_time", VDict dtdef1)]) tz
  = _build_trigger (VDict [(u "daily_time", VDict dtdef2)]) tz.
Proof.
  intros Hu1 Hu2 Htz Hdow He1 He2 Hp1 Hp2 Hset.
  unfold _build_trigger. destruct (_tz tz) as [dtz|]; [|done].
  cbn [mbind result_bind].
  change (present [(u "daily_time", VDict dtdef1)]) with [u "daily_time"].
  change (present [(u "daily_time", VDict dtdef2)]) with [u "daily_time"].
  cbv beta iota.
  destruct (decide (u "daily_time" = u "interval")) as [E|_]; [by vm_compute in E|].
  destruct (decide (u "daily_time" = u "cron")) as [E|_]; [by vm_compute in E|].
  destruct (decide (u "daily_time" = u "date")) as [E|_]; [by vm_compute in E|].
  rewrite decide_True by done.
  change (get [(u "daily_time", VDict dtdef1)] (u "daily_time")) with (VDict dtdef1).
  change (get [(u "daily_time", VDict dtdef2)] (u "daily_time")) with (VDict dtdef2).
  unfold build_daily_time. rewrite Hu1, Hu2.
  rewrite decide_False by by intros ?.
  rewrite Htz, Hdow, He1, He2. 
  destruct (tz_or _ dtz) as [tzi|]; [|done]. cbn [mbind result_bind].
  rewrite Hp1, Hp2. cbn [mbind result_bind].
  by rewrite (sorted_set_ext parsed1 parsed2).
Qed.

(** *** What the compiler looks at *)

Lemma present_ext (d1 d2 : dict) :
  (∀ k, k ∈ trigger_kinds → od_get d1 k = od_get d2 k) →
  present d1 = present d2.
Proof.
  intros Hd. unfold present.
  induction trigger_kinds as [|k l IH]; [done|].
  assert (E : is_present d1 k = is_present d2 k).
  { unfold is_present. rewrite (Hd k); [done | by left]. }
  rewrite !filter_cons, E, IH; [done|].
  intros k' Hk'. apply Hd. by right.
Qed.

(** X23. Only the four trigger keys of a spec are looked at: two spec
    dicts that bind interval, cron, date and daily_time alike compile
    alike, whatever other keys they hold; in particular a key the
    compiler does not know is ignored at this level, not rejected. *)
Theorem build_trigger_ignores_other_keys (d1 d2 : dict) tz :
  (∀ k, k ∈ trigger_kinds → od_get d1 k = od_get d2 k) →
  _build_trigger (VDict d1) tz = _build_trigger (VDict d2) tz.
Proof.
  intros Hd. unfold _build_trigger. destruct (_tz tz) as [dtz|]; [|done].
  cbn [mbind result_bind]. rewrite <- (present_ext d1 d2 Hd).
  destruct (present d1) as [|kind [|k' l]] eqn:Hp; [done| |done].
  assert (Hk : kind ∈ trigger_kinds).
  { assert (Hin : kind ∈ present d1) by (rewrite Hp; by left).
    unfold present in Hin. by apply list_elem_of_filter in Hin as [_ ?]. }
  unfold get, get_or. by rewrite (Hd kind Hk).
Qed.

(** X24. One bad time rejects the whole daily_time spec: if any entry
    fails to parse, no trigger is built. *)
Theorem daily_time_rejects_bad_entry (trig_def dtdef : dict) tz entries v e :
  present trig_def = [u "daily_time"] →
  od_get trig_def (u "daily_time") = Some (VDict dtdef) →
  time_entries (get dtdef (u "time")) = Ok entries →
  v ∈ entries →
  parse_entry v = Raise e →
  ∃ e', _build_trigger (VDict trig_def) tz = Raise e'.
Proof.
  intros Hp Hget He Hv Hbad.
  destruct (_build_trigger (VDict trig_def) tz) as [trig|e'] eqn:Hb;
    [|by exists e'].
  exfalso.
  apply build_trigger_inv in Hb as (dtz & kind & _ & Hp' & Hcase).
  rewrite Hp in Hp'. injection Hp' as <-.
  unfold get, get_or in Hcase. rewrite Hget in Hcase.
  cbn [default from_option Datatypes.id] in Hcase.
  destruct Hcase as [[E _]|[[E _]|[[E _]|[_ Hb]]]];
    [by vm_compute in E..|].
  apply build_daily_time_inv in Hb
    as (dtdef' & tzi & entries' & parsed & [= <-] & _ & _ & He' & Hparse & _).
  rewrite He in He'. injection He' as <-.
  clear -Hv Hbad Hparse. revert parsed Hparse.
  induction entries as [|x l IH]; intros parsed; [by apply elem_of_nil in Hv|].
  cbn [mapR]. apply elem_of_cons in Hv as [<-|Hv].
  - by rewrite Hbad.
  - destruct (parse_entry x); cbn [mbind result_bind]; [|done].
    destruct (mapR parse_entry l) eqn:El; cbn [mbind result_bind]; [|done].
    intros _. by eapply IH.
Qed.

End more.

(** *** Compilations of sample specs *)

Lemma interval_is_positive_witness :
  let trig_def := [(u "interval", VDict [(u "minutes", VInt 5); (u "jitter", VInt 0)])] in
  let t := mkInterval 0 0 0 5 0 None None None (Some (u "UTC")) in
  @_build_trigger sample_library (VDict trig_def) (VStr (u "UTC")) = Ok (TInterval t)
  ∧ 0 < weeks t + days t + hours t + minutes t + seconds t.
Proof.
  intros trig_def t.
  assert (Hb : @_build_trigger sample_library (VDict trig_def) (VStr (u "UTC"))
               = Ok (TInterval t)) by reflexivity.
  split; [exact Hb|].
  exact (proj1 (proj2 (proj2 (proj2 (proj2 (proj2
           (@interval_is_positive sample_library trig_def (VStr (u "UTC")) t Hb))))))).
Defined.

Lemma own_timezone_wins_witness :
  let spec := [(u "time", VStr (u "03:15")); (u "timezone", VStr (u "UTC"))] in
  let trig_def := [(u "daily_time", VDict spec)] in
  let tz := VStr (u "America/Indiana/Indianapolis") in
  ∃ trig,
    @_build_trigger sample_library (VDict trig_def) tz = Ok trig
    ∧ present trig_def = [u "daily_time"]
    ∧ u "daily_time" ≠ u "date"
    ∧ trigger_timezones trig = [Some (u "UTC")].
Proof.
  intros spec trig_def tz.
  destruct (@_build_trigger sample_library (VDict trig_def) tz) as [trig|] eqn:E;
    [|vm_compute in E; discriminate E].
  exists trig.
  assert (Hp : present trig_def = [u "daily_time"]) by reflexivity.
  assert (Hn : u "daily_time" ≠ u "date") by (vm_compute; discriminate).
  split_and!; [reflexivity|exact Hp|exact Hn|].
  destruct (@own_timezone_wins sample_library trig_def spec tz (u "daily_time")
              trig E Hp eq_refl Hn) as (dtz & own & _ & Ho & _).
  vm_compute in E. injection E as <-. reflexivity.
Defined.

Lemma parse_time_sound_witness :
  _parse_time (u "06:30") = Ok (6, 30, 0)
  ∧ length (filter (λ c, c = 58%N) (u "06:30")) = 1%nat.
Proof.
  assert (H : _parse_time (u "06:30") = Ok (6, 30, 0)) by reflexivity.
  split; [exact H|].
  destruct (proj1 (parse_time_sound (u "06:30") (6, 30, 0) H)) as [E|E];
    [exact E|vm_compute in E; discriminate E].
Defined.

Lemma daily_time_is_a_set_witness :
  let d1 := [(u "time", VList [VStr (u "08:00"); VStr (u "05:00"); VStr (u "08:00")])] in
  let d2 := [(u "time", VList [VStr (u "05:00"); VStr (u "08:00:00")])] in
  (∀ t, t ∈ [(8, 0, 0); (5, 0, 0); (8, 0, 0)] ↔ t ∈ [(5, 0, 0); (8, 0, 0)])
  ∧ @_build_trigger sample_library (VDict [(u "daily_time", VDict d1)]) (VStr (u "UTC"))
    = @_build_trigger sample_library (VDict [(u "daily_time", VDict d2)]) (VStr (u "UTC")).
Proof.
  intros d1 d2.
  assert (H : ∀ t : hms, t ∈ [(8, 0, 0); (5, 0, 0); (8, 0, 0)]
                         ↔ t ∈ [(5, 0, 0); (8, 0, 0)]).
  { intros t. rewrite !elem_of_cons, !elem_of_nil. tauto. }
  split; [exact H|].
  exact (@daily_time_is_a_set sample_library d1 d2 (VStr (u "UTC")) _ _ _ _
           eq_refl eq_refl eq_refl eq_refl eq_refl eq_refl eq_refl eq_refl H).
Defined.

Lemma build_trigger_ignores_other_keys_witness :
  let d1 := [(u "cron", VStr (u "*/15 * * * *")); (u "note", VStr (u "x"))] in
  let d2 := [(u "cron", VStr (u "*/15 * * * *"))] in
  (∀ k, k ∈ trigger_kinds → od_get d1 k = od_get d2 k)
  ∧ @_build_trigger sample_library (VDict d1) (VStr (u "UTC"))
    = Ok (TCrontab (u "*/15 * * * *") (Some (u "UTC"))).
Proof.
  intros d1 d2.
  assert (H : ∀ k, k ∈ trigger_kinds → od_get d1 k = od_get d2 k).
  { intros k Hk. unfold trigger_kinds in Hk.
    rewrite !elem_of_cons, elem_of_nil in Hk.
    destruct Hk as [->|[->|[->|[->|[]]]]]; reflexivity. }
  split; [exact H|].
  rewrite (@build_trigger_ignores_other_keys sample_library d1 d2 (VStr (u "UTC")) H).
  reflexivity.
Defined.

Lemma daily_time_rejects_bad_entry_witness :
  let dtdef := [(u "time", VList [VStr (u "05:00"); VStr (u "99:99")])] in
  let trig_def := [(u "daily_time", VDict dtdef)] in
  present trig_def = [u "daily_time"]
  ∧ parse_entry (VStr (u "99:99")) = Raise (ValueError (u "hour must be in 0..23"))
  ∧ ∃ e', @_build_trigger sample_library (VDict trig_def) (VStr (u "UTC")) = Raise e'.
Proof.
  intros dtdef trig_def.
  assert (Hp : present trig_def = [u "daily_time"]) by reflexivity.
  assert (Hb : parse_entry (VStr (u "99:99"))
               = Raise (ValueError (u "hour must be in 0..23"))) by reflexivity.
  split_and!; [exact Hp|exact Hb|].
  refine (@daily_time_rejects_bad_entry sample_library trig_def dtdef
            (VStr (u "UTC")) _ (VStr (u "99:99")) _ Hp eq_refl eq_refl _ Hb).
  right. left.
Defined.

End SchedulerMore.
